(** * ndcube: axis correspondence, coordinate transforms, cropping and
      aligned-axes maintenance

    A shallow embedding of [ndcube/ndcube.py] (class [NDCube]) and of
    [ndcube/utils/collection.py], followed by the properties established
    about them.

    Conventions.
    - Python exceptions are the left summand of [result]; a raised
      exception aborts the rest of the computation.
    - Python ints are [Z]; numeric array entries are exact rationals [Q]
      (every finite float64 is one; rounding of float arithmetic is not
      modelled).
    - Code that lives outside the two embedded files (astropy's unit
      conversion and quantity addition, the WCS solver, the slicing mixin,
      [cube_utils]) is an interface: the fields of [WCS] and the class
      [Collaborators]. *)

From Stdlib Require Import String DecimalString ZArith QArith Qround Qabs Lqa List Bool Lia.
Import ListNotations.

Open Scope Z_scope.

(* ===================================================================== *)
(** * Python run-time: exceptions, sequences, loops                       *)
(* ===================================================================== *)

Module Py.

Inductive exn : Type :=
| ValueError (msg : string)
| TypeError (msg : string)
| IndexError
| KeyError
| UnitConversionError.

Definition result (A : Type) : Type := (exn + A)%type.

Definition ret {A} (a : A) : result A := inr a.
Definition raise {A} (e : exn) : result A := inl e.

Definition bind {A B} (c : result A) (k : A -> result B) : result B :=
  match c with
  | inl e => inl e
  | inr a => k a
  end.

Definition is_error {A} (c : result A) : Prop :=
  match c with inl _ => True | inr _ => False end.

Definition len {A} (l : list A) : Z := Z.of_nat (List.length l).

(** [l[i]] for a list, tuple or one-dimensional array: a negative index
    counts from the end, an index outside [-len, len) raises
    [IndexError]. *)
Definition getitem {A} (l : list A) (i : Z) : result A :=
  let j := if i <? 0 then len l + i else i in
  if j <? 0 then raise IndexError
  else match nth_error l (Z.to_nat j) with
       | Some a => ret a
       | None => raise IndexError
       end.

(** [l[i] = v] *)
Definition setitem {A} (l : list A) (i : Z) (v : A) : result (list A) :=
  let j := if i <? 0 then len l + i else i in
  if (j <? 0) || (len l <=? j) then raise IndexError
  else ret (firstn (Z.to_nat j) l ++ v :: skipn (S (Z.to_nat j)) l).

(** [range(n)] *)
Definition range (n : nat) : list Z := map Z.of_nat (seq 0 n).

(** [for x in l: s = body(s, x)], stopping at the first exception. *)
Fixpoint for_each {S A} (l : list A) (body : S -> A -> result S) (s : S)
  : result S :=
  match l with
  | [] => ret s
  | x :: l' => bind (body s x) (for_each l' body)
  end.

(** [[f(x) for x in l]] *)
Fixpoint comprehension {A B} (f : A -> result B) (l : list A)
  : result (list B) :=
  match l with
  | [] => ret []
  | x :: l' =>
      bind (f x) (fun y => bind (comprehension f l') (fun ys => ret (y :: ys)))
  end.

End Py.

Import Py.

Declare Scope py_scope.
Delimit Scope py_scope with py.
Notation "x <- c ;; k" := (bind c (fun x => k))
  (at level 61, c at next level, right associativity) : py_scope.
Notation "' pat <- c ;; k" := (bind c (fun x => match x with pat => k end))
  (at level 61, pat pattern, c at next level, right associativity) : py_scope.
Open Scope py_scope.

(* ===================================================================== *)
(** * External collaborators                                              *)
(* ===================================================================== *)

Definition Unit := string.

(** [astropy.units.pix] *)
Definition pix : Unit := "pix"%string.

(** [astropy.units.Quantity]: a number tagged with a unit. *)
Record Quantity : Type := mkQuantity { value : Q; qunit : Unit }.

(** [astropy.wcs.WCS]: [naxis], the per-axis tables of [wcs.wcs] and the two
    solvers.  The solvers take the per-axis arguments in WCS order followed
    by [origin] and return one entry per WCS axis. *)
Record WCS : Type := mkWCS {
  naxis : Z;
  crpix : list Q;
  crval : list Q;
  cunit : list Unit;
  ctype : list string;
  all_pix2world : list Q -> Z -> result (list Q);
  all_world2pix : list Q -> Z -> result (list Q)
}.

(** One entry of the [extra_coords] constructor argument:
    (name, data axis, values). *)
Definition extra_coord : Type := (string * Z * list Q)%type.

(** [_extra_coords_wcs_axis]: name -> (wcs axis, values). *)
Definition extra_coords_wcs_axis_t : Type := list (string * (Z * list Q)).

(** [slice(start, stop)] *)
Record slice : Type := mkSlice { start : Z; stop : Z }.

Record NDCube : Type := mkNDCube {
  data_shape : list Z;                    (* self.data.shape *)
  wcs : WCS;
  missing_axis : list bool;
  _extra_coords_wcs_axis : option extra_coords_wcs_axis_t
}.

(** What [NDCube] calls but does not define. *)
Class Collaborators : Type := {
  (** [Quantity.to(unit)] *)
  to : Quantity -> Unit -> result Quantity;
  (** [Quantity.__add__] *)
  quantity_add : Quantity -> Quantity -> result Quantity;
  (** [cube_utils._format_input_extra_coords_to_extra_coords_wcs_axis] *)
  format_extra_coords :
    list extra_coord -> list bool -> list Z -> result extra_coords_wcs_axis_t;
  (** [NDCubeSlicingMixin.__getitem__] with a tuple of slices *)
  cube_getitem : NDCube -> list slice -> result NDCube
}.

(* ===================================================================== *)
(** * ndcube/ndcube.py: class NDCube                                      *)
(* ===================================================================== *)

Section ndcube.

Context {collab : Collaborators}.

Definition rank_mismatch_message : string :=
  "The number of data dimensions and number of wcs non-missing axes do not match.".

Definition crop_count_message : string :=
  "lower_left_corner and dimension_widths must have same number of elements as number of data dimensions.".

(** The counting loop of [__init__]:
    [for bool_ in self.missing_axis: if not bool_: count += 1]. *)
Definition count_non_missing (flags : list bool) : Z :=
  fold_left (fun count bool_ => if negb bool_ then count + 1 else count)
            flags 0.

(** [NDCube.__init__].  [data] is represented by its shape, so [data.ndim]
    is its length; [extra_coords=None] is the empty list (both are falsy).
    The identity tests [is not] on the small ints involved are value
    inequalities.  The final [super().__init__] stores its arguments. *)
Definition __init__ (data : list Z) (wcs : WCS)
           (extra_coords : list extra_coord)
           (missing_axis : option (list bool)) : result NDCube :=
  let self_missing_axis :=
    match missing_axis with
    | None => repeat false (Z.to_nat (naxis wcs))
    | Some m => m
    end in
  let ndim := len data in
  _ <- (if negb (ndim =? naxis wcs) then
          let count := count_non_missing self_missing_axis in
          if negb (count =? ndim)
          then raise (ValueError rank_mismatch_message)
          else ret tt
        else ret tt) ;;
  extra <- match extra_coords with
           | _ :: _ =>
               e <- format_extra_coords extra_coords self_missing_axis data ;;
               ret (Some e)
           | [] => ret None
           end ;;
  ret (mkNDCube data wcs self_missing_axis extra).

(** The three locals threaded through the first loop of
    [pixel_to_world] and [world_to_pixel]. *)
Record loop_state : Type := mkLoop {
  list_arg : list Q;
  indexed_not_as_one : list Z;
  quantity_index : Z
}.

Definition loop_init : loop_state := mkLoop [] [] 0.

(** One iteration of the loop of [pixel_to_world]. *)
Definition pixel_to_world_step (self : NDCube)
           (quantity_axis_list : list Quantity) (origin : Z)
           (st : loop_state) (i : Z) : result loop_state :=
  let wcs_index := naxis (wcs self) - 1 - i in
  missing <- getitem (missing_axis self) wcs_index ;;
  if missing : bool then
    c <- getitem (crpix (wcs self)) wcs_index ;;
    ret (mkLoop (list_arg st ++ [c - 1 + inject_Z origin]%Q)
                (indexed_not_as_one st)
                (quantity_index st))
  else
    q <- getitem quantity_axis_list (quantity_index st) ;;
    q' <- to q pix ;;
    ret (mkLoop (list_arg st ++ [value q'])
                (indexed_not_as_one st ++ [wcs_index])
                (quantity_index st + 1)).

(** The first loop of [pixel_to_world] and the reversal after it:
    [list_arguments] and [indexed_not_as_one]. *)
Definition pixel_to_world_arguments (self : NDCube)
           (quantity_axis_list : list Quantity) (origin : Z)
  : result (list Q * list Z) :=
  st <- for_each (range (length (missing_axis self)))
                 (pixel_to_world_step self quantity_axis_list origin)
                 loop_init ;;
  ret (rev (list_arg st), indexed_not_as_one st).

(** [NDCube.pixel_to_world] *)
Definition pixel_to_world (self : NDCube)
           (quantity_axis_list : list Quantity) (origin : Z)
  : result (list Quantity) :=
  '(list_arguments, indexed) <-
     pixel_to_world_arguments self quantity_axis_list origin ;;
  pixel_to_world_ <- all_pix2world (wcs self) list_arguments origin ;;
  result_ <- for_each (rev indexed)
               (fun result_ index =>
                  v <- getitem pixel_to_world_ index ;;
                  un <- getitem (cunit (wcs self)) index ;;
                  ret (result_ ++ [mkQuantity v un]))
               [] ;;
  ret (rev result_).

(** One iteration of the loop of [world_to_pixel]. *)
Definition world_to_pixel_step (self : NDCube)
           (quantity_axis_list : list Quantity) (origin : Z)
           (st : loop_state) (i : Z) : result loop_state :=
  let wcs_index := naxis (wcs self) - 1 - i in
  missing <- getitem (missing_axis self) wcs_index ;;
  if missing : bool then
    c <- getitem (crval (wcs self)) wcs_index ;;
    ret (mkLoop (list_arg st ++ [c + 1 - inject_Z origin]%Q)
                (indexed_not_as_one st)
                (quantity_index st))
  else
    q <- getitem quantity_axis_list (quantity_index st) ;;
    un <- getitem (cunit (wcs self)) wcs_index ;;
    q' <- to q un ;;
    ret (mkLoop (list_arg st ++ [value q'])
                (indexed_not_as_one st ++ [wcs_index])
                (quantity_index st + 1)).

Definition world_to_pixel_arguments (self : NDCube)
           (quantity_axis_list : list Quantity) (origin : Z)
  : result (list Q * list Z) :=
  st <- for_each (range (length (missing_axis self)))
                 (world_to_pixel_step self quantity_axis_list origin)
                 loop_init ;;
  ret (rev (list_arg st), indexed_not_as_one st).

(** [NDCube.world_to_pixel] *)
Definition world_to_pixel (self : NDCube)
           (quantity_axis_list : list Quantity) (origin : Z)
  : result (list Quantity) :=
  '(list_arguments, indexed) <-
     world_to_pixel_arguments self quantity_axis_list origin ;;
  world_to_pixel_ <- all_world2pix (wcs self) list_arguments origin ;;
  result_ <- for_each (rev indexed)
               (fun result_ index =>
                  v <- getitem world_to_pixel_ index ;;
                  ret (result_ ++ [mkQuantity v pix]))
               [] ;;
  ret (rev result_).

(** The [dimensions] property: the data shape and, in data order, the
    axis types of the non-missing WCS axes. *)
Definition dimensions (self : NDCube) : result (list Z * list string) :=
  axes_ctype <-
    for_each (combine (range (length (missing_axis self))) (missing_axis self))
      (fun axes_ctype '(i, axis) =>
         if negb axis then
           t <- getitem (ctype (wcs self)) i ;;
           ret (axes_ctype ++ [t])
         else ret axes_ctype)
      [] ;;
  ret (data_shape self, rev axes_ctype).

(** [numpy.rint] followed by [int]: the nearest integer, a tie going to
    the even neighbour. *)
Definition rint (x : Q) : Z :=
  let f := Qfloor x in
  match (x - inject_Z f ?= 1 # 2)%Q with
  | Lt => f
  | Gt => f + 1
  | Eq => if Z.even f then f else f + 1
  end.

(** [crop_by_coords] up to and including the construction of [slic].
    The guard is Python's chained comparison
    [len(lower_left_corner) != len(dimension_widths) != n_dim], that is
    [a != b and b != c]. *)
Definition crop_slices (self : NDCube)
           (lower_left_corner dimension_widths : list Quantity)
  : result (list slice) :=
  '(shape, _) <- dimensions self ;;
  let n_dim := length shape in
  _ <- (if negb (len lower_left_corner =? len dimension_widths)
           && negb (len dimension_widths =? Z.of_nat n_dim)
        then raise (ValueError crop_count_message)
        else ret tt) ;;
  lower_pixels <- world_to_pixel self lower_left_corner 0 ;;
  upper_corner <-
    comprehension
      (fun i =>
         l <- getitem lower_left_corner i ;;
         w <- getitem dimension_widths i ;;
         quantity_add l w)
      (range n_dim) ;;
  upper_pixels <- world_to_pixel self upper_corner 0 ;;
  let lower_pixels := map (fun l => rint (value l)) lower_pixels in
  let upper_pixels := map (fun u => rint (value u)) upper_pixels in
  comprehension
    (fun i =>
       lo <- getitem lower_pixels i ;;
       up <- getitem upper_pixels i ;;
       ret (mkSlice lo up))
    (range n_dim).

(** [NDCube.crop_by_coords] *)
Definition crop_by_coords (self : NDCube)
           (lower_left_corner dimension_widths : list Quantity)
  : result NDCube :=
  slic <- crop_slices self lower_left_corner dimension_widths ;;
  cube_getitem self slic.

(** ** Vocabulary for the statements about the two transforms *)

(** The WCS axes whose flag is [False], in ascending order. *)
Definition non_missing_wcs_axes (flags : list bool) : list Z :=
  filter (fun w => match nth_error flags (Z.to_nat w) with
                   | Some false => true
                   | _ => false
                   end)
         (range (length flags)).

(** The same axes in data order: data axis [j] is the [j]-th entry, data
    order being the reverse of WCS order. *)
Definition wcs_axes_in_data_order (flags : list bool) : list Z :=
  rev (non_missing_wcs_axes flags).

(** The tables of the WCS have one entry per flag and [naxis] is their
    number. *)
Definition consistent (self : NDCube) : Prop :=
  naxis (wcs self) = len (missing_axis self) /\
  length (crpix (wcs self)) = length (missing_axis self) /\
  length (crval (wcs self)) = length (missing_axis self) /\
  length (cunit (wcs self)) = length (missing_axis self).

(** A solver that answers every full argument vector with one value per
    WCS axis. *)
Definition answers (solver : list Q -> Z -> result (list Q)) (n : nat) : Prop :=
  forall args origin, length args = n ->
    exists out, solver args origin = inr out /\ length out = n.

(** What the two loops append for a missing axis and for a present one. *)
Definition pixel_anchor (self : NDCube) (origin : Z) (wcs_index : Z) : result Q :=
  c <- getitem (crpix (wcs self)) wcs_index ;;
  ret (c - 1 + inject_Z origin)%Q.

Definition pixel_convert (q : Quantity) (wcs_index : Z) : result Q :=
  q' <- to q pix ;;
  ret (value q').

Definition world_anchor (self : NDCube) (origin : Z) (wcs_index : Z) : result Q :=
  c <- getitem (crval (wcs self)) wcs_index ;;
  ret (c + 1 - inject_Z origin)%Q.

Definition world_convert (self : NDCube) (q : Quantity) (wcs_index : Z) : result Q :=
  un <- getitem (cunit (wcs self)) wcs_index ;;
  q' <- to q un ;;
  ret (value q').

(** The shape shared by [pixel_to_world_step] and [world_to_pixel_step],
    as a function of the WCS index visited. *)
Definition visit (flags : list bool) (quantity_axis_list : list Quantity)
           (anchor : Z -> result Q) (convert : Quantity -> Z -> result Q)
           (st : loop_state) (wcs_index : Z) : result loop_state :=
  missing <- getitem flags wcs_index ;;
  if missing : bool then
    a <- anchor wcs_index ;;
    ret (mkLoop (list_arg st ++ [a]) (indexed_not_as_one st) (quantity_index st))
  else
    q <- getitem quantity_axis_list (quantity_index st) ;;
    v <- convert q wcs_index ;;
    ret (mkLoop (list_arg st ++ [v])
                (indexed_not_as_one st ++ [wcs_index])
                (quantity_index st + 1)).

(** Whether the loop consumes an input entry at this WCS index. *)
Definition present (flags : list bool) (wcs_index : Z) : bool :=
  match getitem flags wcs_index with
  | inr false => true
  | _ => false
  end.

(** The lists the two transforms return, given the solver's output: one
    quantity per non-missing axis, in data order. *)
Definition world_quantities (self : NDCube) (out : list Q) : list Quantity :=
  map (fun w => mkQuantity (nth (Z.to_nat w) out 0%Q)
                           (nth (Z.to_nat w) (cunit (wcs self)) EmptyString))
      (wcs_axes_in_data_order (missing_axis self)).

Definition pixel_quantities (self : NDCube) (out : list Q) : list Quantity :=
  map (fun w => mkQuantity (nth (Z.to_nat w) out 0%Q) pix)
      (wcs_axes_in_data_order (missing_axis self)).

End ndcube.

(* ===================================================================== *)
(** * ndcube/utils/collection.py                                          *)
(* ===================================================================== *)

Module collection.

(** What [_sanitize_aligned_axes] reads of a collection member: the value
    of its [dimensions] attribute, an [astropy.units.Quantity] array of
    extents, a tuple of extents, or an object of some other type (which
    supports neither [len] nor indexing). *)
Inductive dimensions_t : Type :=
| DimsQuantity (shape : list Z)
| DimsTuple (shape : list Z)
| DimsOther.

Record member : Type := mkMember { dimensions : dimensions_t }.

(** The [aligned_axes] argument: an int or a tuple whose elements are
    ints or tuples of ints. *)
Inductive axis_item : Type :=
| AInt (axis : Z)
| ATuple (axes : list Z).

Inductive aligned_axes_t : Type :=
| AxInt (axis : Z)
| AxTuple (items : list axis_item).

(** The value bound to [cube0_dims]: a scalar when the index is an int,
    an array when it is a tuple. *)
Inductive cube0_dims_t : Type :=
| Scalar (extent : Z)
| Arr (extents : list Z).

Definition newline : string := String (Ascii.ascii_of_nat 10) EmptyString.

Definition aligned_axes_error_message : string :=
  "aligned_axes must contain ints or " ++
  "a tuple of ints for each element in data.".

Definition unsupported_type_message : string :=
  "0th cube in collection of unsupported type".

Definition not_subscriptable_message : string :=
  "'int' object is not subscriptable".

Definition no_len_message : string := "object has no len()".

Definition tuple_per_element_message : string :=
  "aligned_axes must have a tuple for each element in data.".

Definition same_length_message : string :=
  "Each element in aligned_axes must have same length.".

Definition decimal (i : Z) : string :=
  NilEmpty.string_of_int (Z.to_int i).

(** Every placeholder of the source's format string is [{0}], so only
    the cube number is printed. *)
Definition axis_range_message (i : Z) : string :=
  "Each cube in data must have at least as many axes as aligned axes " ++
  "and aligned axis numbers must be less than number of cube axes." ++
  newline ++
  "Cube number: " ++ decimal i ++ ";" ++ newline ++
  "Number of cube dimensions: " ++ decimal i ++ ";" ++ newline ++
  "No. aligned axes: " ++ decimal i ++ ";" ++ newline ++
  "Highest aligned axis: " ++ decimal i.

Definition cube_axes_same_length_message : string :=
  "Aligned cube/sequence axes must be of same length.".

Definition not_same_length_message : string :=
  "Aligned axes are not all of same length.".

Definition max_empty_message : string := "max() arg is an empty sequence".

(** [len(d)] and [d[i]] on a [dimensions] value. *)
Definition dims_len (d : dimensions_t) : result Z :=
  match d with
  | DimsQuantity shape | DimsTuple shape => ret (len shape)
  | DimsOther => raise (TypeError no_len_message)
  end.

Definition dims_getitem (d : dimensions_t) (i : Z) : result Z :=
  match d with
  | DimsQuantity shape | DimsTuple shape => getitem shape i
  | DimsOther => raise (TypeError not_subscriptable_message)
  end.

(** [aligned_axes[0]] on the argument as passed. *)
Definition subscript0 (aligned_axes : aligned_axes_t) : result axis_item :=
  match aligned_axes with
  | AxInt _ => raise (TypeError not_subscriptable_message)
  | AxTuple items => getitem items 0
  end.

(** [shape[np.array(idx)]]: an element for an int, one element per index
    for a tuple (every index checked); [np.array(())] has a float dtype
    and is rejected as an index. *)
Definition np_index (shape : list Z) (idx : axis_item) : result cube0_dims_t :=
  match idx with
  | AInt i => x <- getitem shape i ;; ret (Scalar x)
  | ATuple [] => raise IndexError
  | ATuple axes => xs <- comprehension (getitem shape) axes ;; ret (Arr xs)
  end.

Definition cube0_getitem (c : cube0_dims_t) (j : Z) : result Z :=
  match c with
  | Scalar _ => raise IndexError
  | Arr extents => getitem extents j
  end.

(** The largest element of a non-empty tuple of ints. *)
Definition max_axis (t : list Z) : Z :=
  match t with
  | [] => 0
  | x :: t' => fold_left Z.max t' x
  end.

(** [max(t)] on a tuple of ints *)
Definition py_max (t : list Z) : result Z :=
  match t with
  | [] => raise (ValueError max_empty_message)
  | _ :: _ => ret (max_axis t)
  end.

Definition is_int (a : axis_item) : bool :=
  match a with AInt _ => true | ATuple _ => false end.

Definition is_tuple (a : axis_item) : bool :=
  match a with AInt _ => false | ATuple _ => true end.

Definition ints_of (items : list axis_item) : list Z :=
  flat_map (fun a => match a with AInt i => [i] | ATuple _ => [] end) items.

Definition tuples_of (items : list axis_item) : list (list Z) :=
  flat_map (fun a => match a with AInt _ => [] | ATuple t => [t] end) items.

(** [all(l)] *)
Definition all (l : list bool) : bool := forallb (fun b => b) l.

(** The closing check of [_sanitize_aligned_axes]: for every aligned
    position the set of extents over the members must be a singleton,
    [check_dimensions == {1}]. *)
Definition check_dimensions (data : list member)
           (aligned_axes : list (list Z)) (n_aligned_axes : nat)
  : result (list Z) :=
  comprehension
    (fun j =>
       extents <-
         comprehension
           (fun '(cube, cube_aligned_axes) =>
              a <- getitem cube_aligned_axes j ;;
              dims_getitem (dimensions cube) a)
           (combine data aligned_axes) ;;
       ret (len (nodup Z.eq_dec extents)))
    (range n_aligned_axes).

(** [set(l) == {1}] *)
Definition set_is_one (l : list Z) : bool :=
  match l with
  | [] => false
  | _ => forallb (fun x => x =? 1) l
  end.

(** The body of [for i in range(n_cubes)] in the all-tuples branch. *)
Definition cube_step (data : list member) (aligned_axes : list (list Z))
           (n_aligned_axes : nat) (cube0_dims : cube0_dims_t)
           (st : list bool * list bool) (i : Z)
  : result (list bool * list bool) :=
  let '(subtuples_are_ints, aligned_axes_same_lengths) := st in
  cube <- getitem data i ;;
  n_cube_dims <- dims_len (dimensions cube) ;;
  axes_i <- getitem aligned_axes i ;;
  max_aligned_axis <- py_max axes_i ;;
  _ <- (if n_cube_dims <? Z.max max_aligned_axis (Z.of_nat n_aligned_axes)
        then raise (ValueError (axis_range_message i))
        else ret tt) ;;
  '(subtuple_types, cube_lengths_equal) <-
    for_each (combine (range (length axes_i)) axes_i)
      (fun '(subtuple_types, cube_lengths_equal) '(j, axis) =>
         subtuple_types <- setitem subtuple_types j true ;;
         extent <- dims_getitem (dimensions cube) axis ;;
         extent0 <- cube0_getitem cube0_dims j ;;
         cube_lengths_equal <- setitem cube_lengths_equal j (extent =? extent0) ;;
         ret (subtuple_types, cube_lengths_equal))
      (repeat false n_aligned_axes, repeat false n_aligned_axes) ;;
  subtuples_are_ints <- setitem subtuples_are_ints i (all subtuple_types) ;;
  aligned_axes_same_lengths <-
    setitem aligned_axes_same_lengths i (all cube_lengths_equal) ;;
  ret (subtuples_are_ints, aligned_axes_same_lengths).

(** The branch [elif axes_all_tuples is True] of [_sanitize_aligned_axes]:
    one tuple per member, tuples of equal length, then the loop over the
    members and the two tests on what it has recorded.  It yields the
    tuples and [n_aligned_axes]. *)
Definition all_tuples_branch (data : list member) (aligned_axes : list (list Z))
           (cube0_dims : cube0_dims_t) : result (list (list Z) * nat) :=
  let n_cubes := length data in
  _ <- (if negb (len aligned_axes =? Z.of_nat n_cubes)
        then raise (ValueError tuple_per_element_message)
        else ret tt) ;;
  axes0 <- getitem aligned_axes 0 ;;
  let n_aligned_axes := length axes0 in
  _ <- (if negb (forallb (fun axes => len axes =? Z.of_nat n_aligned_axes)
                         aligned_axes)
        then raise (ValueError same_length_message)
        else ret tt) ;;
  '(subtuples_are_ints, aligned_axes_same_lengths) <-
    for_each (range n_cubes)
             (cube_step data aligned_axes n_aligned_axes cube0_dims)
             (repeat false n_cubes, repeat false n_cubes) ;;
  _ <- (if negb (all subtuples_are_ints)
        then raise (ValueError aligned_axes_error_message)
        else ret tt) ;;
  _ <- (if negb (all aligned_axes_same_lengths)
        then raise (ValueError cube_axes_same_length_message)
        else ret tt) ;;
  ret (aligned_axes, n_aligned_axes).

(** [_sanitize_aligned_axes(data, aligned_axes)] *)
Definition _sanitize_aligned_axes (data : list member)
           (aligned_axes : aligned_axes_t) : result (list (list Z)) :=
  data0 <- getitem data 0 ;;
  cube0_dims <-
    match dimensions data0 with
    | DimsQuantity shape | DimsTuple shape =>
        a0 <- subscript0 aligned_axes ;;
        np_index shape a0
    | DimsOther => raise (TypeError unsupported_type_message)
    end ;;
  (* If user entered a single int, convert to length 1 tuple of int. *)
  let aligned_axes :=
    match aligned_axes with
    | AxInt axis => [AInt axis]
    | AxTuple items => items
    end in
  let axes_all_ints := forallb is_int aligned_axes in
  let axes_all_tuples := forallb is_tuple aligned_axes in
  let n_cubes := length data in
  '(aligned_axes, n_aligned_axes) <-
    (if axes_all_ints then
       (* If all elements are int, duplicate tuple so there is one for
          each cube. *)
       let n_aligned_axes := length aligned_axes in
       ret (repeat (ints_of aligned_axes) n_cubes, n_aligned_axes)
     else if axes_all_tuples then
       all_tuples_branch data (tuples_of aligned_axes) cube0_dims
     else raise (ValueError aligned_axes_error_message)) ;;
  (* Ensure all aligned axes are of same length. *)
  check <- check_dimensions data aligned_axes n_aligned_axes ;;
  if negb (set_is_one check)
  then raise (ValueError not_same_length_message)
  else ret aligned_axes.

(** [aligned_axes[key]] on the dict of per-member tuples, kept as an
    association list in insertion order. *)
Fixpoint dict_getitem (d : list (string * list Z)) (key : string)
  : result (list Z) :=
  match d with
  | [] => raise KeyError
  | (k, v) :: d' => if String.eqb k key then ret v else dict_getitem d' key
  end.

(** [np.delete(arr, i)] for an int [i] *)
Definition np_delete (arr : list Z) (i : Z) : result (list Z) :=
  let j := if i <? 0 then len arr + i else i in
  if (j <? 0) || (len arr <=? j) then raise IndexError
  else ret (firstn (Z.to_nat j) arr ++ skipn (S (Z.to_nat j)) arr).

(** [arr[np.where(arr > x)] -= 1] *)
Definition decrement_above (x : Z) (arr : list Z) : list Z :=
  map (fun a => if a >? x then a - 1 else a) arr.

(** One pass of [for drop_axis_index in drop_aligned_axes_indices]: the
    iterator reads position [t] of the array as it is at that moment; the
    array is the caller's and is updated in place. *)
Definition drop_step (st : list Z * list Z) (t : Z)
  : result (list Z * list Z) :=
  let '(cube_aligned_axes, drop_aligned_axes_indices) := st in
  drop_axis_index <- getitem drop_aligned_axes_indices t ;;
  drop_axis <- getitem cube_aligned_axes drop_axis_index ;;
  cube_aligned_axes <- np_delete cube_aligned_axes drop_axis_index ;;
  let cube_aligned_axes := decrement_above drop_axis cube_aligned_axes in
  let drop_aligned_axes_indices :=
    decrement_above drop_axis_index drop_aligned_axes_indices in
  ret (cube_aligned_axes, drop_aligned_axes_indices).

(** The body of [for key in aligned_axes.keys()]; the drop array carries
    over from one key to the next. *)
Definition key_step (aligned_axes : list (string * list Z))
           (st : list (list Z) * list Z) (key : string)
  : result (list (list Z) * list Z) :=
  let '(new_aligned_axes, drop_aligned_axes_indices) := st in
  cube_aligned_axes <- dict_getitem aligned_axes key ;;
  '(cube_aligned_axes, drop_aligned_axes_indices) <-
    for_each (range (length drop_aligned_axes_indices)) drop_step
             (cube_aligned_axes, drop_aligned_axes_indices) ;;
  ret (new_aligned_axes ++ [cube_aligned_axes], drop_aligned_axes_indices).

(** [_update_aligned_axes] together with the final contents of the
    [drop_aligned_axes_indices] array, which the function mutates.
    [None] is Python's [None]. *)
Definition _update_aligned_axes_store (drop_aligned_axes_indices : list Z)
           (aligned_axes : list (string * list Z)) (first_key : string)
  : result (option (list (list Z)) * list Z) :=
  if len drop_aligned_axes_indices <=? 0 then
    ret (Some (map snd aligned_axes), drop_aligned_axes_indices)
  else
    first <- dict_getitem aligned_axes first_key ;;
    if len drop_aligned_axes_indices =? len first then
      ret (None, drop_aligned_axes_indices)
    else
      '(new_aligned_axes, drop_aligned_axes_indices) <-
        for_each (map fst aligned_axes) (key_step aligned_axes)
                 ([], drop_aligned_axes_indices) ;;
      ret (Some new_aligned_axes, drop_aligned_axes_indices).

(** [_update_aligned_axes(drop_aligned_axes_indices, aligned_axes, first_key)] *)
Definition _update_aligned_axes (drop_aligned_axes_indices : list Z)
           (aligned_axes : list (string * list Z)) (first_key : string)
  : result (option (list (list Z))) :=
  '(new_aligned_axes, _) <-
    _update_aligned_axes_store drop_aligned_axes_indices aligned_axes first_key ;;
  ret new_aligned_axes.

(** ** The update as section 4.5 of the specification words it

    Each member is treated on its own: the drop positions are taken in
    order; position [p] is removed from the member's tuple, the remaining
    axis indices above the removed one go down by one, and the pending
    positions above [p] go down by one. *)
Fixpoint drop_positions (fuel : nat) (pending : list Z) (axes : list Z)
  : result (list Z) :=
  match fuel, pending with
  | _, [] => ret axes
  | O, _ :: _ => ret axes
  | S fuel', p :: pending' =>
      removed <- getitem axes p ;;
      axes <- np_delete axes p ;;
      drop_positions fuel' (decrement_above p pending')
                     (decrement_above removed axes)
  end.

Definition updateAfterDrop_spec (canonical : list (list Z))
           (dropPositions : list Z) : result (option (list (list Z))) :=
  match dropPositions, canonical with
  | [], _ => ret (Some canonical)
  | _, first :: _ =>
      if len dropPositions =? len first then ret None
      else
        r <- comprehension
               (drop_positions (length dropPositions) dropPositions)
               canonical ;;
        ret (Some r)
  | _, [] => raise KeyError
  end.

(** ** Vocabulary for the statements about the collection helpers *)

(** The extents behind a [dimensions] value of a supported type. *)
Definition shape_of (cube : member) : option (list Z) :=
  match dimensions cube with
  | DimsQuantity shape | DimsTuple shape => Some shape
  | DimsOther => None
  end.

(** An index that [shape[axis]] accepts. *)
Definition indexes (shape : list Z) (axis : Z) : Prop :=
  - len shape <= axis < len shape.

(** A member passes the body of the loop over the cubes when it has room
    for its largest axis and for [k] axes, and every axis indexes its
    shape. *)
Definition fits (k : nat) (cube : member) (t : list Z) : Prop :=
  exists shape, shape_of cube = Some shape /\
                Z.max (max_axis t) (Z.of_nat k) <= len shape /\
                Forall (indexes shape) t.

End collection.

(* ===================================================================== *)
(** * Fixtures                                                            *)
(* ===================================================================== *)

(** Stand-ins for the collaborators, used to run the model: a quantity
    converts to its own unit only, two quantities add when their units
    agree, extra coordinates are stored as given, and slicing keeps the
    extent of every slice. *)
Definition same_unit_to (q : Quantity) (u : Unit) : result Quantity :=
  if String.eqb (qunit q) u then ret q else raise UnitConversionError.

Definition same_unit_add (a b : Quantity) : result Quantity :=
  if String.eqb (qunit a) (qunit b)
  then ret (mkQuantity (value a + value b)%Q (qunit a))
  else raise UnitConversionError.

Definition store_as_given (extra : list extra_coord) (flags : list bool)
           (shape : list Z) : result extra_coords_wcs_axis_t :=
  ret (map (fun '(name, axis, values) => (name, (axis, values))) extra).

Definition slice_extents (self : NDCube) (slic : list slice) : result NDCube :=
  ret (mkNDCube (map (fun s => Z.max 0 (stop s - start s)) slic)
                (wcs self) (missing_axis self) (_extra_coords_wcs_axis self)).

Definition plain_collab : Collaborators :=
  {| to := same_unit_to;
     quantity_add := same_unit_add;
     format_extra_coords := store_as_given;
     cube_getitem := slice_extents |}.

(** A solver that returns its arguments. *)
Definition identity_solver (args : list Q) (origin : Z) : result (list Q) :=
  ret args.

(** Two WCS axes (longitude, wavelength) with reference pixels 5 and 7 and
    reference values 10 and 20. *)
Definition wcs_lon_wave : WCS :=
  mkWCS 2 [5#1; 7#1]%Q [10#1; 20#1]%Q ["deg"; "nm"]%string
        ["HPLN-TAN"; "WAVE"]%string identity_solver identity_solver.

(** A one-dimensional cube along wavelength; longitude is missing. *)
Definition cube_wave : NDCube :=
  mkNDCube [4] wcs_lon_wave [true; false] None.

(** One WCS axis, one data axis. *)
Definition wcs_wave : WCS :=
  mkWCS 1 [1#1]%Q [0#1]%Q ["nm"]%string ["WAVE"]%string
        identity_solver identity_solver.

Definition cube_line : NDCube := mkNDCube [8] wcs_wave [false] None.

(** Two WCS axes (longitude, latitude), both in degrees, and an image on
    them: no axis is missing. *)
Definition wcs_lon_lat : WCS :=
  mkWCS 2 [5#1; 7#1]%Q [10#1; 20#1]%Q ["deg"; "deg"]%string
        ["HPLN-TAN"; "HPLT-TAN"]%string identity_solver identity_solver.

Definition cube_image : NDCube := mkNDCube [4; 6] wcs_lon_lat [false; false] None.

Definition nm (x : Q) : Quantity := mkQuantity x "nm"%string.
Definition deg (x : Q) : Quantity := mkQuantity x "deg"%string.
Definition px (x : Q) : Quantity := mkQuantity x pix.

(** A collection member whose [dimensions] is a quantity array. *)
Definition cube_of_shape (shape : list Z) : collection.member :=
  collection.mkMember (collection.DimsQuantity shape).

(** Three members of rank 3 whose last extents are [10, 10, 10], and the
    same with [10, 10, 11]. *)
Definition three_cubes : list collection.member :=
  [cube_of_shape [3; 4; 10]; cube_of_shape [5; 6; 10]; cube_of_shape [7; 8; 10]].

Definition three_cubes_uneven : list collection.member :=
  [cube_of_shape [3; 4; 10]; cube_of_shape [5; 6; 10]; cube_of_shape [7; 8; 11]].

(** Two members of rank 4 aligned on all four axes, the second with its
    axes pairwise swapped. *)
Definition two_aligned : list (string * list Z) :=
  [("a"%string, [0; 1; 2; 3]); ("b"%string, [1; 0; 3; 2])].

(* ===================================================================== *)
(** * Vocabulary for the further properties                               *)
(* ===================================================================== *)

(** The axis types [dimensions] reports: the [ctype] of the non-missing WCS
    axes, in data order. *)
Definition axis_types_in_data_order (self : NDCube) : list string :=
  map (fun w => nth (Z.to_nat w) (ctype (wcs self)) EmptyString)
      (wcs_axes_in_data_order (missing_axis self)).

(** [backward] undoes [forward] on full argument vectors. *)
Definition undoes (forward backward : list Q -> Z -> result (list Q)) (n : nat)
  : Prop :=
  forall args origin, length args = n ->
    exists out, forward args origin = inr out /\ length out = n /\
                backward out origin = inr args.

(** A member and its tuple agree with the extents [extents0] recorded for
    the first member: the tuple has [k] axes, the member has room for [k]
    axes, and the axis at each position has the extent recorded there. *)
Definition agrees_with_first (k : nat) (extents0 : list Z)
           (cube : collection.member) (t : list Z) : Prop :=
  length t = k /\
  (exists shape, collection.shape_of cube = Some shape /\
                 Z.of_nat k <= len shape) /\
  forall j axis, nth_error t j = Some axis ->
    exists e, collection.dims_getitem (collection.dimensions cube) axis = inr e /\
              nth_error extents0 j = Some e.

(* ===================================================================== *)
(** * mixins/sequence_plotting.py: the units of a sequence                *)
(* ===================================================================== *)

Module sequence_plotting.

(** What the helpers read of a cube of the sequence: its [unit]
    attribute, [None] when it is not set. *)
Record cube_t : Type := mkCube { cube_unit : option Unit }.

Definition unit_not_set_message (i : Z) : string :=
  collection.decimal i ++ "th cube in sequence does not have unit set.".

(** [_get_all_cube_units(sequence_data)] *)
Definition _get_all_cube_units (sequence_data : list cube_t)
  : result (list Unit) :=
  for_each (combine (range (length sequence_data)) sequence_data)
    (fun sequence_units '(i, cube) =>
       match cube_unit cube with
       | None => raise (ValueError (unit_not_set_message i))
       | Some u => ret (sequence_units ++ [u])
       end)
    [].

(** [_determine_sequence_units(cubesequence_data, unit=None)]: the
    [ValueError] of [_get_all_cube_units] is caught and turned into
    [None]; [sequence_units[0]] raises [IndexError] on an empty array. *)
Definition _determine_sequence_units (cubesequence_data : list cube_t)
           (unit : option Unit)
  : result (option (list Unit) * option Unit) :=
  sequence_units <-
    match _get_all_cube_units cubesequence_data with
    | inr units => ret (Some units)
    | inl (ValueError _) => ret None
    | inl e => raise e
    end ;;
  match sequence_units with
  | Some units =>
      match unit with
      | None => unit0 <- getitem units 0 ;; ret (Some units, Some unit0)
      | Some _ => ret (Some units, unit)
      end
  | None => ret (None, None)
  end.

End sequence_plotting.

(* ===================================================================== *)
(** * mixins/plotting.py: the keywords of the old plot API                *)
(* ===================================================================== *)

Module plotting.

(** The values the plot keywords carry, as far as
    [_support_101_plot_API] tells them apart: [None], a list or tuple
    (which has a length), an object without [len] (an int, a float, a
    unit), given by the name of its type and its printed form. *)
#[warnings="-register-all"] Inductive pyobj : Type :=
| PyNone
| PySeq (items : list pyobj)
| PyAtom (type_name : string) (repr : string).

Definition is_None (v : pyobj) : bool :=
  match v with PyNone => true | _ => false end.

Definition no_len_message (type_name : string) : string :=
  "object of type '" ++ type_name ++ "' has no len()".

(** [len(v)] *)
Definition py_len (v : pyobj) : result Z :=
  match v with
  | PyNone => raise (TypeError (no_len_message "NoneType"))
  | PySeq items => ret (len items)
  | PyAtom type_name _ => raise (TypeError (no_len_message type_name))
  end.

(** [**kwargs]: a dict from keyword to value, in insertion order. *)
Definition kwargs_t : Type := list (string * pyobj).

(** [kwargs.pop(key, None)]: the value found, and the dict without the
    key. *)
Fixpoint pop (kwargs : kwargs_t) (key : string) : pyobj * kwargs_t :=
  match kwargs with
  | [] => (PyNone, [])
  | (k, v) :: rest =>
      if String.eqb k key then (v, rest)
      else let '(x, rest') := pop rest key in (x, (k, v) :: rest')
  end.

(** A computation that issues warnings and then returns or raises:
    the messages passed to [warn], in order, and the outcome. *)
Definition logged (A : Type) : Type := (list string * result A)%type.

Definition retL {A} (a : A) : logged A := ([], inr a).
Definition raiseL {A} (e : exn) : logged A := ([], inl e).
Definition warn (msg : string) : logged unit := ([msg], inr tt).

Definition bindL {A B} (c : logged A) (k : A -> logged B) : logged B :=
  match c with
  | (w, inl e) => (w, inl e)
  | (w, inr a) => let '(w', r) := k a in (w ++ w', r)
  end.

Declare Scope log_scope.
Delimit Scope log_scope with log.
Notation "x <- c ;; k" := (bindL c (fun x => k))
  (at level 61, c at next level, right associativity) : log_scope.

Definition conflict_message (old_name new_name : string) : string :=
  "Conflicting inputs: " ++ old_name ++ " (old API) cannot be set if " ++
  new_name ++ " (new API) is set".

Definition deprecation_message (old_name new_name : string) : string :=
  old_name ++
  " is deprecated and will not be supported in version 2.0.  " ++
  "It will be replaced by " ++ new_name ++ ".  See docstring.".

Definition image_axes_length_message : string :=
  "Length of image_axes must be less than 3.".

(** [_raise_API_error(old_name, new_name)] *)
Definition _raise_API_error {A} (old_name new_name : string) : logged A :=
  raiseL (ValueError (conflict_message old_name new_name)).

(** [_raise_101_API_deprecation_warning(old_name, new_name)] *)
Definition _raise_101_API_deprecation_warning (old_name new_name : string)
  : logged unit :=
  warn (deprecation_message old_name new_name).

(** [_support_101_plot_API(plot_axis_indices, axes_coordinates,
    axes_units, data_unit, kwargs)] *)
Definition _support_101_plot_API
           (plot_axis_indices axes_coordinates axes_units data_unit : pyobj)
           (kwargs : kwargs_t)
  : logged (pyobj * pyobj * pyobj * pyobj * kwargs_t) :=
  (* Get old API variable values. *)
  let '(image_axes, kwargs) := pop kwargs "image_axes" in
  let '(axis_ranges, kwargs) := pop kwargs "axis_ranges" in
  let '(unit_x_axis, kwargs) := pop kwargs "unit_x_axis" in
  let '(unit_y_axis, kwargs) := pop kwargs "unit_y_axis" in
  let '(unit, kwargs) := pop kwargs "unit" in
  (* Check if conflicting new and old API values have been set.
     If not, set new API using old API and raise deprecation warning. *)
  (plot_axis_indices <-
     (if negb (is_None image_axes) then
        _ <- _raise_101_API_deprecation_warning
               "image_axes" "plot_axis_indices" ;;
        if is_None plot_axis_indices then retL image_axes
        else _raise_API_error "image_axes" "plot_axis_indices"
      else retL plot_axis_indices) ;;
   axes_coordinates <-
     (if negb (is_None axis_ranges) then
        _ <- _raise_101_API_deprecation_warning
               "axis_ranges" "axes_coordinates" ;;
        if is_None axes_coordinates then retL axis_ranges
        else _raise_API_error "axis_ranges" "axes_coordinates"
      else retL axes_coordinates) ;;
   _ <- (if (negb (is_None unit_x_axis) || negb (is_None unit_y_axis))
            && negb (is_None axes_units)
         then _raise_API_error "unit_x_axis and/or unit_y_axis" "axes_units"
         else retL tt) ;;
   axes_units <-
     (if is_None axes_units then
        if negb (is_None unit_x_axis) then
          _ <- _raise_101_API_deprecation_warning
                 "unit_x_axis and unit_y_axis" "axes_units" ;;
          n <- (([], py_len plot_axis_indices) : logged Z) ;;
          if n =? 1 then retL unit_x_axis
          else if n =? 2 then
            if is_None unit_y_axis then retL (PySeq [unit_x_axis; PyNone])
            else retL (PySeq [unit_x_axis; unit_y_axis])
          else raiseL (ValueError image_axes_length_message)
        else if negb (is_None unit_y_axis) then
          _ <- _raise_101_API_deprecation_warning
                 "unit_x_axis and unit_y_axis" "axes_units" ;;
          retL (PySeq [PyNone; unit_y_axis])
        else retL axes_units
      else retL axes_units) ;;
   data_unit <-
     (if negb (is_None unit) then
        _ <- _raise_101_API_deprecation_warning "unit" "data_unit" ;;
        if is_None data_unit then retL unit
        else _raise_API_error "unit" "data_unit"
      else retL data_unit) ;;
   (* Return values of new API *)
   retL (plot_axis_indices, axes_coordinates, axes_units, data_unit, kwargs)
  )%log.

(** ** Vocabulary for the statements about the old keywords *)

(** The value a keyword has in [kwargs], [None] when it is not there. *)
Definition keyword (kwargs : kwargs_t) (key : string) : pyobj :=
  fst (pop kwargs key).

(** The keywords of the old API. *)
Definition old_keywords : list string :=
  ["image_axes"; "axis_ranges"; "unit_x_axis"; "unit_y_axis"; "unit"]%string.

Definition is_old_keyword (key : string) : bool :=
  existsb (String.eqb key) old_keywords.

End plotting.

(** Keywords of a call in the old style, [image_axes=[0, 1]] and
    [unit_x_axis=u.nm], beside one that is passed on to matplotlib. *)
Definition axis_0 : plotting.pyobj := plotting.PyAtom "int" "0".
Definition axis_1 : plotting.pyobj := plotting.PyAtom "int" "1".
Definition unit_nm : plotting.pyobj := plotting.PyAtom "Unit" "nm".
Definition unit_DN : plotting.pyobj := plotting.PyAtom "Unit" "DN".
Definition half : plotting.pyobj := plotting.PyAtom "float" "0.5".

Definition old_style_kwargs : plotting.kwargs_t :=
  [("image_axes"%string, plotting.PySeq [axis_0; axis_1]);
   ("alpha"%string, half);
   ("unit_x_axis"%string, unit_nm)].

(** Two data axes on the two WCS axes of [wcs_lon_wave], of which the
    first is flagged missing: what the constructor returns for that
    input. *)
Definition cube_flagged_image : NDCube :=
  mkNDCube [4; 4] wcs_lon_wave [true; false] None.

(* ===================================================================== *)
(** * Properties                                                          *)
(* ===================================================================== *)

(* ===================================================================== *)
(** * Facts about the run-time                                            *)
(* ===================================================================== *)

Section py_facts.

Context {S A B : Type}.

Lemma bind_inr (c : result A) (k : A -> result B) (b : B) :
  bind c k = inr b -> exists a, c = inr a /\ k a = inr b.
Proof.
  destruct c as [e | a]; simpl; intros H; [discriminate | eauto].
Qed.

Lemma for_each_app (l1 l2 : list A) (body : S -> A -> result S) (s : S) :
  for_each (l1 ++ l2) body s = bind (for_each l1 body s) (for_each l2 body).
Proof.
  revert s; induction l1 as [| x l1 IH]; intros s; simpl; [reflexivity |].
  destruct (body s x) as [e | s1]; simpl; [reflexivity | apply IH].
Qed.

Lemma for_each_map (f : B -> A) (l : list B) (body : S -> A -> result S) (s : S) :
  for_each (map f l) body s = for_each l (fun s x => body s (f x)) s.
Proof.
  revert s; induction l as [| x l IH]; intros s; simpl; [reflexivity |].
  destruct (body s (f x)) as [e | s1]; simpl; [reflexivity | apply IH].
Qed.

Lemma for_each_ext (l : list A) (body1 body2 : S -> A -> result S) (s : S) :
  (forall s x, In x l -> body1 s x = body2 s x) ->
  for_each l body1 s = for_each l body2 s.
Proof.
  revert s; induction l as [| x l IH]; intros s H; simpl; [reflexivity |].
  rewrite (H s x (or_introl eq_refl)).
  destruct (body2 s x) as [e | s1]; simpl; [reflexivity |].
  apply IH; intros; apply H; right; assumption.
Qed.

Lemma getitem_nonneg (l : list A) (i : Z) :
  0 <= i ->
  getitem l i = match nth_error l (Z.to_nat i) with
                | Some a => inr a
                | None => inl IndexError
                end.
Proof.
  intros Hi; unfold getitem.
  destruct (i <? 0) eqn:E; [apply Z.ltb_lt in E; lia |].
  rewrite E; reflexivity.
Qed.

Lemma getitem_inr_nonneg (l : list A) (i : Z) (a : A) :
  0 <= i -> getitem l i = inr a -> i < len l.
Proof.
  intros Hi H; rewrite getitem_nonneg in H by assumption.
  destruct (nth_error l (Z.to_nat i)) eqn:E; [| discriminate].
  assert (Z.to_nat i < length l)%nat by (apply nth_error_Some; congruence).
  unfold len; lia.
Qed.

Lemma getitem_inl (l : list A) (i : Z) (e : exn) :
  getitem l i = inl e -> e = IndexError.
Proof.
  unfold getitem; destruct (_ <? 0); [intros H; injection H as <-; reflexivity |].
  destruct (nth_error l _); [discriminate | intros H; injection H as <-; reflexivity].
Qed.

Lemma getitem_inr_In (l : list A) (i : Z) (a : A) :
  getitem l i = inr a -> In a l.
Proof.
  unfold getitem; destruct (_ <? 0); [discriminate |].
  destruct (nth_error l _) eqn:E; [| discriminate].
  intros H; injection H as <-; eapply nth_error_In; eassumption.
Qed.

Lemma getitem_app_l (l l' : list A) (i : Z) :
  0 <= i < len l -> getitem (l ++ l') i = getitem l i.
Proof.
  intros [H0 H1]; rewrite !getitem_nonneg by assumption.
  rewrite nth_error_app1; [reflexivity | unfold len in H1; lia].
Qed.

Lemma getitem_in_range (l : list A) (i : Z) :
  0 <= i < len l -> exists a, getitem l i = inr a /\ nth_error l (Z.to_nat i) = Some a.
Proof.
  intros [H0 H1]; rewrite getitem_nonneg by assumption.
  destruct (nth_error l (Z.to_nat i)) eqn:E; [eauto |].
  apply nth_error_None in E; unfold len in H1; lia.
Qed.

End py_facts.

Lemma range_S (n : nat) : range (S n) = range n ++ [Z.of_nat n].
Proof.
  unfold range; rewrite seq_S, map_app; reflexivity.
Qed.

Lemma range_length (n : nat) : length (range n) = n.
Proof.
  unfold range; rewrite length_map, length_seq; reflexivity.
Qed.

Lemma in_range (n : nat) (i : Z) : In i (range n) <-> 0 <= i < Z.of_nat n.
Proof.
  unfold range; rewrite in_map_iff; split.
  - intros (k & <- & Hk); apply in_seq in Hk; lia.
  - intros H; exists (Z.to_nat i); split; [lia | apply in_seq; lia].
Qed.

Lemma nth_error_range (n k : nat) :
  (k < n)%nat -> nth_error (range n) k = Some (Z.of_nat k).
Proof.
  intros H; unfold range; rewrite nth_error_map, nth_error_seq.
  destruct (Nat.ltb_spec k n); [reflexivity | lia].
Qed.

(** Counting down from [n - 1] visits the indices in reverse. *)
Lemma countdown_rev (n : nat) :
  map (fun i => Z.of_nat n - 1 - i) (range n) = rev (range n).
Proof.
  induction n as [| n IH]; [reflexivity |].
  rewrite range_S at 2; rewrite rev_app_distr; cbn [rev app].
  unfold range at 1; cbn [seq map].
  f_equal; [lia |].
  rewrite <- IH, <- seq_shift, map_map; unfold range; rewrite !map_map.
  apply map_ext; intros k; lia.
Qed.

(* ===================================================================== *)
(** * The argument-building loop                                          *)
(* ===================================================================== *)

Section visit_facts.

Variables (flags : list bool) (anchor : Z -> result Q)
          (convert : Quantity -> Z -> result Q).

Lemma visit_inr qal st w st1 :
  visit flags qal anchor convert st w = inr st1 ->
  exists a,
    st1 = mkLoop (list_arg st ++ [a])
                 (indexed_not_as_one st ++ (if present flags w then [w] else []))
                 (quantity_index st + (if present flags w then 1 else 0)) /\
    ((getitem flags w = inr true /\ anchor w = inr a) \/
     (getitem flags w = inr false /\
      exists q, getitem qal (quantity_index st) = inr q /\ convert q w = inr a)).
Proof.
  unfold visit, present; intros H.
  destruct (getitem flags w) as [e | [|]]; simpl in H; [discriminate | |].
  - destruct (anchor w) as [e | a]; simpl in H; [discriminate |].
    injection H as <-; exists a; rewrite app_nil_r, Z.add_0_r; auto.
  - destruct (getitem qal (quantity_index st)) as [e | q]; simpl in H; [discriminate |].
    destruct (convert q w) as [e | a] eqn:E; simpl in H; [discriminate |].
    injection H as <-; exists a; split; [reflexivity | right; eauto].
Qed.

(** What a completed loop leaves in its three locals. *)
Lemma loop_shape qal ws : forall st st',
  for_each ws (visit flags qal anchor convert) st = inr st' ->
  indexed_not_as_one st' = indexed_not_as_one st ++ filter (present flags) ws /\
  quantity_index st' = quantity_index st + len (filter (present flags) ws) /\
  exists L, list_arg st' = list_arg st ++ L /\ length L = length ws.
Proof.
  induction ws as [| w ws IH]; intros st st' H; simpl in H.
  - injection H as <-; rewrite app_nil_r; repeat split; [unfold len; simpl; lia |].
    exists []; rewrite app_nil_r; auto.
  - apply bind_inr in H as (st1 & H1 & H2).
    apply visit_inr in H1 as (a & -> & _).
    apply IH in H2 as (Hi & Hq & L & HL & Hlen); simpl in *.
    rewrite Hi, Hq, HL; destruct (present flags w); simpl;
      rewrite <- !app_assoc; simpl; repeat split;
      try (unfold len; simpl length; lia);
      try (rewrite app_nil_r; reflexivity);
      exists (a :: L); simpl; auto.
Qed.

(** The entry appended at step [k]. *)
Lemma loop_entry qal ws : forall st st' k w,
  for_each ws (visit flags qal anchor convert) st = inr st' ->
  nth_error ws k = Some w ->
  exists a,
    nth_error (list_arg st') (length (list_arg st) + k) = Some a /\
    ((getitem flags w = inr true /\ anchor w = inr a) \/
     (getitem flags w = inr false /\
      exists q,
        getitem qal (quantity_index st + len (filter (present flags) (firstn k ws)))
          = inr q /\
        convert q w = inr a)).
Proof.
  induction ws as [| w0 ws IH]; intros st st' k w H Hk.
  - destruct k; discriminate.
  - simpl in H; apply bind_inr in H as (st1 & H1 & H2).
    apply visit_inr in H1 as (a & -> & Hcase).
    destruct k as [| k]; simpl in Hk.
    + injection Hk as ->.
      apply loop_shape in H2 as (_ & _ & L & HL & _); simpl in HL.
      exists a; split.
      * rewrite HL, <- app_assoc, nth_error_app2 by lia.
        replace (length (list_arg st) + 0 - length (list_arg st))%nat with 0%nat by lia.
        reflexivity.
      * simpl; unfold len; simpl; rewrite Z.add_0_r; exact Hcase.
    + destruct (IH _ _ _ _ H2 Hk) as (b & Hb & Hcase'); simpl in Hb, Hcase'.
      exists b; split.
      * rewrite length_app in Hb; simpl in Hb.
        replace (length (list_arg st) + S k)%nat
          with (length (list_arg st) + 1 + k)%nat by lia; exact Hb.
      * destruct Hcase' as [? | (Hf & q & Hq & Hc)]; [left; assumption | right].
        split; [assumption |]; exists q; split; [| assumption].
        rewrite <- Hq; f_equal; simpl.
        destruct (present flags w0); unfold len; simpl length; lia.
Qed.

(** Entries past those the loop reads do not matter. *)
Lemma loop_ignores_excess qal extra ws : forall st,
  0 <= quantity_index st ->
  quantity_index st + len (filter (present flags) ws) <= len qal ->
  for_each ws (visit flags (qal ++ extra) anchor convert) st =
  for_each ws (visit flags qal anchor convert) st.
Proof.
  induction ws as [| w ws IH]; intros st H0 Hle; simpl; [reflexivity |].
  assert (Hstep : visit flags (qal ++ extra) anchor convert st w =
                  visit flags qal anchor convert st w).
  { unfold visit; simpl in Hle; unfold present in Hle.
    destruct (getitem flags w) as [e | [|]]; simpl; [reflexivity | reflexivity |].
    rewrite getitem_app_l; [reflexivity |].
    unfold len in *; simpl length in Hle; lia. }
  rewrite Hstep.
  destruct (visit flags qal anchor convert st w) as [e | st1] eqn:E; simpl;
    [reflexivity |].
  apply visit_inr in E as (a & -> & _); apply IH; simpl in *.
  - destruct (present flags w); lia.
  - destruct (present flags w); unfold len in *; simpl length in Hle; lia.
Qed.

(** A completed loop has found every entry it asked for. *)
Lemma loop_reads_within qal ws : forall st st',
  0 <= quantity_index st <= len qal ->
  for_each ws (visit flags qal anchor convert) st = inr st' ->
  quantity_index st' <= len qal.
Proof.
  induction ws as [| w ws IH]; intros st st' Hq H; simpl in H.
  - injection H as <-; lia.
  - apply bind_inr in H as (st1 & H1 & H2).
    apply visit_inr in H1 as (a & -> & Hcase).
    apply IH in H2; [assumption |]; simpl.
    unfold present; destruct Hcase as [(-> & _) | (-> & q & Hg & _)]; [lia |].
    apply getitem_inr_nonneg in Hg; lia.
Qed.

(** The loop completes when every lookup and conversion it makes does. *)
Lemma loop_completes qal ws : forall st,
  0 <= quantity_index st ->
  quantity_index st + len (filter (present flags) ws) <= len qal ->
  (forall w, In w ws -> exists b, getitem flags w = inr b) ->
  (forall w, In w ws -> getitem flags w = inr true -> exists a, anchor w = inr a) ->
  (forall k w q,
      nth_error ws k = Some w -> getitem flags w = inr false ->
      getitem qal (quantity_index st + len (filter (present flags) (firstn k ws)))
        = inr q ->
      exists v, convert q w = inr v) ->
  exists st', for_each ws (visit flags qal anchor convert) st = inr st'.
Proof.
  induction ws as [| w ws IH]; intros st H0 Hle Hf Ha Hc; simpl; [eexists; reflexivity |].
  assert (Hstep : exists st1, visit flags qal anchor convert st w = inr st1).
  { unfold visit; simpl in Hle; unfold present in Hle.
    destruct (Hf w (or_introl eq_refl)) as (b & Hb); rewrite Hb in *; simpl.
    destruct b.
    - destruct (Ha w (or_introl eq_refl) Hb) as (a & ->); simpl; eauto.
    - destruct (getitem_in_range qal (quantity_index st)) as (q & Hq & _);
        [unfold len in *; simpl length in Hle; lia |].
      rewrite Hq; simpl.
      destruct (Hc 0%nat w q eq_refl Hb) as (v & ->).
      + simpl; unfold len; simpl; rewrite Z.add_0_r; exact Hq.
      + simpl; eauto. }
  destruct Hstep as (st1 & E); rewrite E; simpl.
  apply visit_inr in E as (a & -> & _); apply IH; simpl in *.
  - destruct (present flags w); lia.
  - destruct (present flags w); unfold len in *; simpl length in Hle; lia.
  - intros; apply Hf; auto.
  - intros; apply Ha; auto.
  - intros k w' q Hk Hw' Hq; apply (Hc (S k) w' q Hk Hw').
    rewrite <- Hq; f_equal; simpl.
    destruct (present flags w); unfold len; simpl length; lia.
Qed.

(** When the flags, the anchors and the conversions are all there, the
    only thing the loop can miss is an input entry. *)
Lemma loop_raises_index_error qal ws : forall st e,
  (forall w, In w ws -> exists b, getitem flags w = inr b) ->
  (forall w, In w ws -> getitem flags w = inr true -> exists a, anchor w = inr a) ->
  (forall w q, In w ws -> In q qal -> getitem flags w = inr false ->
               exists v, convert q w = inr v) ->
  for_each ws (visit flags qal anchor convert) st = inl e ->
  e = IndexError.
Proof.
  induction ws as [| w ws IH]; intros st e Hf Ha Hc H; simpl in H; [discriminate |].
  destruct (visit flags qal anchor convert st w) as [e' | st1] eqn:E; simpl in H.
  - injection H as <-; unfold visit in E.
    destruct (Hf w (or_introl eq_refl)) as (b & Hb); rewrite Hb in E; simpl in E.
    destruct b.
    + destruct (Ha w (or_introl eq_refl) Hb) as (a & Ha'); rewrite Ha' in E.
      discriminate.
    + destruct (getitem qal (quantity_index st)) as [e0 | q] eqn:Eq; simpl in E.
      * injection E as <-; eapply getitem_inl; eassumption.
      * destruct (Hc w q (or_introl eq_refl) (getitem_inr_In _ _ _ Eq) Hb)
          as (v & Hv); rewrite Hv in E; discriminate.
  - eapply IH; [| | | exact H].
    + intros; apply Hf; right; assumption.
    + intros; apply Ha; [right |]; assumption.
    + intros; eapply Hc; [right | |]; eassumption.
Qed.

End visit_facts.

Section list_facts.

Context {A B : Type}.

Lemma filter_position (f : A -> bool) (l : list A) : forall k x,
  nth_error l k = Some x -> f x = true ->
  nth_error (filter f l) (length (filter f (firstn k l))) = Some x.
Proof.
  induction l as [| y l IH]; intros k x Hk Hf; [destruct k; discriminate |].
  destruct k as [| k]; simpl in Hk.
  - injection Hk as ->; simpl; rewrite Hf; reflexivity.
  - simpl; destruct (f y); simpl; apply IH; assumption.
Qed.

Lemma Forall2_at (P : A -> B -> Prop) (l1 : list A) (l2 : list B) :
  Forall2 P l1 l2 ->
  forall j a b, nth_error l1 j = Some a -> nth_error l2 j = Some b -> P a b.
Proof.
  induction 1 as [| x y l1 l2 Hxy _ IH]; intros j a b Ha Hb.
  - destruct j; discriminate.
  - destruct j as [| j]; simpl in Ha, Hb.
    + injection Ha as <-; injection Hb as <-; assumption.
    + eapply IH; eassumption.
Qed.

(** Appending the value computed for each element, one by one. *)
Lemma for_each_collect (f : A -> result B) (l : list A) : forall acc,
  for_each l (fun acc x => y <- f x ;; ret (acc ++ [y])) acc =
  (ys <- comprehension f l ;; ret (acc ++ ys)).
Proof.
  induction l as [| x l IH]; intros acc; simpl.
  - rewrite app_nil_r; reflexivity.
  - destruct (f x) as [e | y]; simpl; [reflexivity |].
    rewrite IH; destruct (comprehension f l) as [e | ys]; simpl; [reflexivity |].
    rewrite <- app_assoc; reflexivity.
Qed.

Lemma comprehension_map (f : A -> result B) (g : A -> B) (l : list A) :
  (forall x, In x l -> f x = inr (g x)) ->
  comprehension f l = inr (map g l).
Proof.
  induction l as [| x l IH]; intros H; simpl; [reflexivity |].
  rewrite (H x (or_introl eq_refl)); simpl.
  rewrite IH by (intros; apply H; right; assumption); reflexivity.
Qed.

Lemma comprehension_inr (f : A -> result B) (l : list A) : forall ys,
  comprehension f l = inr ys ->
  length ys = length l /\
  forall i x, nth_error l i = Some x ->
              exists y, nth_error ys i = Some y /\ f x = inr y.
Proof.
  induction l as [| x l IH]; intros ys H; simpl in H.
  - injection H as <-; split; [reflexivity | intros [|] ? ?; discriminate].
  - apply bind_inr in H as (y & Hy & H).
    apply bind_inr in H as (ys' & Hys & H); injection H as <-.
    destruct (IH _ Hys) as (Hlen & Hnth); split; [simpl; congruence |].
    intros [| i] x' Hx; simpl in Hx.
    + injection Hx as <-; exists y; auto.
    + apply Hnth; assumption.
Qed.

End list_facts.

Lemma getitem_nth {A} (l : list A) (i : Z) (d : A) :
  0 <= i < len l -> getitem l i = inr (nth (Z.to_nat i) l d).
Proof.
  intros H; destruct (getitem_in_range l i H) as (a & -> & Hn).
  rewrite (nth_error_nth _ _ d Hn); reflexivity.
Qed.

(* ===================================================================== *)
(** * pixel_to_world and world_to_pixel                                   *)
(* ===================================================================== *)

Lemma present_nth_error (flags : list bool) (w : Z) :
  0 <= w ->
  present flags w = match nth_error flags (Z.to_nat w) with
                    | Some false => true
                    | _ => false
                    end.
Proof.
  intros H; unfold present; rewrite getitem_nonneg by assumption.
  destruct (nth_error flags (Z.to_nat w)) as [[|] |]; reflexivity.
Qed.

Lemma visited_present (flags : list bool) :
  filter (present flags) (rev (range (length flags))) =
  wcs_axes_in_data_order flags.
Proof.
  rewrite filter_rev; unfold wcs_axes_in_data_order, non_missing_wcs_axes.
  f_equal; apply filter_ext_in; intros w Hw; apply in_range in Hw.
  apply present_nth_error; lia.
Qed.

Lemma non_missing_wcs_axes_snoc (flags : list bool) (b : bool) :
  non_missing_wcs_axes (flags ++ [b]) =
  non_missing_wcs_axes flags ++ (if b then [] else [len flags]).
Proof.
  unfold non_missing_wcs_axes.
  rewrite length_app, Nat.add_1_r, range_S, filter_app; f_equal.
  - apply filter_ext_in; intros w Hw; apply in_range in Hw.
    rewrite nth_error_app1 by lia; reflexivity.
  - simpl; rewrite Nat2Z.id, nth_error_app2, Nat.sub_diag by lia; simpl.
    destruct b; reflexivity.
Qed.

(** The counting loop of the constructor counts the non-missing axes. *)
Lemma count_non_missing_len (flags : list bool) :
  count_non_missing flags = len (non_missing_wcs_axes flags).
Proof.
  unfold count_non_missing.
  induction flags as [| b flags IH] using rev_ind; [reflexivity |].
  rewrite fold_left_app, non_missing_wcs_axes_snoc; simpl; rewrite IH.
  unfold len; rewrite length_app; destruct b; simpl; lia.
Qed.

Lemma count_non_missing_order (flags : list bool) :
  count_non_missing flags = len (wcs_axes_in_data_order flags).
Proof.
  rewrite count_non_missing_len; unfold wcs_axes_in_data_order, len.
  rewrite length_rev; reflexivity.
Qed.

Lemma in_order_range (flags : list bool) (w : Z) :
  In w (wcs_axes_in_data_order flags) -> 0 <= w < len flags.
Proof.
  unfold wcs_axes_in_data_order, non_missing_wcs_axes; rewrite <- in_rev.
  intros H; apply filter_In in H as (H & _); apply in_range in H; exact H.
Qed.

Section transforms.

Context {collab : Collaborators}.

Lemma pixel_to_world_step_visit self qal origin st i :
  pixel_to_world_step self qal origin st i =
  visit (missing_axis self) qal (pixel_anchor self origin) pixel_convert st
        (naxis (wcs self) - 1 - i).
Proof.
  unfold pixel_to_world_step, visit, pixel_anchor, pixel_convert.
  destruct (getitem (missing_axis self) _) as [e | [|]]; simpl; [reflexivity | |].
  - destruct (getitem (crpix _) _); reflexivity.
  - destruct (getitem qal _) as [e | q]; simpl; [reflexivity |].
    destruct (to q pix); reflexivity.
Qed.

Lemma world_to_pixel_step_visit self qal origin st i :
  world_to_pixel_step self qal origin st i =
  visit (missing_axis self) qal (world_anchor self origin) (world_convert self) st
        (naxis (wcs self) - 1 - i).
Proof.
  unfold world_to_pixel_step, visit, world_anchor, world_convert.
  destruct (getitem (missing_axis self) _) as [e | [|]]; simpl; [reflexivity | |].
  - destruct (getitem (crval _) _); reflexivity.
  - destruct (getitem qal _) as [e | q]; simpl; [reflexivity |].
    destruct (getitem (cunit _) _) as [e | un]; simpl; [reflexivity |].
    destruct (to q un); reflexivity.
Qed.

(** With [naxis] equal to the number of flags, both loops visit the WCS
    axes from the last to the first. *)
Lemma pixel_loop_visits self qal origin st :
  naxis (wcs self) = len (missing_axis self) ->
  for_each (range (length (missing_axis self)))
           (pixel_to_world_step self qal origin) st =
  for_each (rev (range (length (missing_axis self))))
           (visit (missing_axis self) qal (pixel_anchor self origin) pixel_convert) st.
Proof.
  intros H; rewrite <- countdown_rev, for_each_map.
  apply for_each_ext; intros s i _.
  rewrite pixel_to_world_step_visit, H; reflexivity.
Qed.

Lemma world_loop_visits self qal origin st :
  naxis (wcs self) = len (missing_axis self) ->
  for_each (range (length (missing_axis self)))
           (world_to_pixel_step self qal origin) st =
  for_each (rev (range (length (missing_axis self))))
           (visit (missing_axis self) qal (world_anchor self origin)
                  (world_convert self)) st.
Proof.
  intros H; rewrite <- countdown_rev, for_each_map.
  apply for_each_ext; intros s i _.
  rewrite world_to_pixel_step_visit, H; reflexivity.
Qed.

End transforms.

Lemma range_NoDup (n : nat) : NoDup (range n).
Proof.
  unfold range; apply NoDup_map_NoDup_ForallPairs; [| apply seq_NoDup].
  intros a b _ _ H; lia.
Qed.

Lemma nth_error_countdown (n : nat) (w : Z) :
  0 <= w < Z.of_nat n ->
  nth_error (rev (range n)) (n - 1 - Z.to_nat w) = Some w.
Proof.
  intros H; rewrite nth_error_rev, range_length.
  destruct (Nat.ltb_spec (n - 1 - Z.to_nat w) n); [| lia].
  replace (n - S (n - 1 - Z.to_nat w))%nat with (Z.to_nat w) by lia.
  rewrite nth_error_range by lia; f_equal; lia.
Qed.

Section visited_facts.

Variables (flags : list bool) (anchor : Z -> result Q)
          (convert : Quantity -> Z -> result Q).

(** The outcome of the loop when the WCS axes are visited last to first:
    the argument vector has one entry per WCS axis, in WCS order; a missing
    axis holds its anchor; the [j]-th non-missing axis in data order holds
    the converted [j]-th input. *)
Lemma visited_entries qal st' :
  for_each (rev (range (length flags))) (visit flags qal anchor convert) loop_init
    = inr st' ->
  length (rev (list_arg st')) = length flags /\
  indexed_not_as_one st' = wcs_axes_in_data_order flags /\
  quantity_index st' = count_non_missing flags /\
  (forall w, 0 <= w -> nth_error flags (Z.to_nat w) = Some true ->
     exists a, anchor w = inr a /\
               nth_error (rev (list_arg st')) (Z.to_nat w) = Some a) /\
  (forall j w, nth_error (wcs_axes_in_data_order flags) j = Some w ->
     exists q v, nth_error qal j = Some q /\ convert q w = inr v /\
                 nth_error (rev (list_arg st')) (Z.to_nat w) = Some v).
Proof.
  intros H.
  destruct (loop_shape _ _ _ _ _ _ _ H) as (Hi & Hq & L & HL & Hlen).
  simpl in Hi, Hq, HL; rewrite visited_present in Hi, Hq.
  rewrite length_rev, range_length in Hlen.
  assert (Hargs : forall w, 0 <= w < len flags ->
            nth_error (rev (list_arg st')) (Z.to_nat w) =
            nth_error (list_arg st') (length flags - 1 - Z.to_nat w)).
  { intros w Hw; unfold len in Hw; rewrite nth_error_rev, HL, Hlen.
    destruct (Nat.ltb_spec (Z.to_nat w) (length flags)); [| lia].
    f_equal; lia. }
  repeat split.
  - rewrite length_rev, HL; exact Hlen.
  - exact Hi.
  - rewrite Hq, count_non_missing_order; reflexivity.
  - intros w Hw Hflag.
    assert (Hr : 0 <= w < len flags).
    { assert (Z.to_nat w < length flags)%nat by (apply nth_error_Some; congruence).
      unfold len; lia. }
    destruct (loop_entry _ _ _ _ _ _ _ _ _ H (nth_error_countdown _ _ Hr))
      as (a & Ha & Hcase).
    assert (Hg : getitem flags w = inr true)
      by (rewrite getitem_nonneg, Hflag by lia; reflexivity).
    destruct Hcase as [(_ & Hanchor) | (Hf & _)]; [| congruence].
    exists a; split; [assumption |]; rewrite Hargs by assumption; exact Ha.
  - intros j w Hj.
    assert (Hr : 0 <= w < len flags)
      by (apply in_order_range; eapply nth_error_In; eassumption).
    pose proof (nth_error_countdown _ _ Hr) as Hk.
    destruct (loop_entry _ _ _ _ _ _ _ _ _ H Hk) as (a & Ha & Hcase).
    assert (Hp : present flags w = true).
    { apply nth_error_In in Hj; rewrite <- visited_present in Hj.
      apply filter_In in Hj; tauto. }
    pose proof (filter_position _ _ _ _ Hk Hp) as Hpos.
    rewrite visited_present in Hpos.
    assert (Hjk : length (filter (present flags)
                    (firstn (length flags - 1 - Z.to_nat w)
                            (rev (range (length flags))))) = j).
    { eapply NoDup_nth_error; [| | rewrite Hpos, Hj; reflexivity].
      - apply NoDup_rev, NoDup_filter, range_NoDup.
      - apply nth_error_Some; congruence. }
    destruct Hcase as [(Hf & _) | (_ & q & Hq' & Hc)].
    + unfold present in Hp; rewrite Hf in Hp; discriminate.
    + cbn [quantity_index loop_init] in Hq'.
      unfold len in Hq'; rewrite Z.add_0_l, Hjk in Hq'.
      rewrite getitem_nonneg, Nat2Z.id in Hq' by lia.
      destruct (nth_error qal j) as [q0 |] eqn:E; [| discriminate].
      injection Hq' as ->; exists q, a; repeat split; [assumption |].
      rewrite Hargs by assumption; exact Ha.
Qed.

(** The loop completes on an input that has an entry for every non-missing
    axis when the anchors exist and each entry converts for its axis. *)
Lemma visited_completes qal :
  count_non_missing flags <= len qal ->
  (forall w, 0 <= w -> nth_error flags (Z.to_nat w) = Some true ->
     exists a, anchor w = inr a) ->
  (forall j w q, nth_error (wcs_axes_in_data_order flags) j = Some w ->
     nth_error qal j = Some q -> exists v, convert q w = inr v) ->
  exists st',
    for_each (rev (range (length flags))) (visit flags qal anchor convert)
             loop_init = inr st'.
Proof.
  intros Hlen Ha Hc; apply loop_completes; cbn [quantity_index loop_init].
  - lia.
  - rewrite visited_present, <- count_non_missing_order; lia.
  - intros w Hw; apply in_rev, in_range in Hw.
    destruct (getitem_in_range flags w Hw) as (b & Hb & _); eauto.
  - intros w Hw Hf; apply in_rev, in_range in Hw.
    apply Ha; [lia |].
    rewrite getitem_nonneg in Hf by lia.
    destruct (nth_error flags (Z.to_nat w)); congruence.
  - intros k w q Hk Hf Hq.
    assert (Hp : present flags w = true) by (unfold present; rewrite Hf; reflexivity).
    pose proof (filter_position _ _ _ _ Hk Hp) as Hpos.
    rewrite visited_present in Hpos.
    apply (Hc _ _ _ Hpos).
    unfold len in Hq; rewrite Z.add_0_l in Hq.
    rewrite getitem_nonneg, Nat2Z.id in Hq by lia.
    destruct (nth_error qal _); congruence.
Qed.

End visited_facts.

Section transform_results.

Context {collab : Collaborators}.

(** The closing loop of [pixel_to_world] over in-range indices. *)
Lemma collect_world self (out : list Q) (l : list Z) : forall acc,
  (forall w, In w l -> 0 <= w < len out /\ w < len (cunit (wcs self))) ->
  for_each l
    (fun result_ index =>
       v <- getitem out index ;;
       un <- getitem (cunit (wcs self)) index ;;
       ret (result_ ++ [mkQuantity v un]))
    acc =
  inr (acc ++ map (fun w => mkQuantity (nth (Z.to_nat w) out 0%Q)
                     (nth (Z.to_nat w) (cunit (wcs self)) EmptyString)) l).
Proof.
  induction l as [| w l IH]; intros acc H; simpl.
  - rewrite app_nil_r; reflexivity.
  - destruct (H w (or_introl eq_refl)) as (Hw & Hu).
    rewrite (getitem_nth out w 0%Q) by assumption; simpl.
    rewrite (getitem_nth (cunit (wcs self)) w EmptyString) by lia; simpl.
    rewrite IH by (intros; apply H; right; assumption).
    rewrite <- app_assoc; reflexivity.
Qed.

(** The closing loop of [world_to_pixel] over in-range indices. *)
Lemma collect_pixel (out : list Q) (l : list Z) : forall acc,
  (forall w, In w l -> 0 <= w < len out) ->
  for_each l
    (fun result_ index =>
       v <- getitem out index ;;
       ret (result_ ++ [mkQuantity v pix]))
    acc =
  inr (acc ++ map (fun w => mkQuantity (nth (Z.to_nat w) out 0%Q) pix) l).
Proof.
  induction l as [| w l IH]; intros acc H; simpl.
  - rewrite app_nil_r; reflexivity.
  - rewrite (getitem_nth out w 0%Q) by (apply H; left; reflexivity); simpl.
    rewrite IH by (intros; apply H; right; assumption).
    rewrite <- app_assoc; reflexivity.
Qed.

Lemma pixel_to_world_runs self qal origin :
  consistent self ->
  answers (all_pix2world (wcs self)) (length (missing_axis self)) ->
  count_non_missing (missing_axis self) <= len qal ->
  (forall j q, (j < length (wcs_axes_in_data_order (missing_axis self)))%nat ->
     nth_error qal j = Some q -> exists q', to q pix = inr q') ->
  exists args out,
    pixel_to_world_arguments self qal origin =
      inr (args, wcs_axes_in_data_order (missing_axis self)) /\
    all_pix2world (wcs self) args origin = inr out /\
    pixel_to_world self qal origin = inr (world_quantities self out).
Proof.
  intros (Hn & Hpix & _ & Hunit) Hsolver Hlen Hconv.
  destruct (visited_completes (missing_axis self) (pixel_anchor self origin)
              pixel_convert qal Hlen) as (st' & Hloop).
  - intros w Hw Hf.
    assert (Z.to_nat w < length (missing_axis self))%nat
      by (apply nth_error_Some; congruence).
    unfold pixel_anchor.
    rewrite (getitem_nth (crpix (wcs self)) w 0%Q) by (unfold len; lia).
    simpl; eauto.
  - intros j w q Hj Hq.
    destruct (Hconv j q) as (q' & Hq'); [apply nth_error_Some; congruence | assumption |].
    unfold pixel_convert; rewrite Hq'; simpl; eauto.
  - destruct (visited_entries _ _ _ _ _ Hloop) as (Hargs & Hidx & _).
    destruct (Hsolver (rev (list_arg st')) origin Hargs) as (out & Hout & Hlout).
    exists (rev (list_arg st')), out.
    assert (Harg : pixel_to_world_arguments self qal origin =
                   inr (rev (list_arg st'),
                        wcs_axes_in_data_order (missing_axis self))).
    { unfold pixel_to_world_arguments.
      rewrite pixel_loop_visits, Hloop by assumption; simpl.
      rewrite Hidx; reflexivity. }
    repeat split; [assumption | assumption |].
    unfold pixel_to_world; rewrite Harg; simpl; rewrite Hout; simpl.
    rewrite collect_world; simpl.
    + unfold world_quantities; rewrite <- map_rev, rev_involutive; reflexivity.
    + intros w Hw; apply in_rev, in_order_range in Hw.
      unfold len in *; lia.
Qed.

Lemma world_to_pixel_runs self qal origin :
  consistent self ->
  answers (all_world2pix (wcs self)) (length (missing_axis self)) ->
  count_non_missing (missing_axis self) <= len qal ->
  (forall j w q, nth_error (wcs_axes_in_data_order (missing_axis self)) j = Some w ->
     nth_error qal j = Some q ->
     exists q', to q (nth (Z.to_nat w) (cunit (wcs self)) EmptyString) = inr q') ->
  exists args out,
    world_to_pixel_arguments self qal origin =
      inr (args, wcs_axes_in_data_order (missing_axis self)) /\
    all_world2pix (wcs self) args origin = inr out /\
    world_to_pixel self qal origin = inr (pixel_quantities self out).
Proof.
  intros (Hn & _ & Hval & Hunit) Hsolver Hlen Hconv.
  destruct (visited_completes (missing_axis self) (world_anchor self origin)
              (world_convert self) qal Hlen) as (st' & Hloop).
  - intros w Hw Hf.
    assert (Z.to_nat w < length (missing_axis self))%nat
      by (apply nth_error_Some; congruence).
    unfold world_anchor.
    rewrite (getitem_nth (crval (wcs self)) w 0%Q) by (unfold len; lia).
    simpl; eauto.
  - intros j w q Hj Hq.
    destruct (Hconv j w q Hj Hq) as (q' & Hq').
    assert (Hr : 0 <= w < len (missing_axis self))
      by (apply in_order_range; eapply nth_error_In; eassumption).
    unfold world_convert.
    rewrite (getitem_nth (cunit (wcs self)) w EmptyString) by (unfold len in *; lia).
    simpl; rewrite Hq'; simpl; eauto.
  - destruct (visited_entries _ _ _ _ _ Hloop) as (Hargs & Hidx & _).
    destruct (Hsolver (rev (list_arg st')) origin Hargs) as (out & Hout & Hlout).
    exists (rev (list_arg st')), out.
    assert (Harg : world_to_pixel_arguments self qal origin =
                   inr (rev (list_arg st'),
                        wcs_axes_in_data_order (missing_axis self))).
    { unfold world_to_pixel_arguments.
      rewrite world_loop_visits, Hloop by assumption; simpl.
      rewrite Hidx; reflexivity. }
    repeat split; [assumption | assumption |].
    unfold world_to_pixel; rewrite Harg; simpl; rewrite Hout; simpl.
    rewrite collect_pixel; simpl.
    + unfold pixel_quantities; rewrite <- map_rev, rev_involutive; reflexivity.
    + intros w Hw; apply in_rev, in_order_range in Hw.
      unfold len in *; lia.
Qed.

(** Entries beyond the number of non-missing axes are never read. *)
Lemma pixel_to_world_excess self qal extra origin :
  naxis (wcs self) = len (missing_axis self) ->
  count_non_missing (missing_axis self) <= len qal ->
  pixel_to_world self (qal ++ extra) origin = pixel_to_world self qal origin.
Proof.
  intros Hn Hlen; unfold pixel_to_world, pixel_to_world_arguments.
  rewrite !pixel_loop_visits by assumption.
  rewrite loop_ignores_excess; [reflexivity | simpl; lia |].
  rewrite visited_present, <- count_non_missing_order; simpl; lia.
Qed.

Lemma world_to_pixel_excess self qal extra origin :
  naxis (wcs self) = len (missing_axis self) ->
  count_non_missing (missing_axis self) <= len qal ->
  world_to_pixel self (qal ++ extra) origin = world_to_pixel self qal origin.
Proof.
  intros Hn Hlen; unfold world_to_pixel, world_to_pixel_arguments.
  rewrite !world_loop_visits by assumption.
  rewrite loop_ignores_excess; [reflexivity | simpl; lia |].
  rewrite visited_present, <- count_non_missing_order; simpl; lia.
Qed.

(** Nor do they change the argument vector handed to the solver. *)
Lemma pixel_to_world_arguments_excess self qal extra origin :
  naxis (wcs self) = len (missing_axis self) ->
  count_non_missing (missing_axis self) <= len qal ->
  pixel_to_world_arguments self (qal ++ extra) origin
    = pixel_to_world_arguments self qal origin.
Proof.
  intros Hn Hlen; unfold pixel_to_world_arguments.
  rewrite !pixel_loop_visits by assumption.
  rewrite loop_ignores_excess; [reflexivity | simpl; lia |].
  rewrite visited_present, <- count_non_missing_order; simpl; lia.
Qed.

Lemma world_to_pixel_arguments_excess self qal extra origin :
  naxis (wcs self) = len (missing_axis self) ->
  count_non_missing (missing_axis self) <= len qal ->
  world_to_pixel_arguments self (qal ++ extra) origin
    = world_to_pixel_arguments self qal origin.
Proof.
  intros Hn Hlen; unfold world_to_pixel_arguments.
  rewrite !world_loop_visits by assumption.
  rewrite loop_ignores_excess; [reflexivity | simpl; lia |].
  rewrite visited_present, <- count_non_missing_order; simpl; lia.
Qed.

(** A loop that completes has read [count_non_missing] entries. *)
Lemma visited_needs_entries flags anchor convert qal st' :
  for_each (rev (range (length flags))) (visit flags qal anchor convert) loop_init
    = inr st' ->
  count_non_missing flags <= len qal.
Proof.
  intros H.
  assert (Hle : quantity_index st' <= len qal).
  { eapply loop_reads_within; [| exact H]; simpl; unfold len; lia. }
  destruct (visited_entries _ _ _ _ _ H) as (_ & _ & Hq & _).
  rewrite <- Hq; exact Hle.
Qed.

End transform_results.

Section argument_vectors.

Context {collab : Collaborators}.

(** The argument vector handed to [all_pix2world]: a missing WCS axis holds
    [crpix - 1 + origin]; the [j]-th non-missing axis in data order holds
    the [j]-th input converted to pixels, so no input entry goes to a
    missing axis. *)
Lemma pixel_to_world_arguments_entries self qal origin args indexed :
  naxis (wcs self) = len (missing_axis self) ->
  pixel_to_world_arguments self qal origin = inr (args, indexed) ->
  length args = length (missing_axis self) /\
  indexed = wcs_axes_in_data_order (missing_axis self) /\
  (forall w, 0 <= w -> nth_error (missing_axis self) (Z.to_nat w) = Some true ->
     exists c, nth_error (crpix (wcs self)) (Z.to_nat w) = Some c /\
               nth_error args (Z.to_nat w) = Some (c - 1 + inject_Z origin)%Q) /\
  (forall j w, nth_error indexed j = Some w ->
     exists q q', nth_error qal j = Some q /\ to q pix = inr q' /\
                  nth_error args (Z.to_nat w) = Some (value q')).
Proof.
  intros Hn H; unfold pixel_to_world_arguments in H.
  rewrite pixel_loop_visits in H by assumption.
  apply bind_inr in H as (st' & Hloop & H); injection H as <- <-.
  destruct (visited_entries _ _ _ _ _ Hloop) as (Hlen & Hidx & _ & Hanchor & Hconv).
  repeat split; [assumption | assumption | |].
  - intros w Hw Hf; destruct (Hanchor w Hw Hf) as (a & Ha & Harg).
    unfold pixel_anchor in Ha; apply bind_inr in Ha as (c & Hc & Ha).
    injection Ha as <-; exists c; split; [| assumption].
    rewrite getitem_nonneg in Hc by assumption.
    destruct (nth_error (crpix (wcs self)) (Z.to_nat w)); congruence.
  - rewrite Hidx; intros j w Hj; destruct (Hconv j w Hj) as (q & v & Hq & Hv & Harg).
    unfold pixel_convert in Hv; apply bind_inr in Hv as (q' & Hq' & Hv).
    injection Hv as <-; eauto.
Qed.

(** The argument vector handed to [all_world2pix]: a missing WCS axis holds
    [crval + 1 - origin]; the [j]-th non-missing axis in data order holds
    the [j]-th input converted to the unit of that axis. *)
Lemma world_to_pixel_arguments_entries self qal origin args indexed :
  naxis (wcs self) = len (missing_axis self) ->
  world_to_pixel_arguments self qal origin = inr (args, indexed) ->
  length args = length (missing_axis self) /\
  indexed = wcs_axes_in_data_order (missing_axis self) /\
  (forall w, 0 <= w -> nth_error (missing_axis self) (Z.to_nat w) = Some true ->
     exists c, nth_error (crval (wcs self)) (Z.to_nat w) = Some c /\
               nth_error args (Z.to_nat w) = Some (c + 1 - inject_Z origin)%Q) /\
  (forall j w, nth_error indexed j = Some w ->
     exists q un q', nth_error qal j = Some q /\
                     nth_error (cunit (wcs self)) (Z.to_nat w) = Some un /\
                     to q un = inr q' /\
                     nth_error args (Z.to_nat w) = Some (value q')).
Proof.
  intros Hn H; unfold world_to_pixel_arguments in H.
  rewrite world_loop_visits in H by assumption.
  apply bind_inr in H as (st' & Hloop & H); injection H as <- <-.
  destruct (visited_entries _ _ _ _ _ Hloop) as (Hlen & Hidx & _ & Hanchor & Hconv).
  repeat split; [assumption | assumption | |].
  - intros w Hw Hf; destruct (Hanchor w Hw Hf) as (a & Ha & Harg).
    unfold world_anchor in Ha; apply bind_inr in Ha as (c & Hc & Ha).
    injection Ha as <-; exists c; split; [| assumption].
    rewrite getitem_nonneg in Hc by assumption.
    destruct (nth_error (crval (wcs self)) (Z.to_nat w)); congruence.
  - rewrite Hidx; intros j w Hj; destruct (Hconv j w Hj) as (q & v & Hq & Hv & Harg).
    assert (Hr : 0 <= w < len (missing_axis self))
      by (apply in_order_range; eapply nth_error_In; eassumption).
    unfold world_convert in Hv; apply bind_inr in Hv as (un & Hun & Hv).
    apply bind_inr in Hv as (q' & Hq' & Hv); injection Hv as <-.
    rewrite getitem_nonneg in Hun by lia.
    destruct (nth_error (cunit (wcs self)) (Z.to_nat w)) as [un' |] eqn:E;
      [| discriminate].
    injection Hun as ->; exists q, un, q'; auto.
Qed.

End argument_vectors.

(** C1.  On the cube [cube_wave] (WCS axis 0 missing, reference pixel 5,
    reference value 10) with origin 0, [pixel_to_world] puts the reference
    pixel adjusted for the origin, [5 - 1 + 0], at the missing axis, whereas
    [world_to_pixel] puts [10 + 1 - 0] there, which is not the reference
    world value 10; in both the single input entry goes to the non-missing
    axis 1. *)
Theorem world_to_pixel_anchor_is_shifted_reference_value :
  @pixel_to_world_arguments plain_collab cube_wave [px (3#1)] 0
    = inr ([5 - 1 + inject_Z 0; 3#1]%Q, [1]) /\
  @world_to_pixel_arguments plain_collab cube_wave [nm (3#1)] 0
    = inr ([10 + 1 - inject_Z 0; 3#1]%Q, [1]) /\
  nth_error (crval (wcs cube_wave)) 0 = Some (10#1)%Q /\
  ~ (10 + 1 - inject_Z 0 == 10)%Q.
Proof.
  repeat split; try reflexivity.
  intros H; vm_compute in H; discriminate.
Qed.

Section transform_theorems.

Context {collab : Collaborators}.

(** C9.  On a cube whose WCS tables match its flags, with solvers that
    answer every full argument vector, an input with one convertible entry
    per non-missing axis makes [pixel_to_world] and [world_to_pixel] return
    exactly as many quantities as there are non-missing axes, in data
    order: entry [j] is the solver's output at the WCS axis of data axis
    [j], tagged with that axis's [cunit] by [pixel_to_world] and with [pix]
    by [world_to_pixel]. *)
Theorem transforms_return_one_value_per_data_axis
    (self : NDCube) (pixels worlds : list Quantity) (origin : Z) :
  consistent self ->
  answers (all_pix2world (wcs self)) (length (missing_axis self)) ->
  answers (all_world2pix (wcs self)) (length (missing_axis self)) ->
  len pixels = count_non_missing (missing_axis self) ->
  Forall (fun q => exists q', to q pix = inr q') pixels ->
  Forall2 (fun q w =>
             exists q', to q (nth (Z.to_nat w) (cunit (wcs self)) EmptyString)
                        = inr q')
          worlds (wcs_axes_in_data_order (missing_axis self)) ->
  (exists args out,
      pixel_to_world_arguments self pixels origin =
        inr (args, wcs_axes_in_data_order (missing_axis self)) /\
      all_pix2world (wcs self) args origin = inr out /\
      pixel_to_world self pixels origin = inr (world_quantities self out) /\
      len (world_quantities self out) = count_non_missing (missing_axis self)) /\
  (exists args out,
      world_to_pixel_arguments self worlds origin =
        inr (args, wcs_axes_in_data_order (missing_axis self)) /\
      all_world2pix (wcs self) args origin = inr out /\
      world_to_pixel self worlds origin = inr (pixel_quantities self out) /\
      len (pixel_quantities self out) = count_non_missing (missing_axis self)).
Proof.
  intros Hc Hp2w Hw2p Hlen Hpix Hworld; split.
  - destruct (pixel_to_world_runs self pixels origin Hc Hp2w) as (args & out & H1 & H2 & H3).
    + lia.
    + intros j q _ Hq; apply nth_error_In in Hq.
      rewrite Forall_forall in Hpix; apply Hpix; assumption.
    + exists args, out; repeat split; try assumption.
      unfold world_quantities, len; rewrite length_map.
      symmetry; apply count_non_missing_order.
  - destruct (world_to_pixel_runs self worlds origin Hc Hw2p) as (args & out & H1 & H2 & H3).
    + rewrite count_non_missing_order; unfold len.
      rewrite (Forall2_length Hworld); lia.
    + intros j w q Hj Hq; exact (Forall2_at _ _ _ Hworld j q w Hq Hj).
    + exists args, out; repeat split; try assumption.
      unfold pixel_quantities, len; rewrite length_map.
      symmetry; apply count_non_missing_order.
Qed.

(** C10.  On a cube whose WCS tables match its flags, with solvers that
    answer every full argument vector, take an input whose first [R]
    entries are convertible, [R] being the number of non-missing axes, and
    let any entries at all follow them, convertible or not.  Then
    [pixel_to_world] and [world_to_pixel] raise nothing: they hand the
    solver the argument vector built from the first [R] entries alone, and
    return the [R] quantities they return on those [R] entries alone. *)
Theorem excess_input_entries_are_ignored
    (self : NDCube) (pixels worlds excess_pixels excess_worlds : list Quantity)
    (origin : Z) :
  consistent self ->
  answers (all_pix2world (wcs self)) (length (missing_axis self)) ->
  answers (all_world2pix (wcs self)) (length (missing_axis self)) ->
  len pixels = count_non_missing (missing_axis self) ->
  Forall (fun q => exists q', to q pix = inr q') pixels ->
  Forall2 (fun q w =>
             exists q', to q (nth (Z.to_nat w) (cunit (wcs self)) EmptyString)
                        = inr q')
          worlds (wcs_axes_in_data_order (missing_axis self)) ->
  (exists args out,
      pixel_to_world_arguments self (pixels ++ excess_pixels) origin =
        inr (args, wcs_axes_in_data_order (missing_axis self)) /\
      pixel_to_world_arguments self pixels origin =
        inr (args, wcs_axes_in_data_order (missing_axis self)) /\
      all_pix2world (wcs self) args origin = inr out /\
      pixel_to_world self (pixels ++ excess_pixels) origin
        = inr (world_quantities self out) /\
      pixel_to_world self pixels origin = inr (world_quantities self out) /\
      len (world_quantities self out) = count_non_missing (missing_axis self)) /\
  (exists args out,
      world_to_pixel_arguments self (worlds ++ excess_worlds) origin =
        inr (args, wcs_axes_in_data_order (missing_axis self)) /\
      world_to_pixel_arguments self worlds origin =
        inr (args, wcs_axes_in_data_order (missing_axis self)) /\
      all_world2pix (wcs self) args origin = inr out /\
      world_to_pixel self (worlds ++ excess_worlds) origin
        = inr (pixel_quantities self out) /\
      world_to_pixel self worlds origin = inr (pixel_quantities self out) /\
      len (pixel_quantities self out) = count_non_missing (missing_axis self)).
Proof.
  intros Hc Hp2w Hw2p Hlen Hpix Hworld.
  pose proof Hc as (Hn & _).
  assert (Hworlds : len worlds = count_non_missing (missing_axis self)).
  { rewrite count_non_missing_order; unfold len.
    rewrite (Forall2_length Hworld); reflexivity. }
  split.
  - destruct (pixel_to_world_runs self pixels origin Hc Hp2w)
      as (args & out & H1 & H2 & H3).
    + lia.
    + intros j q _ Hq; apply nth_error_In in Hq.
      rewrite Forall_forall in Hpix; apply Hpix; assumption.
    + exists args, out.
      rewrite pixel_to_world_arguments_excess, pixel_to_world_excess
        by (assumption || lia).
      repeat split; try assumption.
      unfold world_quantities, len; rewrite length_map.
      symmetry; apply count_non_missing_order.
  - destruct (world_to_pixel_runs self worlds origin Hc Hw2p)
      as (args & out & H1 & H2 & H3).
    + lia.
    + intros j w q Hj Hq; exact (Forall2_at _ _ _ Hworld j q w Hq Hj).
    + exists args, out.
      rewrite world_to_pixel_arguments_excess, world_to_pixel_excess
        by (assumption || lia).
      repeat split; try assumption.
      unfold pixel_quantities, len; rewrite length_map.
      symmetry; apply count_non_missing_order.
Qed.

(** C3, amended.  When [naxis] is the number of flags, an input with fewer
    entries than there are non-missing axes makes [pixel_to_world] and
    [world_to_pixel] raise; on a cube whose WCS tables match its flags and
    with entries that convert to the units asked for, what they raise is
    the [IndexError] of the lookup in the input list. *)
Theorem short_input_raises
    (self : NDCube) (pixels worlds : list Quantity) (origin : Z) :
  naxis (wcs self) = len (missing_axis self) ->
  len pixels < count_non_missing (missing_axis self) ->
  len worlds < count_non_missing (missing_axis self) ->
  is_error (pixel_to_world self pixels origin) /\
  is_error (world_to_pixel self worlds origin) /\
  (consistent self ->
   (forall q, In q pixels -> exists q', to q pix = inr q') ->
   pixel_to_world self pixels origin = inl IndexError) /\
  (consistent self ->
   (forall q un, In q worlds -> In un (cunit (wcs self)) ->
                 exists q', to q un = inr q') ->
   world_to_pixel self worlds origin = inl IndexError).
Proof.
  intros Hn Hpixels Hworlds.
  assert (Hflags : forall w, In w (rev (range (length (missing_axis self)))) ->
                     exists b, getitem (missing_axis self) w = inr b).
  { intros w Hw; apply in_rev, in_range in Hw.
    destruct (getitem_in_range (missing_axis self) w Hw) as (b & Hb & _); eauto. }
  split; [| split; [| split; intros (_ & Hpix & Hval & Hunit) Hto]].
  - unfold pixel_to_world, pixel_to_world_arguments.
    rewrite pixel_loop_visits by assumption.
    destruct (for_each _ _ loop_init) as [e | st'] eqn:E; simpl; [exact I |].
    apply visited_needs_entries in E; lia.
  - unfold world_to_pixel, world_to_pixel_arguments.
    rewrite world_loop_visits by assumption.
    destruct (for_each _ _ loop_init) as [e | st'] eqn:E; simpl; [exact I |].
    apply visited_needs_entries in E; lia.
  - unfold pixel_to_world, pixel_to_world_arguments.
    rewrite pixel_loop_visits by assumption.
    destruct (for_each _ _ loop_init) as [e | st'] eqn:E; simpl;
      [| apply visited_needs_entries in E; lia].
    f_equal; eapply loop_raises_index_error; [exact Hflags | | | exact E].
    + intros w Hw _; apply in_rev, in_range in Hw; unfold pixel_anchor.
      rewrite (getitem_nth (crpix (wcs self)) w 0%Q) by (unfold len; lia).
      simpl; eauto.
    + intros w q _ Hq _; destruct (Hto q Hq) as (q' & Hq').
      unfold pixel_convert; rewrite Hq'; simpl; eauto.
  - unfold world_to_pixel, world_to_pixel_arguments.
    rewrite world_loop_visits by assumption.
    destruct (for_each _ _ loop_init) as [e | st'] eqn:E; simpl;
      [| apply visited_needs_entries in E; lia].
    f_equal; eapply loop_raises_index_error; [exact Hflags | | | exact E].
    + intros w Hw _; apply in_rev, in_range in Hw; unfold world_anchor.
      rewrite (getitem_nth (crval (wcs self)) w 0%Q) by (unfold len; lia).
      simpl; eauto.
    + intros w q Hw Hq _; apply in_rev, in_range in Hw; unfold world_convert.
      destruct (getitem_in_range (cunit (wcs self)) w) as (un & Hun & Hnth);
        [unfold len; lia |].
      rewrite Hun; simpl.
      destruct (Hto q un Hq (nth_error_In _ _ Hnth)) as (q' & Hq').
      rewrite Hq'; simpl; eauto.
Qed.

End transform_theorems.

Lemma cube_wave_consistent : consistent cube_wave.
Proof. repeat split. Qed.

Lemma identity_solver_answers (n : nat) : answers identity_solver n.
Proof. intros args origin H; exists args; split; [reflexivity | exact H]. Qed.

Lemma transforms_return_one_value_per_data_axis_witness :
  (exists args out,
      @pixel_to_world_arguments plain_collab cube_wave [px (3#1)] 0 = inr (args, [1]) /\
      identity_solver args 0 = inr out /\
      @pixel_to_world plain_collab cube_wave [px (3#1)] 0
        = inr (world_quantities cube_wave out) /\
      len (world_quantities cube_wave out) = 1) /\
  (exists args out,
      @world_to_pixel_arguments plain_collab cube_wave [nm (3#1)] 0 = inr (args, [1]) /\
      identity_solver args 0 = inr out /\
      @world_to_pixel plain_collab cube_wave [nm (3#1)] 0
        = inr (pixel_quantities cube_wave out) /\
      len (pixel_quantities cube_wave out) = 1).
Proof.
  apply (@transforms_return_one_value_per_data_axis plain_collab cube_wave
           [px (3#1)] [nm (3#1)] 0).
  - exact cube_wave_consistent.
  - apply identity_solver_answers.
  - apply identity_solver_answers.
  - reflexivity.
  - repeat constructor; eexists; reflexivity.
  - repeat constructor; eexists; reflexivity.
Defined.

Lemma excess_input_entries_are_ignored_witness :
  ((exists args out,
       @pixel_to_world_arguments plain_collab cube_wave
         ([px (3#1)] ++ [nm (9#1); deg (8#1)]) 0 = inr (args, [1]) /\
       @pixel_to_world_arguments plain_collab cube_wave [px (3#1)] 0
         = inr (args, [1]) /\
       identity_solver args 0 = inr out /\
       @pixel_to_world plain_collab cube_wave
         ([px (3#1)] ++ [nm (9#1); deg (8#1)]) 0
         = inr (world_quantities cube_wave out) /\
       @pixel_to_world plain_collab cube_wave [px (3#1)] 0
         = inr (world_quantities cube_wave out) /\
       len (world_quantities cube_wave out) = 1) /\
   (exists args out,
       @world_to_pixel_arguments plain_collab cube_wave
         ([nm (3#1)] ++ [px (9#1); deg (8#1)]) 0 = inr (args, [1]) /\
       @world_to_pixel_arguments plain_collab cube_wave [nm (3#1)] 0
         = inr (args, [1]) /\
       identity_solver args 0 = inr out /\
       @world_to_pixel plain_collab cube_wave
         ([nm (3#1)] ++ [px (9#1); deg (8#1)]) 0
         = inr (pixel_quantities cube_wave out) /\
       @world_to_pixel plain_collab cube_wave [nm (3#1)] 0
         = inr (pixel_quantities cube_wave out) /\
       len (pixel_quantities cube_wave out) = 1)) /\
  @pixel_to_world plain_collab cube_wave [px (3#1); nm (9#1); deg (8#1)] 0
    = inr [nm (3#1)] /\
  @world_to_pixel plain_collab cube_wave [nm (3#1); px (9#1); deg (8#1)] 0
    = inr [px (3#1)] /\
  @to plain_collab (nm (9#1)) pix = inl UnitConversionError.
Proof.
  split; [| repeat split].
  apply (@excess_input_entries_are_ignored plain_collab cube_wave
           [px (3#1)] [nm (3#1)] [nm (9#1); deg (8#1)] [px (9#1); deg (8#1)] 0).
  - exact cube_wave_consistent.
  - apply identity_solver_answers.
  - apply identity_solver_answers.
  - reflexivity.
  - repeat constructor; eexists; reflexivity.
  - repeat constructor; eexists; reflexivity.
Defined.

Lemma cube_image_consistent : consistent cube_image.
Proof. repeat split. Qed.

Lemma short_input_raises_witness :
  @pixel_to_world plain_collab cube_image [px (3#1)] 0 = inl IndexError /\
  @world_to_pixel plain_collab cube_image [deg (3#1)] 0 = inl IndexError.
Proof.
  destruct (@short_input_raises plain_collab cube_image [px (3#1)] [deg (3#1)] 0)
    as (_ & _ & Hpix & Hworld).
  - reflexivity.
  - vm_compute; reflexivity.
  - vm_compute; reflexivity.
  - split.
    + apply Hpix; [exact cube_image_consistent |].
      intros q [<- | []]; eexists; reflexivity.
    + apply Hworld; [exact cube_image_consistent |].
      intros q un [<- | []] [<- | [<- | []]]; eexists; reflexivity.
Defined.

(** C3 as stated fails: an input one entry longer than the single data axis
    of [cube_line] is accepted by both transforms. *)
Lemma long_input_is_accepted :
  len [px (1#1); px (2#1)] <> len (data_shape cube_line) /\
  len [px (1#1); px (2#1)] <> count_non_missing (missing_axis cube_line) /\
  @pixel_to_world plain_collab cube_line [px (1#1); px (2#1)] 0
    = inr [nm (1#1)] /\
  @world_to_pixel plain_collab cube_line [nm (1#1); nm (2#1)] 0
    = inr [px (1#1)].
Proof.
  repeat split; try reflexivity; intros H; discriminate H.
Qed.

(* ===================================================================== *)
(** * Construction                                                        *)
(* ===================================================================== *)

Section construction.

Context {collab : Collaborators}.

(** What the constructor does with the rank: it raises the rank-mismatch
    error when the data rank differs from [naxis] and also from the number
    of non-missing flags, whatever the extra coordinates; in every other
    case it raises no rank error and, without extra coordinates, builds the
    cube. *)
Lemma init_rank_check
    (data : list Z) (w : WCS) (missing_axis : option (list bool)) :
  let flags := match missing_axis with
               | None => repeat false (Z.to_nat (naxis w))
               | Some m => m
               end in
  (forall extra_coords,
      len data <> naxis w /\ count_non_missing flags <> len data ->
      __init__ data w extra_coords missing_axis
        = inl (ValueError rank_mismatch_message)) /\
  (len data = naxis w \/ count_non_missing flags = len data ->
   __init__ data w [] missing_axis = inr (mkNDCube data w flags None)) /\
  (__init__ data w [] missing_axis = inl (ValueError rank_mismatch_message) <->
   len data <> naxis w /\ count_non_missing flags <> len data).
Proof.
  intros flags.
  assert (Hraise : forall extra_coords,
             len data <> naxis w /\ count_non_missing flags <> len data ->
             __init__ data w extra_coords missing_axis
               = inl (ValueError rank_mismatch_message)).
  { intros extra_coords (H1 & H2); unfold __init__; fold flags.
    apply Z.eqb_neq in H1, H2; rewrite H1, H2; reflexivity. }
  assert (Hpass : len data = naxis w \/ count_non_missing flags = len data ->
                  __init__ data w [] missing_axis = inr (mkNDCube data w flags None)).
  { intros H; unfold __init__; fold flags.
    destruct (Z.eqb_spec (len data) (naxis w)) as [E | E]; simpl; [reflexivity |].
    destruct H as [H | H]; [contradiction |].
    apply Z.eqb_eq in H; rewrite H; reflexivity. }
  split; [exact Hraise | split; [exact Hpass | split; [| apply Hraise]]].
  intros H; split; intros E.
  - rewrite Hpass in H by (left; exact E); discriminate.
  - rewrite Hpass in H by (right; exact E); discriminate.
Qed.

End construction.

(** C4.  The constructor counts the non-missing flags only when the data
    rank differs from [naxis]: a data rank equal to [naxis] is accepted
    whatever the flags say.  With two data axes, two WCS axes and the flags
    [[True, False]] there is one non-missing axis for a data rank of 2, and
    the cube is built, where the claim, and the text of the constructor's
    own error, ask for the rank-mismatch error; with the same flags and a
    data rank of 3 the count is made and the error raised.  The cube so
    built does not serve its methods: [dimensions] reports two extents and
    one axis type, the transforms return one quantity for two data axes,
    and [crop_by_coords] with a corner and widths of two entries each
    raises [IndexError] when it looks up the second pixel. *)
Theorem init_accepts_flag_count_other_than_rank :
  (forall (collab : Collaborators) (data : list Z) (w : WCS) (flags : list bool),
      len data = naxis w ->
      __init__ data w [] (Some flags) = inr (mkNDCube data w flags None)) /\
  count_non_missing [true; false] <> len [4; 4] /\
  @__init__ plain_collab [4; 4] wcs_lon_wave [] (Some [true; false])
    = inr cube_flagged_image /\
  @__init__ plain_collab [4; 4; 4] wcs_lon_wave [] (Some [true; false])
    = inl (ValueError rank_mismatch_message) /\
  dimensions cube_flagged_image = inr ([4; 4], ["WAVE"%string]) /\
  @pixel_to_world plain_collab cube_flagged_image [px (1#1); px (2#1)] 0
    = inr [nm (1#1)] /\
  @world_to_pixel plain_collab cube_flagged_image [nm (1#1); nm (2#1)] 0
    = inr [px (1#1)] /\
  @crop_by_coords plain_collab cube_flagged_image
     [nm (1#1); nm (2#1)] [nm (1#1); nm (1#1)]
    = inl IndexError.
Proof.
  split; [| repeat split; try reflexivity; intros H; discriminate H].
  intros collab data w flags H; unfold __init__.
  apply Z.eqb_eq in H; rewrite H; reflexivity.
Qed.

(* ===================================================================== *)
(** * Cropping                                                            *)
(* ===================================================================== *)

(** C7.  [cube_line] has one data axis; a lower corner and widths of two
    entries each pass the guard of [crop_by_coords], which slices the cube
    to [1, 4). *)
Theorem crop_accepts_equal_lengths_other_than_rank :
  len [nm (1#1); nm (2#1)] = len [nm (3#1); nm (4#1)] /\
  len [nm (1#1); nm (2#1)] <> len (data_shape cube_line) /\
  @crop_slices plain_collab cube_line [nm (1#1); nm (2#1)] [nm (3#1); nm (4#1)]
    = inr [mkSlice 1 4] /\
  @crop_by_coords plain_collab cube_line [nm (1#1); nm (2#1)] [nm (3#1); nm (4#1)]
    = inr (mkNDCube [3] wcs_wave [false] None).
Proof.
  repeat split; try reflexivity; intros H; discriminate H.
Qed.

Section cropping.

Context {collab : Collaborators}.

(** The guard of [crop_by_coords] fires when the two lengths differ and the
    second differs from the data rank. *)
Lemma crop_guard_fires self lower widths shape types :
  dimensions self = inr (shape, types) ->
  len lower <> len widths -> len widths <> len shape ->
  crop_by_coords self lower widths = inl (ValueError crop_count_message).
Proof.
  intros Hd H1 H2; unfold crop_by_coords, crop_slices; rewrite Hd; simpl.
  apply Z.eqb_neq in H1; fold (len shape); apply Z.eqb_neq in H2.
  rewrite H1, H2; reflexivity.
Qed.

End cropping.

(** ** [rint] *)

Lemma rint_floor_cases (x : Q) :
  (inject_Z (Qfloor x) <= x /\ x < inject_Z (Qfloor x) + 1)%Q.
Proof.
  split; [apply Qfloor_le |].
  pose proof (Qlt_floor x) as H; rewrite inject_Z_plus in H; exact H.
Qed.

(** [rint] is within one half of its argument. *)
Lemma rint_nearest (x : Q) : (Qabs (x - inject_Z (rint x)) <= 1 # 2)%Q.
Proof.
  destruct (rint_floor_cases x) as (Hlo & Hhi).
  apply Qabs_Qle_condition; unfold rint.
  destruct (x - inject_Z (Qfloor x) ?= 1 # 2)%Q eqn:E.
  - apply Qeq_alt in E.
    destruct (Z.even (Qfloor x)); [| rewrite inject_Z_plus; change (inject_Z 1) with 1%Q];
      split; lra.
  - apply Qlt_alt in E; split; lra.
  - apply Qgt_alt in E; rewrite inject_Z_plus; change (inject_Z 1) with 1%Q; split; lra.
Qed.

Lemma Qfloor_half (n : Z) : Qfloor (inject_Z n + (1 # 2)) = n.
Proof.
  unfold Qfloor, Qplus, inject_Z; cbn [Qnum Qden].
  symmetry; apply Z.div_unique with (r := 1); lia.
Qed.

(** A tie goes to the even neighbour. *)
Lemma rint_half (n : Z) :
  rint (inject_Z n + (1 # 2)) = if Z.even n then n else n + 1.
Proof.
  unfold rint; rewrite Qfloor_half.
  assert (E : (inject_Z n + (1 # 2) - inject_Z n ?= 1 # 2)%Q = Eq)
    by (apply Qeq_alt; lra).
  rewrite E; reflexivity.
Qed.

Section crop_rounding.

Context {collab : Collaborators}.

Lemma getitem_map_inr {A B} (f : A -> B) (l : list A) (i : Z) (b : B) :
  0 <= i -> getitem (map f l) i = inr b ->
  exists a, nth_error l (Z.to_nat i) = Some a /\ b = f a.
Proof.
  intros Hi H; rewrite getitem_nonneg, nth_error_map in H by assumption.
  destruct (nth_error l (Z.to_nat i)) as [a |]; simpl in H; [| discriminate].
  injection H as <-; eauto.
Qed.

(** C8, amended.  The slices built by [crop_by_coords] are, axis by axis,
    the [rint] of the lower pixel and the [rint] of the upper pixel returned
    by [world_to_pixel]; [rint] is the same function on both boundaries, is
    within one half of its argument, and sends [n + 1/2] to the even one of
    [n] and [n + 1]. *)
Theorem crop_rounds_half_to_even
    (self : NDCube) (lower_left_corner dimension_widths : list Quantity)
    (slic : list slice) :
  crop_slices self lower_left_corner dimension_widths = inr slic ->
  (exists upper_corner lower_pixels upper_pixels,
      world_to_pixel self lower_left_corner 0 = inr lower_pixels /\
      world_to_pixel self upper_corner 0 = inr upper_pixels /\
      forall i s, nth_error slic i = Some s ->
        exists l u, nth_error lower_pixels i = Some l /\
                    nth_error upper_pixels i = Some u /\
                    s = mkSlice (rint (value l)) (rint (value u))) /\
  (forall x, (Qabs (x - inject_Z (rint x)) <= 1 # 2)%Q) /\
  (forall n, rint (inject_Z n + (1 # 2)) = if Z.even n then n else n + 1).
Proof.
  intros H; split; [| split; [exact rint_nearest | exact rint_half]].
  unfold crop_slices in H.
  apply bind_inr in H as ((shape & types) & _ & H).
  apply bind_inr in H as (_ & _ & H).
  apply bind_inr in H as (lower_pixels & Hlo & H).
  apply bind_inr in H as (upper_corner & _ & H).
  apply bind_inr in H as (upper_pixels & Hup & H).
  exists upper_corner, lower_pixels, upper_pixels; repeat split; try assumption.
  intros i s Hs.
  destruct (comprehension_inr _ _ _ H) as (Hlen & Hnth).
  assert (Hi : (i < length (range (length shape)))%nat)
    by (rewrite <- Hlen; apply nth_error_Some; congruence).
  rewrite range_length in Hi.
  destruct (Hnth i (Z.of_nat i) (nth_error_range _ _ Hi)) as (s' & Hs' & Hf).
  rewrite Hs in Hs'; injection Hs' as <-.
  apply bind_inr in Hf as (lo & Hlo' & Hf).
  apply bind_inr in Hf as (up & Hup' & Hf); injection Hf as <-.
  apply getitem_map_inr in Hlo' as (l & Hl & ->); [| lia].
  apply getitem_map_inr in Hup' as (u & Hu & ->); [| lia].
  rewrite Nat2Z.id in Hl, Hu; eauto.
Qed.

End crop_rounding.

Lemma crop_rounds_half_to_even_witness :
  (exists upper_corner lower_pixels upper_pixels,
      @world_to_pixel plain_collab cube_line [nm (3 # 2)] 0 = inr lower_pixels /\
      @world_to_pixel plain_collab cube_line upper_corner 0 = inr upper_pixels /\
      forall i s, nth_error [mkSlice 2 4] i = Some s ->
        exists l u, nth_error lower_pixels i = Some l /\
                    nth_error upper_pixels i = Some u /\
                    s = mkSlice (rint (value l)) (rint (value u))) /\
  (forall x, (Qabs (x - inject_Z (rint x)) <= 1 # 2)%Q) /\
  (forall n, rint (inject_Z n + (1 # 2)) = if Z.even n then n else n + 1).
Proof.
  apply (@crop_rounds_half_to_even plain_collab cube_line
           [nm (3 # 2)] [nm (2 # 1)] [mkSlice 2 4]).
  reflexivity.
Defined.

(** C8 as stated fails: lower pixel [1/2] and upper pixel [5/2] are cut to
    [0, 2), where rounding half away from zero gives [1, 3). *)
Lemma crop_tie_goes_to_even :
  @world_to_pixel plain_collab cube_line [nm (1 # 2)] 0 = inr [px (1 # 2)] /\
  @crop_slices plain_collab cube_line [nm (1 # 2)] [nm (2 # 1)]
    = inr [mkSlice 0 2] /\
  rint (inject_Z 0 + (1 # 2)) <> 0 + 1 /\
  rint (inject_Z 2 + (1 # 2)) <> 2 + 1.
Proof.
  repeat split; try reflexivity; intros H; discriminate H.
Qed.

(* ===================================================================== *)
(** * _update_aligned_axes                                                *)
(* ===================================================================== *)

Module update_facts.

Import collection.

Lemma update_without_drops aligned_axes first_key :
  _update_aligned_axes [] aligned_axes first_key
    = inr (Some (map snd aligned_axes)).
Proof. reflexivity. Qed.

Lemma update_all_dropped drop aligned_axes first_key first :
  drop <> [] ->
  dict_getitem aligned_axes first_key = inr first ->
  len drop = len first ->
  _update_aligned_axes drop aligned_axes first_key = inr None.
Proof.
  intros Hne Hfirst Hlen; unfold _update_aligned_axes, _update_aligned_axes_store.
  destruct drop as [| p drop]; [contradiction |].
  assert (E : (len (p :: drop) <=? 0) = false)
    by (apply Z.leb_gt; unfold len; simpl length; lia).
  rewrite E, Hfirst; cbn [bind]; rewrite Hlen, Z.eqb_refl; reflexivity.
Qed.

Lemma decrement_above_length x arr :
  length (decrement_above x arr) = length arr.
Proof. apply length_map. Qed.

Lemma decrement_above_split p pre cur :
  decrement_above p (pre ++ p :: cur) =
  (decrement_above p pre ++ [p]) ++ decrement_above p cur.
Proof.
  unfold decrement_above; rewrite map_app, <- app_assoc; simpl.
  rewrite Z.gtb_ltb, Z.ltb_irrefl; reflexivity.
Qed.

(** One member on its own: the positions still to be read from the drop
    array are treated as the wording of the specification asks, whatever
    has become of the positions already read. *)
Lemma drop_step_unfold axes drop t :
  drop_step (axes, drop) t =
  (drop_axis_index <- getitem drop t ;;
   drop_axis <- getitem axes drop_axis_index ;;
   axes' <- np_delete axes drop_axis_index ;;
   ret (decrement_above drop_axis axes', decrement_above drop_axis_index drop)).
Proof. reflexivity. Qed.

Lemma drop_loop_refines_at (n : nat) : forall cur pre axes,
  length cur = n ->
  match for_each (map Z.of_nat (seq (length pre) n)) drop_step
                 (axes, pre ++ cur) with
  | inl e => drop_positions n cur axes = inl e
  | inr (axes', _) => drop_positions n cur axes = inr axes'
  end.
Proof.
  induction n as [| n IH]; intros cur pre axes Hn.
  - destruct cur; [reflexivity | discriminate].
  - destruct cur as [| p cur]; [discriminate |]; injection Hn as Hn.
    cbn [seq map for_each drop_positions].
    rewrite drop_step_unfold.
    assert (Hp : getitem (pre ++ p :: cur) (Z.of_nat (length pre)) = inr p).
    { rewrite getitem_nonneg, Nat2Z.id, nth_error_app2, Nat.sub_diag by lia.
      reflexivity. }
    rewrite Hp; cbn [bind].
    destruct (getitem axes p) as [e | removed]; cbn [bind]; [reflexivity |].
    destruct (np_delete axes p) as [e | axes1]; cbn [bind ret]; [reflexivity |].
    rewrite decrement_above_split.
    specialize (IH (decrement_above p cur)
                   (decrement_above p pre ++ [p])
                   (decrement_above removed axes1)).
    rewrite length_app, !decrement_above_length, Nat.add_1_r in IH.
    exact (IH Hn).
Qed.

(** With a single member the code does what the specification words. *)
Lemma single_member_refines key axes drop :
  _update_aligned_axes drop [(key, axes)] key = updateAfterDrop_spec [axes] drop.
Proof.
  unfold _update_aligned_axes, _update_aligned_axes_store, updateAfterDrop_spec.
  destruct drop as [| p drop]; [reflexivity |].
  assert (E : (len (p :: drop) <=? 0) = false)
    by (apply Z.leb_gt; unfold len; simpl length; lia).
  rewrite E; cbn [dict_getitem]; rewrite String.eqb_refl; cbn [bind ret].
  destruct (len (p :: drop) =? len axes); [reflexivity |].
  cbn [map fst for_each key_step dict_getitem comprehension].
  rewrite String.eqb_refl; cbn [bind ret].
  pose proof (drop_loop_refines_at _ (p :: drop) [] axes eq_refl) as H.
  cbn [app length] in H; unfold range.
  destruct (for_each _ drop_step _) as [e | (axes', drop')];
    cbn [length] in *; rewrite H; reflexivity.
Qed.

Lemma dict_getitem_In d : forall key axes,
  NoDup (map fst d) -> In (key, axes) d -> dict_getitem d key = inr axes.
Proof.
  induction d as [| (k, v) d IH]; intros key axes Hnd Hin; [contradiction |].
  inversion Hnd as [| ? ? Hk Hnd']; subst; simpl.
  destruct Hin as [E | Hin].
  - injection E as -> ->; rewrite String.eqb_refl; reflexivity.
  - destruct (String.eqb_spec k key) as [-> | _]; [| apply IH; assumption].
    exfalso; apply Hk; apply (in_map fst) in Hin; exact Hin.
Qed.

(** A single drop position leaves the drop array as it was, so every member
    is read with the same position. *)
Lemma key_steps_single_drop p d : forall members acc,
  (forall key axes, In (key, axes) members -> dict_getitem d key = inr axes) ->
  for_each (map fst members) (key_step d) (acc, [p]) =
  (r <- comprehension (drop_positions 1 [p]) (map snd members) ;;
   ret (acc ++ r, [p])).
Proof.
  induction members as [| (key, axes) members IH]; intros acc Hd.
  - simpl; rewrite app_nil_r; reflexivity.
  - cbn [map fst snd for_each comprehension key_step].
    rewrite (Hd key axes (or_introl eq_refl)); cbn [bind].
    cbn [length range seq map for_each drop_positions]; unfold range.
    cbn [seq map for_each]; rewrite drop_step_unfold.
    change (getitem [p] (Z.of_nat 0)) with (@inr exn _ p); cbn [bind].
    destruct (getitem axes p) as [e | removed]; cbn [bind]; [reflexivity |].
    destruct (np_delete axes p) as [e | axes']; cbn [bind ret]; [reflexivity |].
    replace (decrement_above p [p]) with [p]
      by (unfold decrement_above; simpl; rewrite Z.gtb_ltb, Z.ltb_irrefl; reflexivity).
    rewrite IH by (intros; apply Hd; right; assumption).
    destruct (comprehension _ (map snd members)) as [e | r]; cbn [bind ret];
      [reflexivity |].
    rewrite <- app_assoc; reflexivity.
Qed.

(** With a single drop position the code does what the specification
    words, for any number of members. *)
Lemma single_drop_refines p first_key first rest :
  NoDup (map fst ((first_key, first) :: rest)) ->
  _update_aligned_axes [p] ((first_key, first) :: rest) first_key =
  updateAfterDrop_spec (map snd ((first_key, first) :: rest)) [p].
Proof.
  intros Hnd; unfold _update_aligned_axes, _update_aligned_axes_store.
  change (len [p] <=? 0) with false; cbv iota.
  rewrite (dict_getitem_In _ first_key first Hnd (or_introl eq_refl)); cbn [bind].
  rewrite key_steps_single_drop by (intros; apply dict_getitem_In; assumption).
  unfold updateAfterDrop_spec; cbn [map snd length].
  destruct (len [p] =? len first); [reflexivity |].
  destruct (comprehension _ _) as [e | r]; reflexivity.
Qed.

End update_facts.

(** C2.  Two members aligned on four positions, of which positions 0 and 2
    are dropped.  The first member comes out as the specification asks; the
    second is read with the drop array as the first pass left it, [0; 1]
    instead of [0; 2], and comes out as [(1, 0)], where the specification
    asks for [(0, 1)], which is also what the code returns for that member
    when it is alone in the collection. *)
Theorem update_reuses_shifted_drop_positions :
  collection._update_aligned_axes [0; 2] two_aligned "a"
    = inr (Some [[0; 1]; [1; 0]]) /\
  collection.updateAfterDrop_spec (map snd two_aligned) [0; 2]
    = inr (Some [[0; 1]; [0; 1]]) /\
  collection._update_aligned_axes [0; 2] [("b"%string, [1; 0; 3; 2])] "b"
    = inr (Some [[0; 1]]) /\
  collection._update_aligned_axes_store [0; 2] [("a"%string, [0; 1; 2; 3])] "a"
    = inr (Some [[0; 1]], [0; 1]).
Proof.
  repeat split.
Qed.

(* ===================================================================== *)
(** * _sanitize_aligned_axes                                              *)
(* ===================================================================== *)

(** C5.  A single int is rejected for every collection: the function
    subscripts [aligned_axes] before it turns an int into a tuple.  On the
    three members of the specification's example the int 2 raises
    [TypeError] whether the extents agree or not, while the one-element
    tuple [(2,)] gives [((2,), (2,), (2,))] and the extent mismatch. *)
Theorem sanitize_rejects_single_int :
  (forall data axis,
      is_error (collection._sanitize_aligned_axes data (collection.AxInt axis))) /\
  collection._sanitize_aligned_axes three_cubes (collection.AxInt 2)
    = inl (TypeError collection.not_subscriptable_message) /\
  collection._sanitize_aligned_axes three_cubes_uneven (collection.AxInt 2)
    = inl (TypeError collection.not_subscriptable_message) /\
  collection._sanitize_aligned_axes three_cubes
      (collection.AxTuple [collection.AInt 2])
    = inr [[2]; [2]; [2]] /\
  collection._sanitize_aligned_axes three_cubes_uneven
      (collection.AxTuple [collection.AInt 2])
    = inl (ValueError collection.not_same_length_message).
Proof.
  split; [| repeat split].
  intros data axis; unfold collection._sanitize_aligned_axes.
  destruct (getitem data 0) as [e | data0]; simpl; [exact I |].
  destruct (collection.dimensions data0); exact I.
Qed.

Module sanitize_facts.

Import collection.

Lemma getitem_indexes {A} (l : list A) (i : Z) :
  - len l <= i < len l -> exists a, getitem l i = inr a.
Proof.
  intros H; unfold getitem.
  destruct (i <? 0) eqn:E; cbv zeta.
  - apply Z.ltb_lt in E.
    destruct (len l + i <? 0) eqn:E'; [apply Z.ltb_lt in E'; lia |].
    destruct (nth_error l (Z.to_nat (len l + i))) eqn:N; [eauto |].
    apply nth_error_None in N; unfold len in *; lia.
  - rewrite E; apply Z.ltb_ge in E.
    destruct (nth_error l (Z.to_nat i)) eqn:N; [eauto |].
    apply nth_error_None in N; unfold len in *; lia.
Qed.

Lemma getitem_of_nat {A} (l : list A) (i : nat) (a : A) :
  nth_error l i = Some a -> getitem l (Z.of_nat i) = inr a.
Proof.
  intros H; rewrite getitem_nonneg, Nat2Z.id, H by lia; reflexivity.
Qed.

Lemma setitem_in_range {A} (l : list A) (i : nat) (v : A) :
  (i < length l)%nat ->
  exists l', setitem l (Z.of_nat i) v = inr l' /\ length l' = length l.
Proof.
  intros H; unfold setitem.
  destruct (Z.of_nat i <? 0) eqn:E; [apply Z.ltb_lt in E; lia |].
  cbv zeta; rewrite E; destruct (len l <=? Z.of_nat i) eqn:E';
    [apply Z.leb_le in E'; unfold len in E'; lia |].
  eexists; split; [reflexivity |].
  rewrite length_app, length_firstn; cbn [length].
  rewrite length_skipn, Nat2Z.id; lia.
Qed.

Lemma comprehension_total {A B} (f : A -> result B) (l : list A) :
  Forall (fun x => exists y, f x = inr y) l ->
  exists ys, comprehension f l = inr ys /\ length ys = length l.
Proof.
  induction 1 as [| x l (y & Hy) _ (ys & Hys & Hlen)]; simpl.
  - exists []; auto.
  - rewrite Hy, Hys; simpl; exists (y :: ys); simpl; auto.
Qed.

Lemma tuples_of_tuples (ts : list (list Z)) : tuples_of (map ATuple ts) = ts.
Proof.
  induction ts as [| t ts IH]; simpl; [reflexivity | rewrite IH; reflexivity].
Qed.

Lemma all_tuples (ts : list (list Z)) : forallb is_tuple (map ATuple ts) = true.
Proof.
  induction ts as [| t ts IH]; simpl; [reflexivity | exact IH].
Qed.

Lemma shape_of_len cube shape :
  shape_of cube = Some shape -> dims_len (dimensions cube) = inr (len shape).
Proof.
  unfold shape_of, dims_len; destruct (dimensions cube); intros H;
    [injection H as -> | injection H as -> | discriminate]; reflexivity.
Qed.

Lemma shape_of_getitem cube shape axis :
  shape_of cube = Some shape ->
  dims_getitem (dimensions cube) axis = getitem shape axis.
Proof.
  unfold shape_of, dims_getitem; destruct (dimensions cube); intros H;
    [injection H as -> | injection H as -> | discriminate]; reflexivity.
Qed.

(** The inner loop over the axes of one member completes when every axis
    indexes the member's shape. *)
Lemma inner_loop_completes cube shape (extents0 : list Z) (k : nat) :
  shape_of cube = Some shape ->
  length extents0 = k ->
  forall axes a types equal,
    Forall (indexes shape) axes ->
    (a + length axes <= k)%nat ->
    length types = k -> length equal = k ->
    exists types' equal',
      for_each (combine (map Z.of_nat (seq a (length axes))) axes)
        (fun '(subtuple_types, cube_lengths_equal) '(j, axis) =>
           subtuple_types <- setitem subtuple_types j true ;;
           extent <- dims_getitem (dimensions cube) axis ;;
           extent0 <- cube0_getitem (Arr extents0) j ;;
           cube_lengths_equal <- setitem cube_lengths_equal j (extent =? extent0) ;;
           ret (subtuple_types, cube_lengths_equal))
        (types, equal) = inr (types', equal') /\
      length types' = k /\ length equal' = k.
Proof.
  intros Hshape Hk axes.
  induction axes as [| axis axes IH]; intros a types equal Hin Hle Ht He.
  - exists types, equal; auto.
  - inversion Hin as [| ? ? Haxis Hrest]; subst.
    simpl in Hle; cbn [length seq map combine for_each].
    destruct (setitem_in_range types a true) as (types1 & -> & Ht1); [lia |].
    cbn [bind]; rewrite (shape_of_getitem _ _ _ Hshape).
    destruct (getitem_indexes shape axis Haxis) as (extent & ->); cbn [bind].
    unfold cube0_getitem.
    destruct (getitem_indexes extents0 (Z.of_nat a)) as (extent0 & ->);
      [unfold len; lia |]; cbn [bind].
    destruct (setitem_in_range equal a (extent =? extent0)) as (equal1 & -> & He1);
      [lia |]; cbn [bind ret].
    apply IH; [assumption | lia | congruence | congruence].
Qed.

Section cube_steps.

Variables (data : list member) (tuples : list (list Z)) (k : nat)
          (extents0 : list Z).

Hypothesis extents0_length : length extents0 = k.
Hypothesis tuples_length : Forall (fun t => length t = k) tuples.
Hypothesis k_positive : (0 < k)%nat.

Lemma tuple_at i t : nth_error tuples i = Some t -> length t = k /\ t <> [].
Proof.
  intros H; apply nth_error_In in H.
  rewrite Forall_forall in tuples_length; apply tuples_length in H.
  split; [assumption | intros ->; simpl in H; lia].
Qed.

Lemma cube_step_completes i cube t ints same :
  nth_error data i = Some cube -> nth_error tuples i = Some t ->
  fits k cube t ->
  (i < length ints)%nat -> length same = length ints ->
  exists ints' same',
    cube_step data tuples k (Arr extents0) (ints, same) (Z.of_nat i)
      = inr (ints', same') /\
    length ints' = length ints /\ length same' = length ints.
Proof.
  intros Hc Ht (shape & Hshape & Hroom & Hidx) Hi Hsame.
  destruct (tuple_at _ _ Ht) as (Hlen & Hne).
  unfold cube_step.
  rewrite (getitem_of_nat _ _ _ Hc); cbn [bind].
  rewrite (shape_of_len _ _ Hshape); cbn [bind].
  rewrite (getitem_of_nat _ _ _ Ht); cbn [bind].
  unfold py_max; destruct t as [| x t']; [contradiction |]; cbn [bind ret].
  destruct (Z.ltb_spec (len shape) (Z.max (max_axis (x :: t')) (Z.of_nat k)));
    [lia |]; cbn [bind ret].
  destruct (inner_loop_completes cube shape extents0 k Hshape extents0_length
              (x :: t') 0%nat (repeat false k) (repeat false k) Hidx)
    as (types' & equal' & Hloop & _); try (rewrite repeat_length; reflexivity);
    [lia |].
  unfold range; rewrite Hloop; cbn [bind].
  destruct (setitem_in_range ints i (all types')) as (ints' & -> & Hi'); [lia |].
  cbn [bind].
  destruct (setitem_in_range same i (all equal')) as (same' & -> & Hs'); [lia |].
  cbn [bind ret]; exists ints', same'; repeat split; congruence.
Qed.

Lemma cube_step_raises i cube shape t st :
  nth_error data i = Some cube -> nth_error tuples i = Some t ->
  shape_of cube = Some shape ->
  len shape < Z.max (max_axis t) (Z.of_nat k) ->
  cube_step data tuples k (Arr extents0) st (Z.of_nat i)
    = inl (ValueError (axis_range_message (Z.of_nat i))).
Proof.
  intros Hc Ht Hshape Hlt; destruct st as (ints, same).
  destruct (tuple_at _ _ Ht) as (Hlen & Hne).
  unfold cube_step.
  rewrite (getitem_of_nat _ _ _ Hc); cbn [bind].
  rewrite (shape_of_len _ _ Hshape); cbn [bind].
  rewrite (getitem_of_nat _ _ _ Ht); cbn [bind].
  unfold py_max; destruct t as [| x t']; [contradiction |]; cbn [bind ret].
  destruct (Z.ltb_spec (len shape) (Z.max (max_axis (x :: t')) (Z.of_nat k)));
    [reflexivity | lia].
Qed.

(** The members before the first one without room are passed. *)
Lemma cube_steps_complete (n : nat) : forall i,
  (i <= n)%nat ->
  (forall i' cube t, (i' < i)%nat ->
      nth_error data i' = Some cube -> nth_error tuples i' = Some t ->
      fits k cube t) ->
  (i <= length data)%nat -> (i <= length tuples)%nat ->
  exists ints same,
    for_each (range i) (cube_step data tuples k (Arr extents0))
             (repeat false n, repeat false n) = inr (ints, same) /\
    length ints = n /\ length same = n.
Proof.
  induction i as [| i IH]; intros Hn Hfits Hd Ht.
  - exists (repeat false n), (repeat false n); rewrite !repeat_length; auto.
  - destruct IH as (ints & same & Hloop & Hints & Hsame); try lia.
    { intros i' cube t Hlt; apply Hfits; lia. }
    destruct (nth_error data i) as [cube |] eqn:Ec;
      [| apply nth_error_None in Ec; lia].
    destruct (nth_error tuples i) as [t |] eqn:Et;
      [| apply nth_error_None in Et; lia].
    destruct (cube_step_completes i cube t ints same Ec Et)
      as (ints' & same' & Hstep & Hi' & Hs'); try lia.
    { apply (Hfits i); [lia | assumption | assumption]. }
    rewrite range_S, for_each_app, Hloop; cbn [bind for_each].
    rewrite Hstep; cbn [bind ret]; exists ints', same'; repeat split; congruence.
Qed.

End cube_steps.

Lemma range_split (n i : nat) :
  (i < n)%nat -> exists rest, range n = range i ++ Z.of_nat i :: rest.
Proof.
  intros H; unfold range.
  assert (E : seq 0 n = seq 0 i ++ seq (0 + i) (S (n - S i)))
    by (rewrite <- seq_app; f_equal; lia).
  rewrite E, map_app; simpl; eauto.
Qed.

End sanitize_facts.

Module sanitize_order.

Import collection sanitize_facts.

(** With one tuple per member and a first tuple that indexes the first
    member, the function reaches the all-tuples branch. *)
Lemma sanitize_enters_tuples_branch cube0 shape0 axes0 cubes tuples :
  shape_of cube0 = Some shape0 ->
  axes0 <> [] ->
  Forall (indexes shape0) axes0 ->
  exists extents0,
    length extents0 = length axes0 /\
    forall e,
      all_tuples_branch (cube0 :: cubes) (axes0 :: tuples) (Arr extents0) = inl e ->
      _sanitize_aligned_axes (cube0 :: cubes)
                             (AxTuple (map ATuple (axes0 :: tuples))) = inl e.
Proof.
  intros Hshape Hne Hidx.
  destruct (comprehension_total (getitem shape0) axes0) as (extents0 & Hext & Hlen).
  { eapply Forall_impl; [| exact Hidx]; intros a Ha; apply getitem_indexes, Ha. }
  exists extents0; split; [assumption |]; intros e Hbranch.
  unfold _sanitize_aligned_axes.
  change (getitem (cube0 :: cubes) 0) with (@inr exn _ cube0); cbn [bind].
  assert (Hdims : match dimensions cube0 with
                  | DimsQuantity shape | DimsTuple shape =>
                      a0 <- subscript0 (AxTuple (map ATuple (axes0 :: tuples))) ;;
                      np_index shape a0
                  | DimsOther => raise (TypeError unsupported_type_message)
                  end = inr (Arr extents0)).
  { unfold shape_of in Hshape.
    destruct (dimensions cube0); try discriminate; injection Hshape as ->;
      cbn [map subscript0];
      change (getitem (ATuple axes0 :: map ATuple tuples) 0)
        with (@inr exn _ (ATuple axes0));
      cbn [bind np_index]; destruct axes0; try contradiction;
      rewrite Hext; reflexivity. }
  rewrite Hdims; cbn [bind].
  cbn [map forallb is_int andb]; rewrite <- map_cons.
  rewrite all_tuples, tuples_of_tuples, Hbranch; reflexivity.
Qed.

End sanitize_order.

(** C6, amended.  For a specification with one tuple per member whose first
    tuple is non-empty and indexes the first member: when some tuple has
    another length than the first, the function raises the equal-length
    error, whatever axes the tuples name; when all tuples have the length
    [k] of the first, and member [i] is the first whose rank is below its
    largest axis or below [k], the members before it fitting, the function
    raises the axis-range error for cube [i]. *)
Theorem sanitize_checks_lengths_before_ranges
    (cube0 : collection.member) (shape0 axes0 : list Z)
    (cubes : list collection.member) (tuples : list (list Z)) :
  collection.shape_of cube0 = Some shape0 ->
  axes0 <> [] ->
  Forall (collection.indexes shape0) axes0 ->
  length tuples = length cubes ->
  (Exists (fun t => length t <> length axes0) tuples ->
   collection._sanitize_aligned_axes
     (cube0 :: cubes) (collection.AxTuple (map collection.ATuple (axes0 :: tuples)))
   = inl (ValueError collection.same_length_message)) /\
  (Forall (fun t => length t = length axes0) tuples ->
   forall i cube shape t,
     nth_error (cube0 :: cubes) i = Some cube ->
     nth_error (axes0 :: tuples) i = Some t ->
     collection.shape_of cube = Some shape ->
     len shape < Z.max (collection.max_axis t) (len axes0) ->
     (forall i' cube' t',
         (i' < i)%nat ->
         nth_error (cube0 :: cubes) i' = Some cube' ->
         nth_error (axes0 :: tuples) i' = Some t' ->
         collection.fits (length axes0) cube' t') ->
     collection._sanitize_aligned_axes
       (cube0 :: cubes) (collection.AxTuple (map collection.ATuple (axes0 :: tuples)))
     = inl (ValueError (collection.axis_range_message (Z.of_nat i)))).
Proof.
  intros Hshape Hne Hidx Hlen.
  destruct (sanitize_order.sanitize_enters_tuples_branch
              cube0 shape0 axes0 cubes tuples Hshape Hne Hidx)
    as (extents0 & Hext & Henter).
  assert (Hcount : (len (axes0 :: tuples) =? Z.of_nat (length (cube0 :: cubes))) = true)
    by (apply Z.eqb_eq; unfold len; simpl length; lia).
  split.
  - intros Hex; apply Henter; unfold collection.all_tuples_branch.
    rewrite Hcount; cbn [negb bind ret].
    change (getitem (axes0 :: tuples) 0) with (@inr exn _ axes0); cbn [bind].
    assert (E : forallb (fun axes => len axes =? Z.of_nat (length axes0))
                        (axes0 :: tuples) = false).
    { apply not_true_is_false; intros Hall; rewrite forallb_forall in Hall.
      apply Exists_exists in Hex as (t & Hin & Hneq).
      specialize (Hall t (or_intror Hin)); apply Z.eqb_eq in Hall.
      unfold len in Hall; lia. }
    rewrite E; reflexivity.
  - intros Hall i cube shape t Hc Ht Hs Hlt Hbefore.
    apply Henter; unfold collection.all_tuples_branch.
    rewrite Hcount; cbn [negb bind ret].
    change (getitem (axes0 :: tuples) 0) with (@inr exn _ axes0); cbn [bind].
    assert (Hall' : Forall (fun t => length t = length axes0) (axes0 :: tuples))
      by (constructor; [reflexivity | assumption]).
    assert (E : forallb (fun axes => len axes =? Z.of_nat (length axes0))
                        (axes0 :: tuples) = true).
    { apply forallb_forall; intros t' Hin; rewrite Forall_forall in Hall'.
      apply Z.eqb_eq; unfold len; rewrite (Hall' t' Hin); reflexivity. }
    rewrite E; cbn [negb bind ret].
    assert (Hk : (0 < length axes0)%nat)
      by (destruct axes0; [contradiction | simpl; lia]).
    assert (Hi : (i < length (cube0 :: cubes))%nat)
      by (apply nth_error_Some; congruence).
    destruct (sanitize_facts.range_split _ _ Hi) as (rest & ->).
    destruct (sanitize_facts.cube_steps_complete
                (cube0 :: cubes) (axes0 :: tuples) (length axes0) extents0
                Hext Hall' Hk (length (cube0 :: cubes)) i)
      as (ints & same & Hloop & _); try (simpl length in *; lia).
    { exact Hbefore. }
    rewrite for_each_app, Hloop; cbn [bind for_each].
    rewrite (sanitize_facts.cube_step_raises
               (cube0 :: cubes) (axes0 :: tuples) (length axes0) extents0
               Hext Hall' Hk i cube shape t (ints, same) Hc Ht Hs Hlt).
    reflexivity.
Qed.

Lemma sanitize_checks_lengths_before_ranges_witness :
  collection._sanitize_aligned_axes
    [cube_of_shape [3; 4]; cube_of_shape [5; 6]; cube_of_shape [3; 9]]
    (collection.AxTuple
       (map collection.ATuple [[0]; [0; 1]; [7]]))
  = inl (ValueError collection.same_length_message) /\
  collection._sanitize_aligned_axes
    [cube_of_shape [3; 4]; cube_of_shape [3; 6]; cube_of_shape [3; 9]]
    (collection.AxTuple (map collection.ATuple [[0]; [0]; [7]]))
  = inl (ValueError (collection.axis_range_message 2)).
Proof.
  split.
  - apply (proj1 (sanitize_checks_lengths_before_ranges
                    (cube_of_shape [3; 4]) [3; 4] [0]
                    [cube_of_shape [5; 6]; cube_of_shape [3; 9]] [[0; 1]; [7]]
                    eq_refl
                    ltac:(discriminate)
                    ltac:(repeat constructor; unfold collection.indexes, len; simpl; lia)
                    eq_refl)).
    constructor; simpl; lia.
  - apply (proj2 (sanitize_checks_lengths_before_ranges
                    (cube_of_shape [3; 4]) [3; 4] [0]
                    [cube_of_shape [3; 6]; cube_of_shape [3; 9]] [[0]; [7]]
                    eq_refl
                    ltac:(discriminate)
                    ltac:(repeat constructor; unfold collection.indexes, len; simpl; lia)
                    eq_refl)
             ltac:(repeat constructor)
             2%nat (cube_of_shape [3; 9]) [3; 9] [7] eq_refl eq_refl eq_refl).
    + vm_compute; reflexivity.
    + intros [| [| i']] cube' t' Hlt Hc Ht; [| | lia];
        simpl in Hc, Ht; injection Hc as <-; injection Ht as <-;
        eexists; (split; [reflexivity |]);
        (split; [vm_compute; discriminate |]);
        repeat constructor; unfold collection.indexes, len; simpl; lia.
Defined.

(** C6 as stated fails: the second tuple is longer than the first and names
    axis 5 of a member of rank 2; the error raised is the equal-length one,
    not the axis-range one. *)
Lemma sanitize_length_error_comes_first :
  collection._sanitize_aligned_axes
    [cube_of_shape [3; 4]; cube_of_shape [5; 6]]
    (collection.AxTuple [collection.ATuple [0]; collection.ATuple [0; 5]])
  = inl (ValueError collection.same_length_message) /\
  collection.same_length_message <> collection.axis_range_message 1.
Proof.
  split; [reflexivity | intros H; vm_compute in H; discriminate H].
Qed.

(** An axis equal to the rank passes the axis-range test and fails in the
    lookup that follows. *)
Lemma sanitize_axis_equal_to_rank :
  collection._sanitize_aligned_axes
    [cube_of_shape [3; 4]; cube_of_shape [3; 6]]
    (collection.AxTuple [collection.ATuple [0]; collection.ATuple [2]])
  = inl IndexError.
Proof. reflexivity. Qed.

(* ===================================================================== *)
(** * The dimensions property                                             *)
(* ===================================================================== *)

Lemma combine_snoc {A B} (l1 : list A) (l2 : list B) (a : A) (b : B) :
  length l1 = length l2 ->
  combine (l1 ++ [a]) (l2 ++ [b]) = combine l1 l2 ++ [(a, b)].
Proof.
  revert l2; induction l1 as [| x l1 IH]; intros [| y l2] H;
    try discriminate; [reflexivity |].
  simpl; rewrite IH by (simpl in H; lia); reflexivity.
Qed.

(** The loop of [dimensions] collects the axis types of the non-missing
    axes in WCS order, and stops with [IndexError] at the first such axis
    that [ctype] does not reach. *)
Lemma dimensions_loop (types : list string) (flags : list bool) :
  for_each (combine (range (length flags)) flags)
    (fun axes_ctype '(i, axis) =>
       if negb axis then
         t <- getitem types i ;;
         ret (axes_ctype ++ [t])
       else ret axes_ctype)
    [] =
  if forallb (fun w => w <? len types) (non_missing_wcs_axes flags)
  then inr (map (fun w => nth (Z.to_nat w) types EmptyString)
                (non_missing_wcs_axes flags))
  else inl IndexError.
Proof.
  induction flags as [| b flags IH] using rev_ind; [reflexivity |].
  rewrite length_app, Nat.add_1_r, range_S, combine_snoc
    by (rewrite range_length; reflexivity).
  rewrite for_each_app, IH, non_missing_wcs_axes_snoc, forallb_app, map_app.
  destruct (forallb _ (non_missing_wcs_axes flags)); [| reflexivity].
  cbn [combine for_each bind andb]; destruct b; cbn [negb forallb map andb].
  - rewrite !app_nil_r; reflexivity.
  - change (Z.of_nat (length flags)) with (len flags).
    destruct (Z.ltb_spec (len flags) (len types)) as [Hlt | Hge]; cbn [andb].
    + rewrite (getitem_nth types (len flags) EmptyString) by (unfold len in *; lia).
      reflexivity.
    + rewrite getitem_nonneg by (unfold len; lia).
      destruct (nth_error types (Z.to_nat (len flags))) eqn:E; [| reflexivity].
      assert (Z.to_nat (len flags) < length types)%nat
        by (apply nth_error_Some; congruence).
      unfold len in *; lia.
Qed.

(** [dimensions] when [ctype] reaches every flag. *)
Lemma dimensions_value (self : NDCube) :
  (length (missing_axis self) <= length (ctype (wcs self)))%nat ->
  dimensions self = inr (data_shape self, axis_types_in_data_order self).
Proof.
  intros Hlen; unfold dimensions, axis_types_in_data_order.
  rewrite dimensions_loop.
  assert (E : forallb (fun w => w <? len (ctype (wcs self)))
                      (non_missing_wcs_axes (missing_axis self)) = true).
  { apply forallb_forall; intros w Hw; apply Z.ltb_lt.
    unfold non_missing_wcs_axes in Hw; apply filter_In in Hw as (Hw & _).
    apply in_range in Hw; unfold len; lia. }
  rewrite E; cbn [bind ret]; unfold wcs_axes_in_data_order.
  rewrite map_rev; reflexivity.
Qed.

Lemma dimensions_inr (self : NDCube) shape types :
  dimensions self = inr (shape, types) -> shape = data_shape self.
Proof.
  unfold dimensions; intros H; apply bind_inr in H as (t & _ & H).
  injection H as <- _; reflexivity.
Qed.

(** X1.  When [ctype] has an entry for every flag, [dimensions] returns the
    shape of the data and the axis types of the non-missing WCS axes in
    data order, the order in which [pixel_to_world] returns its values;
    there are as many axis types as non-missing axes. *)
Theorem dimensions_axis_types_in_data_order (self : NDCube) :
  (length (missing_axis self) <= length (ctype (wcs self)))%nat ->
  dimensions self = inr (data_shape self, axis_types_in_data_order self) /\
  length (axis_types_in_data_order self)
    = length (wcs_axes_in_data_order (missing_axis self)) /\
  len (axis_types_in_data_order self) = count_non_missing (missing_axis self).
Proof.
  intros Hlen; split; [apply dimensions_value; assumption |].
  unfold axis_types_in_data_order, len; rewrite length_map; split; [reflexivity |].
  symmetry; apply count_non_missing_order.
Qed.

(** A non-missing axis without a [ctype] entry makes [dimensions] raise. *)
Lemma dimensions_short_ctype (self : NDCube) (w : Z) :
  In w (non_missing_wcs_axes (missing_axis self)) ->
  len (ctype (wcs self)) <= w ->
  dimensions self = inl IndexError.
Proof.
  intros Hw Hle; unfold dimensions; rewrite dimensions_loop.
  assert (E : forallb (fun w => w <? len (ctype (wcs self)))
                      (non_missing_wcs_axes (missing_axis self)) = false).
  { apply not_true_is_false; intros H; rewrite forallb_forall in H.
    specialize (H w Hw); apply Z.ltb_lt in H; lia. }
  rewrite E; reflexivity.
Qed.

Lemma dimensions_axis_types_in_data_order_witness :
  dimensions cube_wave = inr ([4], ["WAVE"%string]) /\
  dimensions cube_image = inr ([4; 6], ["HPLT-TAN"; "HPLN-TAN"]%string).
Proof.
  split.
  - apply (dimensions_axis_types_in_data_order cube_wave); simpl; lia.
  - apply (dimensions_axis_types_in_data_order cube_image); simpl; lia.
Defined.

(* ===================================================================== *)
(** * What the constructor guarantees                                     *)
(* ===================================================================== *)

Lemma count_non_missing_all_present (n : nat) :
  count_non_missing (repeat false n) = Z.of_nat n.
Proof.
  unfold count_non_missing.
  assert (H : forall c, fold_left (fun count (bool_ : bool) =>
                                     if negb bool_ then count + 1 else count)
                                  (repeat false n) c = c + Z.of_nat n).
  { induction n as [| n IH]; intros c; [simpl; lia |].
    cbn [repeat fold_left negb]; rewrite IH; lia. }
  rewrite H; lia.
Qed.

Section construction_facts.

Context {collab : Collaborators}.

(** What a cube that the constructor returned is made of. *)
Lemma init_inr data w extra_coords flags cube :
  __init__ data w extra_coords flags = inr cube ->
  data_shape cube = data /\ wcs cube = w /\
  missing_axis cube =
    match flags with
    | None => repeat false (Z.to_nat (naxis w))
    | Some m => m
    end /\
  (len data = naxis w \/
   count_non_missing (missing_axis cube) = len data).
Proof.
  unfold __init__; intros H.
  apply bind_inr in H as (checked & Hcheck & H).
  apply bind_inr in H as (extra & _ & H); injection H as <-; cbn.
  repeat split.
  destruct (Z.eqb_spec (len data) (naxis w)) as [E | E]; [left; exact E | right].
  cbn [negb] in Hcheck.
  destruct (Z.eqb_spec (count_non_missing
                          match flags with
                          | Some m => m
                          | None => repeat false (Z.to_nat (naxis w))
                          end) (len data)); [assumption | discriminate].
Qed.

(** X2.  Without [missing_axis] every WCS axis counts as present: the
    constructor accepts the data exactly when its rank is [naxis], and
    raises the rank-mismatch error otherwise, whatever the extra
    coordinates. *)
Theorem init_without_flags (data : list Z) (w : WCS) :
  0 <= naxis w ->
  (len data = naxis w ->
   __init__ data w [] None
     = inr (mkNDCube data w (repeat false (Z.to_nat (naxis w))) None)) /\
  (len data <> naxis w ->
   forall extra_coords,
     __init__ data w extra_coords None = inl (ValueError rank_mismatch_message)) /\
  (forall extra_coords cube,
     __init__ data w extra_coords None = inr cube ->
     len data = naxis w /\
     count_non_missing (missing_axis cube) = len (data_shape cube)).
Proof.
  intros Hn; split; [| split].
  - intros E; unfold __init__; apply Z.eqb_eq in E; rewrite E; reflexivity.
  - intros E extra_coords; unfold __init__.
    apply Z.eqb_neq in E; rewrite E; cbn [negb].
    rewrite count_non_missing_all_present, Z2Nat.id by assumption.
    rewrite Z.eqb_sym, E; reflexivity.
  - intros extra_coords cube H.
    destruct (init_inr _ _ _ _ _ H) as (Hd & _ & Hm & Hrank).
    rewrite Hm, Hd, count_non_missing_all_present, Z2Nat.id in * by assumption.
    destruct Hrank as [E | E]; split; congruence.
Qed.

(** X3.  A cube that the constructor returned after checking its flags (the
    data rank is not [naxis]) has as many non-missing axes as data axes; so
    when its WCS tables match its flags and the solvers answer, an input
    with one convertible entry per data axis makes [pixel_to_world] and
    [world_to_pixel] return one quantity per data axis. *)
Theorem constructed_cube_returns_one_value_per_data_axis
    (data : list Z) (w : WCS) (extra_coords : list extra_coord)
    (flags : list bool) (cube : NDCube)
    (pixels worlds : list Quantity) (origin : Z) :
  __init__ data w extra_coords (Some flags) = inr cube ->
  len data <> naxis w ->
  consistent cube ->
  answers (all_pix2world w) (length flags) ->
  answers (all_world2pix w) (length flags) ->
  len pixels = len data ->
  Forall (fun q => exists q', to q pix = inr q') pixels ->
  Forall2 (fun q axis =>
             exists q', to q (nth (Z.to_nat axis) (cunit w) EmptyString) = inr q')
          worlds (wcs_axes_in_data_order flags) ->
  count_non_missing (missing_axis cube) = len (data_shape cube) /\
  (exists out,
      pixel_to_world cube pixels origin = inr (world_quantities cube out) /\
      len (world_quantities cube out) = len (data_shape cube)) /\
  (exists out,
      world_to_pixel cube worlds origin = inr (pixel_quantities cube out) /\
      len (pixel_quantities cube out) = len (data_shape cube)).
Proof.
  intros Hinit Hrank Hc Hfwd Hbwd Hlen Hpix Hworld.
  destruct (init_inr _ _ _ _ _ Hinit) as (Hd & Hw & Hm & Hcount).
  destruct Hcount as [E | Hcount]; [contradiction |].
  rewrite Hd; split; [assumption | split].
  - destruct (pixel_to_world_runs cube pixels origin Hc) as (args & out & _ & _ & H).
    + rewrite Hw, Hm; assumption.
    + lia.
    + intros j q _ Hq; apply nth_error_In in Hq.
      rewrite Forall_forall in Hpix; apply Hpix; assumption.
    + exists out; split; [assumption |].
      rewrite <- Hcount, count_non_missing_order.
      unfold world_quantities, len; rewrite length_map; reflexivity.
  - destruct (world_to_pixel_runs cube worlds origin Hc) as (args & out & _ & _ & H).
    + rewrite Hw, Hm; assumption.
    + rewrite Hm, count_non_missing_order; unfold len.
      rewrite (Forall2_length Hworld); lia.
    + rewrite Hw, Hm; intros j axis q Hj Hq.
      exact (Forall2_at _ _ _ Hworld j q axis Hq Hj).
    + exists out; split; [assumption |].
      rewrite <- Hcount, count_non_missing_order.
      unfold pixel_quantities, len; rewrite length_map; reflexivity.
Qed.

(** X4.  A cube with fewer flags than its WCS has axes cannot be
    transformed: the first flag looked up lies beyond the end of the list,
    and both transforms raise [IndexError] on every input. *)
Theorem transforms_need_a_flag_per_axis
    (self : NDCube) (qal : list Quantity) (origin : Z) :
  missing_axis self <> [] ->
  len (missing_axis self) < naxis (wcs self) ->
  pixel_to_world self qal origin = inl IndexError /\
  world_to_pixel self qal origin = inl IndexError.
Proof.
  intros Hne Hlt.
  assert (Hflag : getitem (missing_axis self) (naxis (wcs self) - 1 - 0)
                  = inl IndexError).
  { rewrite getitem_nonneg by (unfold len in Hlt; lia).
    destruct (nth_error _ _) eqn:E; [| reflexivity].
    assert (Z.to_nat (naxis (wcs self) - 1 - 0) < length (missing_axis self))%nat
      by (apply nth_error_Some; congruence).
    unfold len in Hlt; lia. }
  destruct (missing_axis self) as [| b flags] eqn:Ef; [contradiction |].
  split.
  - unfold pixel_to_world, pixel_to_world_arguments; rewrite Ef.
    cbn [length range seq map for_each]; unfold range; cbn [seq map for_each].
    unfold pixel_to_world_step at 1; cbv zeta; change (Z.of_nat 0) with 0.
    rewrite Ef, Hflag; reflexivity.
  - unfold world_to_pixel, world_to_pixel_arguments; rewrite Ef.
    cbn [length range seq map for_each]; unfold range; cbn [seq map for_each].
    unfold world_to_pixel_step at 1; cbv zeta; change (Z.of_nat 0) with 0.
    rewrite Ef, Hflag; reflexivity.
Qed.

End construction_facts.

Lemma init_without_flags_witness :
  @__init__ plain_collab [8] wcs_wave [] None = inr cube_line /\
  (forall extra_coords,
      @__init__ plain_collab [4; 6; 2] wcs_lon_lat extra_coords None
        = inl (ValueError rank_mismatch_message)).
Proof.
  split.
  - apply (@init_without_flags plain_collab [8] wcs_wave); [simpl; lia | reflexivity].
  - apply (@init_without_flags plain_collab [4; 6; 2] wcs_lon_lat);
      [simpl; lia | vm_compute; discriminate].
Defined.

Lemma constructed_cube_returns_one_value_per_data_axis_witness :
  count_non_missing (missing_axis cube_wave) = len (data_shape cube_wave) /\
  (exists out,
      @pixel_to_world plain_collab cube_wave [px (3#1)] 0
        = inr (world_quantities cube_wave out) /\
      len (world_quantities cube_wave out) = len (data_shape cube_wave)) /\
  (exists out,
      @world_to_pixel plain_collab cube_wave [nm (3#1)] 0
        = inr (pixel_quantities cube_wave out) /\
      len (pixel_quantities cube_wave out) = len (data_shape cube_wave)).
Proof.
  apply (@constructed_cube_returns_one_value_per_data_axis plain_collab
           [4] wcs_lon_wave [] [true; false] cube_wave [px (3#1)] [nm (3#1)] 0).
  - reflexivity.
  - vm_compute; discriminate.
  - exact cube_wave_consistent.
  - apply identity_solver_answers.
  - apply identity_solver_answers.
  - reflexivity.
  - repeat constructor; eexists; reflexivity.
  - repeat constructor; eexists; reflexivity.
Defined.

(** A WCS with two axes under a single flag. *)
Lemma transforms_need_a_flag_per_axis_witness :
  @pixel_to_world plain_collab (mkNDCube [4] wcs_lon_wave [false] None)
                  [px (3#1)] 0 = inl IndexError /\
  @world_to_pixel plain_collab (mkNDCube [4] wcs_lon_wave [false] None)
                  [nm (3#1)] 0 = inl IndexError.
Proof.
  split.
  - apply (@transforms_need_a_flag_per_axis plain_collab
             (mkNDCube [4] wcs_lon_wave [false] None) [px (3#1)] 0);
      [discriminate | vm_compute; reflexivity].
  - apply (@transforms_need_a_flag_per_axis plain_collab
             (mkNDCube [4] wcs_lon_wave [false] None) [nm (3#1)] 0);
      [discriminate | vm_compute; reflexivity].
Defined.

(* ===================================================================== *)
(** * Pixel to world and back                                             *)
(* ===================================================================== *)

Lemma all_present_in_order (flags : list bool) (w : Z) :
  Forall (fun b => b = false) flags ->
  0 <= w < len flags ->
  In w (wcs_axes_in_data_order flags).
Proof.
  intros Hall Hw; unfold wcs_axes_in_data_order, non_missing_wcs_axes.
  rewrite <- in_rev; apply filter_In; split; [apply in_range; exact Hw |].
  destruct (nth_error flags (Z.to_nat w)) as [b |] eqn:E.
  - rewrite Forall_forall in Hall; rewrite (Hall b (nth_error_In _ _ E)).
    reflexivity.
  - apply nth_error_None in E; unfold len in Hw; lia.
Qed.

Lemma count_non_missing_none_missing (flags : list bool) :
  Forall (fun b => b = false) flags -> count_non_missing flags = len flags.
Proof.
  intros Hall.
  assert (E : flags = repeat false (length flags)).
  { induction Hall as [| b flags -> _ IH]; [reflexivity |].
    simpl; f_equal; exact IH. }
  rewrite E at 1; apply count_non_missing_all_present.
Qed.

Lemma same_entries {A} (l l' : list A) (d : A) :
  length l = length l' ->
  (forall i, (i < length l)%nat -> nth_error l i = Some (nth i l' d)) ->
  l = l'.
Proof.
  intros Hlen H; apply nth_error_ext; intros i.
  destruct (Nat.lt_ge_cases i (length l)) as [Hi | Hi].
  - rewrite (H i Hi); symmetry; apply nth_error_nth'; lia.
  - rewrite (proj2 (nth_error_None l i)), (proj2 (nth_error_None l' i)) by lia.
    reflexivity.
Qed.

Section round_trip.

Context {collab : Collaborators}.

(** What [world_to_pixel] returns, given its argument vector and the
    solver's answer to it. *)
Lemma world_to_pixel_result self qal origin args out :
  world_to_pixel_arguments self qal origin
    = inr (args, wcs_axes_in_data_order (missing_axis self)) ->
  all_world2pix (wcs self) args origin = inr out ->
  length out = length (missing_axis self) ->
  world_to_pixel self qal origin = inr (pixel_quantities self out).
Proof.
  intros Harg Hout Hlen; unfold world_to_pixel.
  rewrite Harg; cbn [bind]; rewrite Hout; cbn [bind].
  rewrite collect_pixel; cbn [bind ret app].
  - unfold pixel_quantities; rewrite <- map_rev, rev_involutive; reflexivity.
  - intros w Hw; apply in_rev, in_order_range in Hw; unfold len in *; lia.
Qed.

(** The argument vector of [world_to_pixel] exists when the input has an
    entry for every non-missing axis and each converts to its axis's unit. *)
Lemma world_to_pixel_arguments_exist self qal origin :
  consistent self ->
  count_non_missing (missing_axis self) <= len qal ->
  (forall j w q, nth_error (wcs_axes_in_data_order (missing_axis self)) j = Some w ->
     nth_error qal j = Some q ->
     exists q', to q (nth (Z.to_nat w) (cunit (wcs self)) EmptyString) = inr q') ->
  exists args,
    world_to_pixel_arguments self qal origin
      = inr (args, wcs_axes_in_data_order (missing_axis self)).
Proof.
  intros (Hn & _ & Hval & Hunit) Hlen Hconv.
  destruct (visited_completes (missing_axis self) (world_anchor self origin)
              (world_convert self) qal Hlen) as (st' & Hloop).
  - intros w Hw Hf.
    assert (Z.to_nat w < length (missing_axis self))%nat
      by (apply nth_error_Some; congruence).
    unfold world_anchor.
    rewrite (getitem_nth (crval (wcs self)) w 0%Q) by (unfold len; lia).
    simpl; eauto.
  - intros j w q Hj Hq.
    destruct (Hconv j w q Hj Hq) as (q' & Hq').
    assert (Hr : 0 <= w < len (missing_axis self))
      by (apply in_order_range; eapply nth_error_In; eassumption).
    unfold world_convert.
    rewrite (getitem_nth (cunit (wcs self)) w EmptyString) by (unfold len in *; lia).
    simpl; rewrite Hq'; simpl; eauto.
  - destruct (visited_entries _ _ _ _ _ Hloop) as (_ & Hidx & _).
    exists (rev (list_arg st')); unfold world_to_pixel_arguments.
    rewrite world_loop_visits, Hloop by assumption; simpl.
    rewrite Hidx; reflexivity.
Qed.

(** X5.  Round trip.  On a cube without missing axes whose WCS tables match
    its flags, with an inverse solver that undoes the forward one and a
    conversion that leaves a quantity alone when asked for its own unit,
    [world_to_pixel] applied to the result of [pixel_to_world] gives back
    the pixel quantities it started from. *)
Theorem pixel_world_round_trip
    (self : NDCube) (pixels : list Quantity) (origin : Z) :
  consistent self ->
  Forall (fun b => b = false) (missing_axis self) ->
  undoes (all_pix2world (wcs self)) (all_world2pix (wcs self))
         (length (missing_axis self)) ->
  (forall q, to q (qunit q) = inr q) ->
  len pixels = len (missing_axis self) ->
  Forall (fun q => qunit q = pix) pixels ->
  exists worlds,
    pixel_to_world self pixels origin = inr worlds /\
    world_to_pixel self worlds origin = inr pixels.
Proof.
  intros Hc Hall Hundo Hto Hlen Hpix.
  pose proof Hc as (Hn & _ & _ & Hunit).
  pose proof (count_non_missing_none_missing _ Hall) as Hcount.
  assert (Hanswers : answers (all_pix2world (wcs self)) (length (missing_axis self))).
  { intros args o Hargs; destruct (Hundo args o Hargs) as (out & H1 & H2 & _).
    eauto. }
  destruct (pixel_to_world_runs self pixels origin Hc Hanswers)
    as (args & out & Harg & Hout & Hp2w); [lia | |].
  { intros j q _ Hq; apply nth_error_In in Hq.
    rewrite Forall_forall in Hpix; rewrite <- (Hpix q Hq); eauto. }
  destruct (pixel_to_world_arguments_entries self pixels origin args _ Hn Harg)
    as (Hargs & _ & _ & Hfed).
  destruct (Hundo args origin Hargs) as (out' & Hout' & Hlout & Hback).
  rewrite Hout in Hout'; injection Hout' as <-.
  exists (world_quantities self out); split; [assumption |].
  (* the worlds convert to themselves *)
  assert (Hworld : forall j w q,
             nth_error (wcs_axes_in_data_order (missing_axis self)) j = Some w ->
             nth_error (world_quantities self out) j = Some q ->
             q = mkQuantity (nth (Z.to_nat w) out 0%Q)
                            (nth (Z.to_nat w) (cunit (wcs self)) EmptyString)).
  { intros j w q Hj Hq; unfold world_quantities in Hq.
    rewrite nth_error_map, Hj in Hq; injection Hq as <-; reflexivity. }
  destruct (world_to_pixel_arguments_exist self (world_quantities self out) origin Hc)
    as (args' & Harg').
  { unfold world_quantities, len; rewrite length_map.
    rewrite count_non_missing_order; unfold len; lia. }
  { intros j w q Hj Hq; rewrite (Hworld j w q Hj Hq).
    eexists; apply (Hto (mkQuantity _ _)). }
  destruct (world_to_pixel_arguments_entries self _ origin args' _ Hn Harg')
    as (Hargs' & _ & _ & Hfed').
  (* the inverse solver is handed the forward solver's output *)
  assert (Eargs : args' = out).
  { apply (same_entries _ _ 0%Q); [congruence |].
    intros i Hi; rewrite Hargs' in Hi.
    assert (Hin : In (Z.of_nat i) (wcs_axes_in_data_order (missing_axis self)))
      by (apply all_present_in_order; [assumption | unfold len; lia]).
    apply In_nth_error in Hin as (j & Hj).
    destruct (Hfed' j _ Hj) as (q & un & q' & Hq & Hun & Hconv & Hentry).
    rewrite Nat2Z.id in Hentry, Hun; rewrite Hentry.
    assert (Eq : q = mkQuantity (nth i out 0%Q) un).
    { rewrite (Hworld j _ q Hj Hq), Nat2Z.id; f_equal.
      apply nth_error_nth; exact Hun. }
    rewrite Eq, (Hto (mkQuantity _ un)) in Hconv; injection Hconv as <-.
    reflexivity. }
  subst args'.
  rewrite (world_to_pixel_result self _ origin out args Harg' Hback Hargs).
  f_equal; unfold pixel_quantities.
  apply (same_entries _ _ (mkQuantity 0 pix)).
  - rewrite length_map; apply Nat2Z.inj.
    fold (len (wcs_axes_in_data_order (missing_axis self))).
    rewrite <- count_non_missing_order, Hcount; unfold len in *; lia.
  - intros j Hj; rewrite length_map in Hj.
    destruct (nth_error (wcs_axes_in_data_order (missing_axis self)) j)
      as [w |] eqn:Hw; [| apply nth_error_None in Hw; lia].
    rewrite nth_error_map, Hw; cbn [option_map].
    destruct (Hfed j w Hw) as (q & q' & Hq & Hconv & Hentry).
    assert (Hunit_q : qunit q = pix)
      by (rewrite Forall_forall in Hpix; apply Hpix; eapply nth_error_In; eassumption).
    rewrite <- Hunit_q, Hto in Hconv; injection Hconv as <-.
    rewrite (nth_error_nth _ _ 0%Q Hentry), (nth_error_nth _ _ (mkQuantity 0 pix) Hq).
    destruct q as (v, un); cbn in *; subst un; reflexivity.
Qed.

End round_trip.

Lemma identity_solver_undoes (n : nat) : undoes identity_solver identity_solver n.
Proof.
  intros args origin H; exists args; repeat split; assumption.
Qed.

Lemma pixel_world_round_trip_witness :
  exists worlds,
    @pixel_to_world plain_collab cube_image [px (3#1); px (2#1)] 0 = inr worlds /\
    @world_to_pixel plain_collab cube_image worlds 0 = inr [px (3#1); px (2#1)].
Proof.
  apply (@pixel_world_round_trip plain_collab cube_image [px (3#1); px (2#1)] 0).
  - exact cube_image_consistent.
  - repeat constructor.
  - apply identity_solver_undoes.
  - intros q; cbn; unfold same_unit_to; rewrite String.eqb_refl; reflexivity.
  - reflexivity.
  - repeat constructor.
Defined.

(* ===================================================================== *)
(** * More on cropping                                                    *)
(* ===================================================================== *)

Section crop_facts.

Context {collab : Collaborators}.

(** The pieces of a completed [crop_slices]. *)
Lemma crop_slices_inr self lower widths slic :
  crop_slices self lower widths = inr slic ->
  exists lower_pixels upper_corner upper_pixels,
    world_to_pixel self lower 0 = inr lower_pixels /\
    comprehension
      (fun i =>
         l <- getitem lower i ;;
         w <- getitem widths i ;;
         quantity_add l w)
      (range (length (data_shape self))) = inr upper_corner /\
    world_to_pixel self upper_corner 0 = inr upper_pixels /\
    comprehension
      (fun i =>
         lo <- getitem (map (fun l => rint (value l)) lower_pixels) i ;;
         up <- getitem (map (fun u => rint (value u)) upper_pixels) i ;;
         ret (mkSlice lo up))
      (range (length (data_shape self))) = inr slic.
Proof.
  unfold crop_slices; intros H.
  apply bind_inr in H as ((shape & types) & Hd & H).
  apply dimensions_inr in Hd; subst shape.
  apply bind_inr in H as (checked & _ & H).
  apply bind_inr in H as (lower_pixels & Hlo & H).
  apply bind_inr in H as (upper_corner & Hcorner & H).
  apply bind_inr in H as (upper_pixels & Hup & H).
  exists lower_pixels, upper_corner, upper_pixels; auto.
Qed.

(** A comprehension over [range n] that completes has found entry [i] of
    every list it indexes with [i]. *)
Lemma indexed_up_to {A B} (l : list A) (k : Z -> A -> result B) (n : nat) ys :
  comprehension (fun i => x <- getitem l i ;; k i x) (range n) = inr ys ->
  (n <= length l)%nat.
Proof.
  intros H; destruct n as [| n]; [lia |].
  destruct (comprehension_inr _ _ _ H) as (_ & Hnth).
  destruct (Hnth n (Z.of_nat n)) as (y & _ & Hy); [apply nth_error_range; lia |].
  apply bind_inr in Hy as (x & Hx & _).
  apply getitem_inr_nonneg in Hx; unfold len in Hx; lia.
Qed.

(** X6.  A crop that succeeds hands the slicing exactly one slice per data
    axis, and has found an entry for every data axis in both the lower
    corner and the widths. *)
Theorem crop_slices_one_per_data_axis
    (self : NDCube) (lower_left_corner dimension_widths : list Quantity)
    (cropped : NDCube) :
  crop_by_coords self lower_left_corner dimension_widths = inr cropped ->
  exists slic,
    crop_slices self lower_left_corner dimension_widths = inr slic /\
    cube_getitem self slic = inr cropped /\
    length slic = length (data_shape self) /\
    (length (data_shape self) <= length lower_left_corner)%nat /\
    (length (data_shape self) <= length dimension_widths)%nat.
Proof.
  unfold crop_by_coords; intros H.
  apply bind_inr in H as (slic & Hslic & Hget).
  exists slic; split; [assumption | split; [assumption |]].
  destruct (crop_slices_inr _ _ _ _ Hslic)
    as (lower_pixels & upper_corner & upper_pixels & _ & Hcorner & _ & Hfinal).
  destruct (comprehension_inr _ _ _ Hfinal) as (Hlen & _).
  rewrite range_length in Hlen; split; [assumption | split].
  - exact (indexed_up_to lower_left_corner
             (fun i l => w <- getitem dimension_widths i ;; quantity_add l w)
             _ _ Hcorner).
  - destruct (length (data_shape self)) as [| n] eqn:En; [lia |].
    destruct (comprehension_inr _ _ _ Hcorner) as (_ & Hnth).
    destruct (Hnth n (Z.of_nat n)) as (y & _ & Hy); [apply nth_error_range; lia |].
    apply bind_inr in Hy as (l & _ & Hy).
    apply bind_inr in Hy as (w & Hw & _).
    apply getitem_inr_nonneg in Hw; unfold len in Hw; lia.
Qed.

(** When adding the width changes no entry, the upper corner is the lower
    corner cut to the data rank. *)
Lemma unchanged_corner lower widths n upper_corner :
  (forall i l w, nth_error lower i = Some l -> nth_error widths i = Some w ->
                 quantity_add l w = inr l) ->
  comprehension
    (fun i =>
       l <- getitem lower i ;;
       w <- getitem widths i ;;
       quantity_add l w)
    (range n) = inr upper_corner ->
  upper_corner = firstn n lower.
Proof.
  intros Hadd H.
  pose proof (indexed_up_to lower
                (fun i l => w <- getitem widths i ;; quantity_add l w) _ _ H) as Hn.
  destruct (comprehension_inr _ _ _ H) as (Hlen & Hnth).
  rewrite range_length in Hlen.
  apply nth_error_ext; intros i; rewrite nth_error_firstn.
  destruct (Nat.ltb_spec i n) as [Hi | Hi];
    [| apply nth_error_None; lia].
  destruct (Hnth i (Z.of_nat i) (nth_error_range _ _ Hi)) as (y & -> & Hy).
  apply bind_inr in Hy as (l & Hl & Hy).
  apply bind_inr in Hy as (w & Hw & Hy).
  rewrite getitem_nonneg, Nat2Z.id in Hl, Hw by lia.
  destruct (nth_error lower i) as [l' |] eqn:El; [| discriminate].
  destruct (nth_error widths i) as [w' |] eqn:Ew; [| discriminate].
  injection Hl as ->; injection Hw as ->.
  rewrite (Hadd i l w El Ew) in Hy; injection Hy as <-; reflexivity.
Qed.

(** X7.  Widths that change nothing.  On a cube whose [naxis] is its number
    of flags and that has no more non-missing axes than data axes, a crop
    whose widths leave every corner entry as it is yields, on every axis, a
    slice that stops where it starts. *)
Theorem crop_with_unchanged_corner_is_empty
    (self : NDCube) (lower_left_corner dimension_widths : list Quantity)
    (slic : list slice) :
  naxis (wcs self) = len (missing_axis self) ->
  count_non_missing (missing_axis self) <= len (data_shape self) ->
  (forall i l w,
      nth_error lower_left_corner i = Some l ->
      nth_error dimension_widths i = Some w ->
      quantity_add l w = inr l) ->
  crop_slices self lower_left_corner dimension_widths = inr slic ->
  length slic = length (data_shape self) /\
  Forall (fun s => start s = stop s) slic.
Proof.
  intros Hn Hcount Hadd Hslic.
  destruct (crop_slices_inr _ _ _ _ Hslic)
    as (lower_pixels & upper_corner & upper_pixels & Hlo & Hcorner & Hup & Hfinal).
  pose proof (indexed_up_to lower_left_corner
                (fun i l => w <- getitem dimension_widths i ;; quantity_add l w)
                _ _ Hcorner) as Hrank.
  rewrite (unchanged_corner _ _ _ _ Hadd Hcorner) in Hup.
  rewrite <- (firstn_skipn (length (data_shape self)) lower_left_corner) in Hlo.
  rewrite world_to_pixel_excess in Hlo;
    [| assumption | unfold len in *; rewrite length_firstn; lia].
  rewrite Hup in Hlo; injection Hlo as <-.
  destruct (comprehension_inr _ _ _ Hfinal) as (Hlen & Hnth).
  rewrite range_length in Hlen; split; [assumption |].
  apply Forall_forall; intros s Hs.
  apply In_nth_error in Hs as (i & Hi).
  assert (Hlt : (i < length (data_shape self))%nat)
    by (rewrite <- Hlen; apply nth_error_Some; congruence).
  destruct (Hnth i (Z.of_nat i) (nth_error_range _ _ Hlt)) as (s' & Hs' & Hf).
  rewrite Hi in Hs'; injection Hs' as <-.
  apply bind_inr in Hf as (lo & Hlo & Hf).
  apply bind_inr in Hf as (up & Hup' & Hf); injection Hf as <-.
  rewrite Hlo in Hup'; injection Hup' as <-; reflexivity.
Qed.

(** X8.  The guard of [crop_by_coords].  When [ctype] reaches every flag,
    a lower corner and widths of different lengths, the widths not being
    as many as the data axes, are refused with the element-count error
    before any coordinate is converted or any slice taken. *)
Theorem crop_refuses_unequal_lengths
    (self : NDCube) (lower_left_corner dimension_widths : list Quantity) :
  (length (missing_axis self) <= length (ctype (wcs self)))%nat ->
  len lower_left_corner <> len dimension_widths ->
  len dimension_widths <> len (data_shape self) ->
  crop_slices self lower_left_corner dimension_widths
    = inl (ValueError crop_count_message) /\
  crop_by_coords self lower_left_corner dimension_widths
    = inl (ValueError crop_count_message).
Proof.
  intros Hc H1 H2.
  assert (E : crop_slices self lower_left_corner dimension_widths
              = inl (ValueError crop_count_message)).
  { unfold crop_slices; rewrite (dimensions_value self Hc); cbn [bind].
    apply Z.eqb_neq in H1; fold (len (data_shape self)); apply Z.eqb_neq in H2.
    rewrite H1, H2; reflexivity. }
  split; [exact E | unfold crop_by_coords; rewrite E; reflexivity].
Qed.

End crop_facts.

Lemma crop_slices_one_per_data_axis_witness :
  exists slic,
    @crop_slices plain_collab cube_line [nm (3 # 2)] [nm (2 # 1)] = inr slic /\
    @cube_getitem plain_collab cube_line slic
      = inr (mkNDCube [2] wcs_wave [false] None) /\
    length slic = length (data_shape cube_line) /\
    (length (data_shape cube_line) <= length [nm (3 # 2)])%nat /\
    (length (data_shape cube_line) <= length [nm (2 # 1)])%nat.
Proof.
  apply (@crop_slices_one_per_data_axis plain_collab cube_line
           [nm (3 # 2)] [nm (2 # 1)]).
  reflexivity.
Defined.

Lemma crop_with_unchanged_corner_is_empty_witness :
  length [mkSlice 2 2] = length (data_shape cube_line) /\
  Forall (fun s => start s = stop s) [mkSlice 2 2].
Proof.
  apply (@crop_with_unchanged_corner_is_empty plain_collab cube_line
           [nm (3 # 2)] [nm (0 # 1)] [mkSlice 2 2]).
  - reflexivity.
  - vm_compute; discriminate.
  - intros [| i] l w Hl Hw; simpl in Hl, Hw; [| destruct i; discriminate].
    injection Hl as <-; injection Hw as <-; reflexivity.
  - reflexivity.
Defined.

Lemma crop_refuses_unequal_lengths_witness :
  @crop_slices plain_collab cube_line [nm (1 # 1)] [nm (2 # 1); nm (3 # 1)]
    = inl (ValueError crop_count_message) /\
  @crop_by_coords plain_collab cube_line [nm (1 # 1)] [nm (2 # 1); nm (3 # 1)]
    = inl (ValueError crop_count_message).
Proof.
  apply (@crop_refuses_unequal_lengths plain_collab cube_line
           [nm (1 # 1)] [nm (2 # 1); nm (3 # 1)]).
  - simpl; lia.
  - vm_compute; discriminate.
  - vm_compute; discriminate.
Defined.

(* ===================================================================== *)
(** * What _sanitize_aligned_axes returns                                 *)
(* ===================================================================== *)

Module sanitize_results.

Import collection sanitize_facts.

Lemma guard_inr (b : bool) (e : exn) (u : unit) :
  (if b then raise e else ret tt) = inr u -> b = false.
Proof. destruct b; [discriminate | reflexivity]. Qed.

Lemma nth_error_combine {A B} (l1 : list A) (l2 : list B) : forall i a b,
  nth_error l1 i = Some a -> nth_error l2 i = Some b ->
  nth_error (combine l1 l2) i = Some (a, b).
Proof.
  revert l2; induction l1 as [| x l1 IH]; intros [| y l2] [| i] a b Ha Hb;
    try discriminate; simpl in *.
  - injection Ha as <-; injection Hb as <-; reflexivity.
  - apply IH; assumption.
Qed.

Lemma Forall2_pointwise {A B} (P : A -> B -> Prop) (l1 : list A) (l2 : list B) :
  length l1 = length l2 ->
  (forall i a b, nth_error l1 i = Some a -> nth_error l2 i = Some b -> P a b) ->
  Forall2 P l1 l2.
Proof.
  revert l2; induction l1 as [| x l1 IH]; intros [| y l2] Hlen H;
    try discriminate; constructor.
  - apply (H 0%nat); reflexivity.
  - apply IH; [simpl in Hlen; lia |].
    intros i a b Ha Hb; apply (H (S i)); assumption.
Qed.

(** A list whose set has one element holds that element only. *)
Lemma nodup_singleton (l : list Z) :
  len (nodup Z.eq_dec l) = 1 -> exists e, forall x, In x l -> x = e.
Proof.
  unfold len; intros H.
  destruct (nodup Z.eq_dec l) as [| e [| e' rest]] eqn:E; try (simpl in H; lia).
  exists e; intros x Hx; apply (nodup_In Z.eq_dec) in Hx.
  rewrite E in Hx; destruct Hx as [-> | []]; reflexivity.
Qed.

Lemma nodup_constant (l : list Z) (e : Z) :
  l <> [] -> (forall x, In x l -> x = e) -> nodup Z.eq_dec l = [e].
Proof.
  induction l as [| x l IH]; intros Hne Hall; [contradiction |].
  assert (x = e) by (apply Hall; left; reflexivity); subst x.
  simpl; destruct (in_dec Z.eq_dec e l) as [Hin | Hout].
  - apply IH; [intros ->; contradiction | intros; apply Hall; right; assumption].
  - destruct l as [| y l]; [reflexivity |].
    exfalso; apply Hout; left; apply Hall; right; left; reflexivity.
Qed.

Lemma set_is_one_spec (check : list Z) :
  set_is_one check = true <-> check <> [] /\ forall c, In c check -> c = 1.
Proof.
  unfold set_is_one; destruct check as [| c check]; split.
  - discriminate.
  - intros (H & _); contradiction.
  - intros H; rewrite forallb_forall in H; split; [discriminate |].
    intros x Hx; apply Z.eqb_eq, H, Hx.
  - intros (_ & H); apply forallb_forall; intros x Hx; apply Z.eqb_eq, H, Hx.
Qed.

(** The closing check passes only on tuples that name, position by
    position, axes of one common extent. *)
Lemma check_dimensions_passed data aligned_axes k check :
  length aligned_axes = length data ->
  check_dimensions data aligned_axes k = inr check ->
  set_is_one check = true ->
  (0 < k)%nat /\
  forall j, (j < k)%nat ->
    exists extent,
      Forall2 (fun cube t =>
                 exists axis, nth_error t j = Some axis /\
                              dims_getitem (dimensions cube) axis = inr extent)
              data aligned_axes.
Proof.
  intros Hlen Hcheck Hone; apply set_is_one_spec in Hone as (Hne & Hone).
  unfold check_dimensions in Hcheck.
  destruct (comprehension_inr _ _ _ Hcheck) as (Hk & Hnth).
  rewrite range_length in Hk; split.
  { destruct check; [contradiction | simpl in Hk; lia]. }
  intros j Hj.
  destruct (Hnth j (Z.of_nat j) (nth_error_range _ _ Hj)) as (c & Hc & Hf).
  apply bind_inr in Hf as (extents & Hext & Hf); injection Hf as <-.
  destruct (nodup_singleton extents (Hone _ (nth_error_In _ _ Hc))) as (e & He).
  exists e; apply Forall2_pointwise; [lia |].
  intros i cube t Hcube Ht.
  destruct (comprehension_inr _ _ _ Hext) as (_ & Hpair).
  destruct (Hpair i (cube, t) (nth_error_combine _ _ _ _ _ Hcube Ht))
    as (x & Hx & Hfx).
  apply bind_inr in Hfx as (axis & Haxis & Hdim).
  rewrite (He x (nth_error_In _ _ Hx)) in Hdim.
  rewrite getitem_nonneg, Nat2Z.id in Haxis by lia.
  destruct (nth_error t j) as [a |]; [| discriminate].
  injection Haxis as ->; eauto.
Qed.

Lemma all_tuples_branch_inr data tuples cube0_dims aligned_axes k :
  all_tuples_branch data tuples cube0_dims = inr (aligned_axes, k) ->
  aligned_axes = tuples /\ length tuples = length data /\
  Forall (fun t => length t = k) tuples.
Proof.
  unfold all_tuples_branch; intros H.
  apply bind_inr in H as (u1 & Hcount & H); apply guard_inr in Hcount.
  apply bind_inr in H as (axes0 & _ & H).
  apply bind_inr in H as (u2 & Hsame & H); apply guard_inr in Hsame.
  apply bind_inr in H as ((ints & same) & _ & H).
  apply bind_inr in H as (u3 & _ & H).
  apply bind_inr in H as (u4 & _ & H); injection H as <- <-.
  apply negb_false_iff in Hcount, Hsame; apply Z.eqb_eq in Hcount.
  repeat split; [unfold len in Hcount; lia |].
  apply Forall_forall; intros t Ht; rewrite forallb_forall in Hsame.
  specialize (Hsame t Ht); apply Z.eqb_eq in Hsame; unfold len in Hsame; lia.
Qed.

Lemma ints_of_length items :
  forallb is_int items = true -> length (ints_of items) = length items.
Proof.
  induction items as [| [i | t] items IH]; simpl; intros H;
    [reflexivity | rewrite IH by assumption; reflexivity | discriminate].
Qed.

Lemma ints_of_ints ints : ints_of (map AInt ints) = ints.
Proof.
  induction ints as [| i ints IH]; simpl; [reflexivity | rewrite IH; reflexivity].
Qed.

Lemma all_ints ints : forallb is_int (map AInt ints) = true.
Proof.
  induction ints as [| i ints IH]; simpl; [reflexivity | exact IH].
Qed.

(** What a returned alignment was made from. *)
Lemma sanitize_inr data aligned_axes result_ :
  _sanitize_aligned_axes data aligned_axes = inr result_ ->
  exists items k check,
    aligned_axes = AxTuple items /\
    items <> [] /\
    data <> [] /\
    ((forallb is_int items = true /\
      result_ = repeat (ints_of items) (length data) /\ k = length items) \/
     (forallb is_int items = false /\ forallb is_tuple items = true /\
      exists cube0_dims,
        all_tuples_branch data (tuples_of items) cube0_dims = inr (result_, k))) /\
    check_dimensions data result_ k = inr check /\
    set_is_one check = true.
Proof.
  unfold _sanitize_aligned_axes; intros H.
  apply bind_inr in H as (data0 & Hdata & H).
  apply bind_inr in H as (cube0_dims & Hcube0 & H).
  assert (Hsub : exists a0, subscript0 aligned_axes = inr a0).
  { destruct (dimensions data0); try discriminate;
      apply bind_inr in Hcube0 as (a0 & Ha0 & _); eauto. }
  destruct Hsub as (a0 & Ha0).
  destruct aligned_axes as [axis | items]; [discriminate |].
  apply bind_inr in H as ((aa & k) & Hbranch & H).
  apply bind_inr in H as (check & Hcheck & H).
  destruct (set_is_one check) eqn:Hone; [| discriminate].
  injection H as <-.
  exists items, k, check; repeat split; try assumption.
  - intros ->; discriminate.
  - intros ->; discriminate.
  - destruct (forallb is_int items); [left | right].
    + injection Hbranch as <- <-; auto.
    + destruct (forallb is_tuple items); [| discriminate]; eauto.
Qed.

Lemma Forall2_combine_In {A B} (P : A -> B -> Prop) (l1 : list A) (l2 : list B) :
  Forall2 P l1 l2 -> forall a b, In (a, b) (combine l1 l2) -> P a b.
Proof.
  induction 1 as [| x y l1 l2 Hxy _ IH]; intros a b Hin; [contradiction |].
  destruct Hin as [E | Hin]; [injection E as <- <-; assumption | auto].
Qed.

Lemma Forall2_repeat {A B} (P : A -> B -> Prop) (l : list A) (b : B) :
  Forall2 P l (repeat b (length l)) <-> Forall (fun a => P a b) l.
Proof.
  induction l as [| a l IH]; simpl; split; intros H; try constructor;
    inversion H; subst; try assumption; apply IH; assumption.
Qed.

(** Conversely, tuples that name axes of one common extent at every
    position pass the closing check. *)
Lemma check_dimensions_passes data aligned_axes k :
  length aligned_axes = length data -> data <> [] -> (0 < k)%nat ->
  (forall j, (j < k)%nat ->
     exists extent,
       Forall2 (fun cube t =>
                  exists axis, nth_error t j = Some axis /\
                               dims_getitem (dimensions cube) axis = inr extent)
               data aligned_axes) ->
  exists check,
    check_dimensions data aligned_axes k = inr check /\ set_is_one check = true.
Proof.
  intros Hlen Hne Hk Hext.
  exists (map (fun _ => 1) (range k)); split.
  - unfold check_dimensions; apply comprehension_map.
    intros x Hx; apply in_range in Hx.
    destruct (Hext (Z.to_nat x)) as (extent & Hall); [lia |].
    rewrite (comprehension_map _ (fun _ => extent)).
    + cbn [bind ret]; rewrite (nodup_constant _ extent); [reflexivity | |].
      * destruct data; [contradiction |]; destruct aligned_axes; discriminate.
      * intros y Hy; apply in_map_iff in Hy as (? & <- & _); reflexivity.
    + intros (cube, t) Hin.
      destruct (Forall2_combine_In _ _ _ Hall _ _ Hin) as (axis & Haxis & Hdim).
      rewrite getitem_nonneg, Haxis by lia; exact Hdim.
  - apply set_is_one_spec; split.
    + destruct k; [lia | discriminate].
    + intros c Hc; apply in_map_iff in Hc as (? & <- & _); reflexivity.
Qed.

End sanitize_results.

(** X9.  Whatever [_sanitize_aligned_axes] returns is an alignment: one
    tuple per member, all of one positive length, naming at each position
    axes that exist in their members and have one common extent there. *)
Theorem sanitize_result_is_aligned
    (data : list collection.member) (aligned_axes : collection.aligned_axes_t)
    (result_ : list (list Z)) :
  collection._sanitize_aligned_axes data aligned_axes = inr result_ ->
  length result_ = length data /\
  exists k,
    (0 < k)%nat /\
    Forall (fun t => length t = k) result_ /\
    forall j, (j < k)%nat ->
      exists extent,
        Forall2 (fun cube t =>
                   exists axis,
                     nth_error t j = Some axis /\
                     collection.dims_getitem (collection.dimensions cube) axis
                       = inr extent)
                data result_.
Proof.
  intros H.
  destruct (sanitize_results.sanitize_inr _ _ _ H)
    as (items & k & check & _ & _ & _ & Hbranch & Hcheck & Hone).
  assert (Hshape : length result_ = length data /\
                   Forall (fun t => length t = k) result_).
  { destruct Hbranch as [(Hints & -> & ->) | (_ & _ & c0 & Hb)].
    - rewrite repeat_length; split; [reflexivity |].
      apply Forall_forall; intros t Ht; apply repeat_spec in Ht; subst t.
      apply sanitize_results.ints_of_length; assumption.
    - destruct (sanitize_results.all_tuples_branch_inr _ _ _ _ _ Hb)
        as (-> & Hlen & Hall); auto. }
  destruct Hshape as (Hlen & Hall); split; [assumption |].
  destruct (sanitize_results.check_dimensions_passed _ _ _ _ Hlen Hcheck Hone)
    as (Hk & Hext).
  exists k; auto.
Qed.

(** X10.  The result is the specification spelled out and nothing else: a
    tuple of tuples comes back as it was given, a tuple of ints comes back
    repeated once per member. *)
Theorem sanitize_returns_spec_spelled_out
    (data : list collection.member) (aligned_axes : collection.aligned_axes_t)
    (result_ : list (list Z)) :
  collection._sanitize_aligned_axes data aligned_axes = inr result_ ->
  (forall tuples,
      aligned_axes = collection.AxTuple (map collection.ATuple tuples) ->
      result_ = tuples) /\
  (forall ints,
      aligned_axes = collection.AxTuple (map collection.AInt ints) ->
      result_ = repeat ints (length data)).
Proof.
  intros H.
  destruct (sanitize_results.sanitize_inr _ _ _ H)
    as (items & k & check & Hspec & Hne & _ & Hbranch & _); split.
  - intros tuples E; rewrite E in Hspec; injection Hspec as <-.
    destruct Hbranch as [(Hints & _) | (_ & _ & c0 & Hb)].
    + destruct tuples; [contradiction | discriminate].
    + rewrite sanitize_facts.tuples_of_tuples in Hb.
      destruct (sanitize_results.all_tuples_branch_inr _ _ _ _ _ Hb) as (-> & _).
      reflexivity.
  - intros ints E; rewrite E in Hspec; injection Hspec as <-.
    destruct Hbranch as [(_ & -> & _) | (Hints & _)].
    + rewrite sanitize_results.ints_of_ints; reflexivity.
    + rewrite sanitize_results.all_ints in Hints; discriminate.
Qed.

Lemma sanitize_result_is_aligned_witness :
  length [[2; 0]; [2; 1]; [-1; 0]] = 3%nat /\
  exists k,
    (0 < k)%nat /\
    Forall (fun t => length t = k) [[2; 0]; [2; 1]; [-1; 0]] /\
    forall j, (j < k)%nat ->
      exists extent,
        Forall2 (fun cube t =>
                   exists axis,
                     nth_error t j = Some axis /\
                     collection.dims_getitem (collection.dimensions cube) axis
                       = inr extent)
                [cube_of_shape [3; 4; 10]; cube_of_shape [5; 3; 10];
                 cube_of_shape [3; 8; 10]]
                [[2; 0]; [2; 1]; [-1; 0]].
Proof.
  apply (sanitize_result_is_aligned
           [cube_of_shape [3; 4; 10]; cube_of_shape [5; 3; 10];
            cube_of_shape [3; 8; 10]]
           (collection.AxTuple
              (map collection.ATuple [[2; 0]; [2; 1]; [-1; 0]]))).
  reflexivity.
Defined.

Lemma sanitize_returns_spec_spelled_out_witness :
  (forall tuples,
      collection.AxTuple [collection.AInt 2; collection.AInt 2]
        = collection.AxTuple (map collection.ATuple tuples) ->
      [[2; 2]; [2; 2]; [2; 2]] = tuples) /\
  (forall ints,
      collection.AxTuple [collection.AInt 2; collection.AInt 2]
        = collection.AxTuple (map collection.AInt ints) ->
      [[2; 2]; [2; 2]; [2; 2]] = repeat ints (length three_cubes)).
Proof.
  apply (sanitize_returns_spec_spelled_out three_cubes
           (collection.AxTuple [collection.AInt 2; collection.AInt 2])).
  reflexivity.
Defined.

(** X11.  A tuple of ints is accepted exactly when there is a member and an
    int, and every int indexes every member and finds one extent in all of
    them. *)
Theorem sanitize_accepts_shared_axes
    (data : list collection.member) (ints : list Z) :
  collection._sanitize_aligned_axes
    data (collection.AxTuple (map collection.AInt ints))
    = inr (repeat ints (length data))
  <->
  data <> [] /\ ints <> [] /\
  Forall (fun axis =>
            exists extent,
              Forall (fun cube =>
                        collection.dims_getitem (collection.dimensions cube) axis
                          = inr extent) data)
         ints.
Proof.
  split.
  - intros H.
    destruct (sanitize_results.sanitize_inr _ _ _ H)
      as (items & k & check & Hspec & Hne & Hdata & Hbranch & Hcheck & Hone).
    injection Hspec as <-.
    destruct Hbranch as [(_ & _ & ->) | (Hints & _)];
      [| rewrite sanitize_results.all_ints in Hints; discriminate].
    rewrite length_map in Hcheck.
    destruct (sanitize_results.check_dimensions_passed _ _ _ _
                (repeat_length _ _) Hcheck Hone) as (_ & Hext).
    repeat split; [assumption | intros ->; contradiction |].
    apply Forall_forall; intros axis Hin.
    apply In_nth_error in Hin as (j & Hj).
    destruct (Hext j) as (extent & Hall);
      [apply nth_error_Some; congruence |].
    exists extent; apply sanitize_results.Forall2_repeat in Hall.
    eapply Forall_impl; [| exact Hall].
    intros cube (axis' & Haxis' & Hdim); congruence.
  - intros (Hdata & Hints & Hall).
    destruct data as [| data0 rest]; [contradiction |].
    destruct ints as [| i0 ints']; [contradiction |].
    destruct (sanitize_results.check_dimensions_passes
                (data0 :: rest) (repeat (i0 :: ints') (length (data0 :: rest)))
                (length (i0 :: ints')))
      as (check & Hcheck & Hone);
      [apply repeat_length | discriminate | simpl; lia | |].
    { intros j Hj.
      destruct (nth_error (i0 :: ints') j) as [axis |] eqn:Haxis;
        [| apply nth_error_None in Haxis; lia].
      rewrite Forall_forall in Hall.
      destruct (Hall axis (nth_error_In _ _ Haxis)) as (extent & Hcubes).
      exists extent; apply sanitize_results.Forall2_repeat.
      eapply Forall_impl; [| exact Hcubes]; intros cube Hdim; eauto. }
    inversion Hall as [| ? ? (extent0 & Hfirst) _]; subst.
    inversion Hfirst as [| ? ? Hdim0 _]; subst.
    unfold collection._sanitize_aligned_axes.
    change (getitem (data0 :: rest) 0) with (@inr exn _ data0); cbn [bind].
    assert (Hcube0 :
      match collection.dimensions data0 with
      | collection.DimsQuantity shape | collection.DimsTuple shape =>
          a0 <- collection.subscript0
                  (collection.AxTuple (map collection.AInt (i0 :: ints'))) ;;
          collection.np_index shape a0
      | collection.DimsOther =>
          raise (TypeError collection.unsupported_type_message)
      end = inr (collection.Scalar extent0)).
    { unfold collection.dims_getitem in Hdim0.
      destruct (collection.dimensions data0); try discriminate;
        cbn [map collection.subscript0];
        change (getitem (collection.AInt i0 :: map collection.AInt ints') 0)
          with (@inr exn _ (collection.AInt i0));
        cbn [bind collection.np_index]; rewrite Hdim0; reflexivity. }
    rewrite Hcube0; cbn [bind].
    rewrite sanitize_results.all_ints, sanitize_results.ints_of_ints.
    cbn [bind ret]; rewrite length_map, Hcheck; cbn [bind].
    rewrite Hone; reflexivity.
Qed.

(* ===================================================================== *)
(** * Which tuples of tuples _sanitize_aligned_axes accepts               *)
(* ===================================================================== *)

Module sanitize_tuples.

Import collection sanitize_facts sanitize_results.

Lemma setitem_spec {A} (l : list A) (i : nat) (v : A) :
  (i < length l)%nat ->
  exists l', setitem l (Z.of_nat i) v = inr l' /\ length l' = length l /\
             nth_error l' i = Some v /\
             forall j, j <> i -> nth_error l' j = nth_error l j.
Proof.
  intros H; unfold setitem.
  destruct (Z.of_nat i <? 0) eqn:E; [apply Z.ltb_lt in E; lia |].
  cbv zeta; rewrite E; destruct (len l <=? Z.of_nat i) eqn:E';
    [apply Z.leb_le in E'; unfold len in E'; lia |].
  rewrite Nat2Z.id; eexists; split; [reflexivity |].
  assert (Hf : length (firstn i l) = i) by (rewrite length_firstn; lia).
  repeat split.
  - rewrite length_app, Hf; cbn [length]; rewrite length_skipn; lia.
  - rewrite nth_error_app2, Hf, Nat.sub_diag by lia; reflexivity.
  - intros j Hj; destruct (Nat.lt_ge_cases j i) as [Hlt | Hge].
    + rewrite nth_error_app1, nth_error_firstn by lia.
      destruct (Nat.ltb_spec j i); [reflexivity | lia].
    + rewrite nth_error_app2, Hf by lia.
      destruct (j - i)%nat as [| d] eqn:Ed; [lia |]; cbn [nth_error].
      rewrite nth_error_skipn; f_equal; lia.
Qed.

Lemma all_true (l : list bool) :
  (forall j, (j < length l)%nat -> nth_error l j = Some true) -> all l = true.
Proof.
  intros H; apply forallb_forall; intros b Hb.
  apply In_nth_error in Hb as (j & Hj).
  rewrite H in Hj by (apply nth_error_Some; congruence); congruence.
Qed.

Lemma getitem_inr_lt {A} (l : list A) (i : Z) (a : A) :
  getitem l i = inr a -> i < len l.
Proof.
  intros H; destruct (Z.lt_ge_cases i 0) as [Hneg | Hpos].
  - unfold len; lia.
  - eapply getitem_inr_nonneg; eassumption.
Qed.

Lemma getitem_inr_indexes {A} (l : list A) (i : Z) (a : A) :
  getitem l i = inr a -> - len l <= i < len l.
Proof.
  intros H; split; [| eapply getitem_inr_lt; eassumption].
  unfold getitem in H; destruct (i <? 0) eqn:E; [| apply Z.ltb_ge in E; unfold len; lia].
  cbv zeta in H; destruct (len l + i <? 0) eqn:E'; [discriminate |].
  apply Z.ltb_ge in E'; lia.
Qed.

Lemma fold_max_le (b : Z) (t : list Z) : forall x,
  x <= b -> (forall y, In y t -> y <= b) -> fold_left Z.max t x <= b.
Proof.
  induction t as [| y t IH]; intros x Hx Ht; simpl; [assumption |].
  apply IH; [| intros; apply Ht; right; assumption].
  specialize (Ht y (or_introl eq_refl)); lia.
Qed.

Lemma max_axis_le (b : Z) (t : list Z) :
  t <> [] -> (forall y, In y t -> y <= b) -> max_axis t <= b.
Proof.
  destruct t as [| x t]; [contradiction |]; intros _ H; unfold max_axis.
  apply fold_max_le; [apply H; left; reflexivity |].
  intros; apply H; right; assumption.
Qed.

Lemma for_each_inr_step {S A} (body : S -> A -> result S) (l : list A) :
  forall s r, for_each l body s = inr r ->
  forall x, In x l -> exists st st', body st x = inr st'.
Proof.
  induction l as [| y l IH]; intros s r H x Hx; [contradiction |].
  simpl in H; apply bind_inr in H as (s1 & Hstep & Hrest).
  destruct Hx as [-> | Hx]; [eauto | eapply IH; eassumption].
Qed.

Lemma dims_getitem_shape cube axis extent :
  dims_getitem (dimensions cube) axis = inr extent ->
  exists shape, shape_of cube = Some shape /\ getitem shape axis = inr extent.
Proof.
  unfold dims_getitem, shape_of; destruct (dimensions cube); intros H;
    try discriminate; eauto.
Qed.

Lemma dims_len_shape cube n :
  dims_len (dimensions cube) = inr n ->
  exists shape, shape_of cube = Some shape /\ n = len shape.
Proof.
  unfold dims_len, shape_of; destruct (dimensions cube); intros H;
    try discriminate; injection H as <-; eauto.
Qed.

(** The inner loop over the axes of one member sets every flag it visits
    when each axis finds the extent recorded for the first member. *)
Lemma inner_loop_all_true cube (extents0 : list Z) (k : nat) :
  length extents0 = k ->
  forall axes a types equal,
    (forall j axis, nth_error axes j = Some axis ->
       exists e, dims_getitem (dimensions cube) axis = inr e /\
                 nth_error extents0 (a + j) = Some e) ->
    (a + length axes <= k)%nat ->
    length types = k -> length equal = k ->
    (forall j, (j < a)%nat -> nth_error types j = Some true) ->
    (forall j, (j < a)%nat -> nth_error equal j = Some true) ->
    exists types' equal',
      for_each (combine (map Z.of_nat (seq a (length axes))) axes)
        (fun '(subtuple_types, cube_lengths_equal) '(j, axis) =>
           subtuple_types <- setitem subtuple_types j true ;;
           extent <- dims_getitem (dimensions cube) axis ;;
           extent0 <- cube0_getitem (Arr extents0) j ;;
           cube_lengths_equal <- setitem cube_lengths_equal j (extent =? extent0) ;;
           ret (subtuple_types, cube_lengths_equal))
        (types, equal) = inr (types', equal') /\
      length types' = k /\ length equal' = k /\
      (forall j, (j < a + length axes)%nat -> nth_error types' j = Some true) /\
      (forall j, (j < a + length axes)%nat -> nth_error equal' j = Some true).
Proof.
  intros Hk axes.
  induction axes as [| axis axes IH]; intros a types equal Hext Hle Ht He Htt Het.
  - exists types, equal; simpl; rewrite Nat.add_0_r; auto.
  - simpl in Hle; cbn [length seq map combine for_each].
    destruct (setitem_spec types a true) as (types1 & -> & Ht1 & Hset1 & Hold1);
      [lia |].
    cbn [bind].
    destruct (Hext 0%nat axis eq_refl) as (e & -> & He0); cbn [bind].
    rewrite Nat.add_0_r in He0.
    unfold cube0_getitem; rewrite (getitem_of_nat _ _ _ He0); cbn [bind].
    rewrite Z.eqb_refl.
    destruct (setitem_spec equal a true) as (equal1 & -> & He1 & Hset2 & Hold2);
      [lia |].
    cbn [bind ret].
    destruct (IH (S a) types1 equal1) as (types' & equal' & Hloop & R);
      try congruence; try lia.
    + intros j ax Hj; destruct (Hext (S j) ax Hj) as (e' & He' & Hn).
      exists e'; split; [assumption |].
      replace (S a + j)%nat with (a + S j)%nat by lia; assumption.
    + intros j Hj; destruct (Nat.eq_dec j a) as [-> | Hne];
        [assumption | rewrite Hold1 by assumption; apply Htt; lia].
    + intros j Hj; destruct (Nat.eq_dec j a) as [-> | Hne];
        [assumption | rewrite Hold2 by assumption; apply Het; lia].
    + exists types', equal'; split; [assumption |].
      replace (a + S (length axes))%nat with (S a + length axes)%nat by lia.
      exact R.
Qed.

Section accepted.

Variables (data : list member) (tuples : list (list Z)) (k : nat)
          (extents0 : list Z).

Hypothesis extents0_length : length extents0 = k.
Hypothesis k_positive : (0 < k)%nat.

Lemma cube_step_all_true i cube t ints same :
  nth_error data i = Some cube -> nth_error tuples i = Some t ->
  agrees_with_first k extents0 cube t ->
  (i < length ints)%nat -> length same = length ints ->
  (forall i', (i' < i)%nat -> nth_error ints i' = Some true) ->
  (forall i', (i' < i)%nat -> nth_error same i' = Some true) ->
  exists ints' same',
    cube_step data tuples k (Arr extents0) (ints, same) (Z.of_nat i)
      = inr (ints', same') /\
    length ints' = length ints /\ length same' = length ints /\
    (forall i', (i' < S i)%nat -> nth_error ints' i' = Some true) /\
    (forall i', (i' < S i)%nat -> nth_error same' i' = Some true).
Proof.
  intros Hc Ht (Hlen & (shape & Hshape & Hroom) & Hext) Hi Hsame Hit Hst.
  unfold cube_step.
  rewrite (getitem_of_nat _ _ _ Hc); cbn [bind].
  rewrite (shape_of_len _ _ Hshape); cbn [bind].
  rewrite (getitem_of_nat _ _ _ Ht); cbn [bind].
  assert (Hne : t <> []) by (intros ->; simpl in Hlen; lia).
  assert (Hmax : max_axis t <= len shape).
  { apply max_axis_le; [assumption |].
    intros y Hy; apply In_nth_error in Hy as (j & Hj).
    destruct (Hext j y Hj) as (e & Hdim & _).
    rewrite (shape_of_getitem _ _ _ Hshape) in Hdim.
    apply getitem_inr_lt in Hdim; lia. }
  unfold py_max; destruct t as [| x t']; [contradiction |]; cbn [bind ret].
  destruct (Z.ltb_spec (len shape) (Z.max (max_axis (x :: t')) (Z.of_nat k)));
    [lia |]; cbn [bind ret].
  assert (Hfit : (0 + length (x :: t') <= k)%nat) by lia.
  destruct (inner_loop_all_true cube extents0 k extents0_length
              (x :: t') 0%nat (repeat false k) (repeat false k) Hext Hfit
              (repeat_length _ _) (repeat_length _ _)
              ltac:(intros; lia) ltac:(intros; lia))
    as (types' & equal' & Hloop & Hlt & Hle & Htypes & Hequal).
  unfold range; rewrite Hloop; cbn [bind].
  rewrite Nat.add_0_l, Hlen in Htypes, Hequal.
  rewrite (all_true types') by (rewrite Hlt; exact Htypes).
  rewrite (all_true equal') by (rewrite Hle; exact Hequal).
  destruct (setitem_spec ints i true) as (ints' & -> & Hi' & Hset1 & Hold1); [lia |].
  cbn [bind].
  destruct (setitem_spec same i true) as (same' & -> & Hs' & Hset2 & Hold2); [lia |].
  cbn [bind ret]; exists ints', same'; repeat split; try congruence.
  - intros i' Hi''; destruct (Nat.eq_dec i' i) as [-> | Hne'];
      [assumption | rewrite Hold1 by assumption; apply Hit; lia].
  - intros i' Hi''; destruct (Nat.eq_dec i' i) as [-> | Hne'];
      [assumption | rewrite Hold2 by assumption; apply Hst; lia].
Qed.

Lemma cube_steps_all_true (n : nat) : forall i,
  (i <= n)%nat ->
  (forall i' cube t, (i' < i)%nat ->
      nth_error data i' = Some cube -> nth_error tuples i' = Some t ->
      agrees_with_first k extents0 cube t) ->
  (i <= length data)%nat -> (i <= length tuples)%nat ->
  exists ints same,
    for_each (range i) (cube_step data tuples k (Arr extents0))
             (repeat false n, repeat false n) = inr (ints, same) /\
    length ints = n /\ length same = n /\
    (forall i', (i' < i)%nat -> nth_error ints i' = Some true) /\
    (forall i', (i' < i)%nat -> nth_error same i' = Some true).
Proof.
  induction i as [| i IH]; intros Hn Hagree Hd Ht.
  - exists (repeat false n), (repeat false n); rewrite !repeat_length.
    repeat split; intros; lia.
  - destruct IH as (ints & same & Hloop & Hints & Hsame & Hit & Hst); try lia.
    { intros i' cube t Hlt; apply Hagree; lia. }
    destruct (nth_error data i) as [cube |] eqn:Ec;
      [| apply nth_error_None in Ec; lia].
    destruct (nth_error tuples i) as [t |] eqn:Et;
      [| apply nth_error_None in Et; lia].
    destruct (cube_step_all_true i cube t ints same Ec Et)
      as (ints' & same' & Hstep & Hi' & Hs' & Hit' & Hst');
      try lia; try assumption.
    { apply (Hagree i); [lia | assumption | assumption]. }
    rewrite range_S, for_each_app, Hloop; cbn [bind for_each].
    rewrite Hstep; cbn [bind ret]; exists ints', same'.
    repeat split; try congruence; assumption.
Qed.

Lemma all_tuples_branch_accepts :
  length tuples = length data -> data <> [] ->
  Forall2 (agrees_with_first k extents0) data tuples ->
  all_tuples_branch data tuples (Arr extents0) = inr (tuples, k).
Proof.
  intros Hlen Hne Hagree.
  destruct (cube_steps_all_true (length data) (length data))
    as (ints & same & Hloop & Hints & Hsame & Hit & Hst); try lia.
  { intros i' cube t _ Hc Ht.
    exact (Forall2_combine_In _ _ _ Hagree _ _
             (nth_error_In _ _ (nth_error_combine _ _ _ _ _ Hc Ht))). }
  unfold all_tuples_branch, len; rewrite Hlen, Z.eqb_refl; cbn [negb bind ret].
  assert (Hfirst : exists t0, getitem tuples 0 = inr t0 /\ length t0 = k).
  { inversion Hagree as [| cube0 t0 cubes ts (Hk0 & _) Hrest Ed Et];
      [congruence | exists t0; split; [reflexivity | assumption]]. }
  destruct Hfirst as (t0 & -> & Hk0); cbn [bind]; rewrite Hk0.
  assert (Hall : forallb (fun axes => Z.of_nat (length axes) =? Z.of_nat k)
                         tuples = true).
  { apply forallb_forall; intros t Ht; apply In_nth_error in Ht as (i & Hi).
    destruct (nth_error data i) as [cube |] eqn:Ec.
    - destruct (Forall2_combine_In _ _ _ Hagree _ _
                  (nth_error_In _ _ (nth_error_combine _ _ _ _ _ Ec Hi)))
        as (Hk & _).
      apply Z.eqb_eq; congruence.
    - apply nth_error_None in Ec.
      assert (i < length tuples)%nat by (apply nth_error_Some; congruence).
      lia. }
  rewrite Hall; cbn [negb bind ret].
  rewrite Hloop; cbn [bind].
  rewrite (all_true ints) by (rewrite Hints; exact Hit).
  rewrite (all_true same) by (rewrite Hsame; exact Hst).
  reflexivity.
Qed.

End accepted.

(** Every member passed by the loop over the cubes has room for as many
    axes as are aligned. *)
Lemma all_tuples_branch_room data tuples cube0_dims aligned_axes k :
  all_tuples_branch data tuples cube0_dims = inr (aligned_axes, k) ->
  Forall (fun cube => exists shape, shape_of cube = Some shape /\
                                    Z.of_nat k <= len shape) data.
Proof.
  unfold all_tuples_branch; intros H.
  apply bind_inr in H as (u1 & _ & H).
  apply bind_inr in H as (axes0 & _ & H).
  apply bind_inr in H as (u2 & _ & H).
  apply bind_inr in H as ((ints & same) & Hloop & H).
  apply bind_inr in H as (u3 & _ & H).
  apply bind_inr in H as (u4 & _ & H); injection H as _ <-.
  apply Forall_forall; intros cube Hin.
  apply In_nth_error in Hin as (i & Hi).
  assert (Hlt : (i < length data)%nat) by (apply nth_error_Some; congruence).
  destruct (for_each_inr_step _ _ _ _ Hloop (Z.of_nat i)) as ((ints0 & same0) & st' & Hstep).
  { apply in_range; lia. }
  unfold cube_step in Hstep.
  rewrite (getitem_of_nat _ _ _ Hi) in Hstep; cbn [bind] in Hstep.
  apply bind_inr in Hstep as (n & Hn & Hstep).
  apply bind_inr in Hstep as (t & _ & Hstep).
  apply bind_inr in Hstep as (m & _ & Hstep).
  apply bind_inr in Hstep as (u & Hguard & _).
  apply guard_inr, Z.ltb_ge in Hguard.
  destruct (dims_len_shape _ _ Hn) as (shape & Hshape & ->).
  exists shape; split; [assumption | lia].
Qed.

End sanitize_tuples.

(** X12.  A tuple of tuples is accepted, and returned, exactly when there
    is a member, there is one tuple per member, the tuples have one
    positive length [k], every member has at least [k] axes, and at each
    position the tuples name axes of one common extent. *)
Theorem sanitize_accepts_tuples
    (data : list collection.member) (tuples : list (list Z)) :
  collection._sanitize_aligned_axes
    data (collection.AxTuple (map collection.ATuple tuples)) = inr tuples
  <->
  data <> [] /\ length tuples = length data /\
  exists k,
    (0 < k)%nat /\
    Forall (fun t => length t = k) tuples /\
    Forall (fun cube => exists shape, collection.shape_of cube = Some shape /\
                                      Z.of_nat k <= len shape) data /\
    forall j, (j < k)%nat ->
      exists extent,
        Forall2 (fun cube t =>
                   exists axis,
                     nth_error t j = Some axis /\
                     collection.dims_getitem (collection.dimensions cube) axis
                       = inr extent)
                data tuples.
Proof.
  split.
  - intros H.
    destruct (sanitize_results.sanitize_inr _ _ _ H)
      as (items & k & check & Hspec & Hne & Hdata & Hbranch & Hcheck & Hone).
    injection Hspec as <-.
    destruct Hbranch as [(Hints & _) | (_ & _ & c0 & Hb)].
    { destruct tuples; [contradiction | discriminate]. }
    rewrite sanitize_facts.tuples_of_tuples in Hb.
    destruct (sanitize_results.all_tuples_branch_inr _ _ _ _ _ Hb)
      as (_ & Hlen & Hall).
    destruct (sanitize_results.check_dimensions_passed _ _ _ _ Hlen Hcheck Hone)
      as (Hk & Hext).
    repeat split; try assumption.
    exists k; repeat split; try assumption.
    eapply sanitize_tuples.all_tuples_branch_room; eassumption.
  - intros (Hdata & Hlen & k & Hk & Hall & Hroom & Hext).
    destruct data as [| data0 rest]; [contradiction |].
    destruct tuples as [| t0 ts]; [discriminate |].
    (* the extents the first tuple finds in the first member *)
    assert (Hk0 : length t0 = k) by (inversion Hall; assumption).
    assert (Hshape0 : exists shape0, collection.shape_of data0 = Some shape0)
      by (inversion Hroom as [| ? ? (shape0 & Hs & _) _]; eauto).
    destruct Hshape0 as (shape0 & Hshape0).
    assert (Hfirst : forall j axis, nth_error t0 j = Some axis ->
              exists e, getitem shape0 axis = inr e /\
                        forall cube t axis',
                          In (cube, t) (combine (data0 :: rest) (t0 :: ts)) ->
                          nth_error t j = Some axis' ->
                          collection.dims_getitem (collection.dimensions cube) axis'
                            = inr e).
    { intros j axis Hj.
      destruct (Hext j) as (extent & Hcommon);
        [rewrite <- Hk0; apply nth_error_Some; congruence |].
      exists extent; split.
      - inversion Hcommon as [| ? ? ? ? (axis0 & Ha0 & Hd0) _]; subst.
        rewrite (sanitize_facts.shape_of_getitem _ _ _ Hshape0) in Hd0.
        congruence.
      - intros cube t axis' Hin Hax.
        destruct (sanitize_results.Forall2_combine_In _ _ _ Hcommon _ _ Hin)
          as (axis'' & Hax' & Hdim).
        congruence. }
    destruct (sanitize_facts.comprehension_total (getitem shape0) t0)
      as (extents0 & Hcomp & Hlen0).
    { apply Forall_forall; intros axis Hin.
      apply In_nth_error in Hin as (j & Hj).
      destruct (Hfirst j axis Hj) as (e & He & _); eauto. }
    assert (Hextents0 : forall j axis e, nth_error t0 j = Some axis ->
              getitem shape0 axis = inr e -> nth_error extents0 j = Some e).
    { intros j axis e Hj He.
      destruct (proj2 (comprehension_inr _ _ _ Hcomp) j axis Hj) as (y & Hy & Hy').
      congruence. }
    assert (Hagree : Forall2 (agrees_with_first k extents0)
                             (data0 :: rest) (t0 :: ts)).
    { apply sanitize_results.Forall2_pointwise; [symmetry; assumption |].
      intros i cube t Hc Ht.
      assert (Hin : In (cube, t) (combine (data0 :: rest) (t0 :: ts)))
        by (eapply nth_error_In, sanitize_results.nth_error_combine; eassumption).
      rewrite Forall_forall in Hall, Hroom.
      repeat split.
      - apply Hall; eapply nth_error_In; eassumption.
      - apply Hroom; eapply nth_error_In; eassumption.
      - intros j axis Hj.
        assert (Hj0 : (j < length t0)%nat).
        { rewrite Hk0, <- (Hall t (nth_error_In _ _ Ht)).
          apply nth_error_Some; congruence. }
        destruct (nth_error t0 j) as [axis0 |] eqn:E0;
          [| apply nth_error_None in E0; lia].
        destruct (Hfirst j axis0 E0) as (e & He & Hsame).
        exists e; split; [eapply Hsame; eauto | eapply Hextents0; eassumption]. }
    pose proof (sanitize_tuples.all_tuples_branch_accepts
                  (data0 :: rest) (t0 :: ts) k extents0
                  (eq_trans Hlen0 Hk0) Hk Hlen ltac:(discriminate) Hagree)
      as Hbranch.
    destruct (sanitize_results.check_dimensions_passes
                (data0 :: rest) (t0 :: ts) k Hlen ltac:(discriminate) Hk Hext)
      as (check & Hcheck & Hone).
    unfold collection._sanitize_aligned_axes.
    change (getitem (data0 :: rest) 0) with (@inr exn _ data0); cbn [bind].
    assert (Hdims :
      match collection.dimensions data0 with
      | collection.DimsQuantity shape | collection.DimsTuple shape =>
          a0 <- collection.subscript0
                  (collection.AxTuple (map collection.ATuple (t0 :: ts))) ;;
          collection.np_index shape a0
      | collection.DimsOther =>
          raise (TypeError collection.unsupported_type_message)
      end = inr (collection.Arr extents0)).
    { unfold collection.shape_of in Hshape0.
      destruct (collection.dimensions data0); try discriminate;
        injection Hshape0 as ->; cbn [map collection.subscript0];
        change (getitem (collection.ATuple t0 :: map collection.ATuple ts) 0)
          with (@inr exn _ (collection.ATuple t0));
        cbn [bind collection.np_index];
        (destruct t0; [simpl in Hk0; lia |]); rewrite Hcomp; reflexivity. }
    rewrite Hdims; cbn [bind].
    cbn [map forallb collection.is_int andb]; rewrite <- map_cons.
    rewrite sanitize_facts.all_tuples, sanitize_facts.tuples_of_tuples, Hbranch.
    cbn [collection.is_tuple andb bind]; rewrite Hcheck; cbn [bind].
    rewrite Hone; reflexivity.
Qed.

(* ===================================================================== *)
(** * What _update_aligned_axes keeps                                     *)
(* ===================================================================== *)

Module update_results.

Import collection update_facts.

(** [np.delete] takes out the element that indexing reads. *)
Lemma np_delete_inr (arr : list Z) (i v : Z) (arr' : list Z) :
  getitem arr i = inr v -> np_delete arr i = inr arr' ->
  exists pre post, arr = pre ++ v :: post /\ arr' = pre ++ post.
Proof.
  unfold getitem, np_delete; cbv zeta.
  set (j := if i <? 0 then len arr + i else i).
  destruct (j <? 0) eqn:E; [discriminate |]; cbn [orb].
  destruct (len arr <=? j); [discriminate |].
  destruct (nth_error arr (Z.to_nat j)) as [x |] eqn:N; [| discriminate].
  intros Hv Hd; injection Hv as ->; injection Hd as <-.
  destruct (nth_error_split _ _ N) as (pre & post & -> & Hlen).
  exists pre, post; split; [reflexivity |].
  rewrite <- Hlen, firstn_app, Nat.sub_diag, firstn_all; cbn [firstn].
  rewrite app_nil_r; f_equal.
  change (skipn (S (length pre)) (pre ++ v :: post) = post).
  rewrite skipn_app, skipn_all2 by lia.
  replace (S (length pre) - length pre)%nat with 1%nat by lia; reflexivity.
Qed.

(** Taking one axis out of a tuple of distinct axes below [R] and
    renumbering leaves distinct axes below [R - 1]. *)
Lemma renumbered_valid (v R : Z) (l : list Z) :
  0 <= v < R -> ~ In v l -> NoDup l -> Forall (fun a => 0 <= a < R) l ->
  NoDup (decrement_above v l) /\
  Forall (fun a => 0 <= a < R - 1) (decrement_above v l).
Proof.
  intros Hv; induction l as [| x l IH]; intros Hout Hnd Hr; simpl.
  - split; constructor.
  - inversion Hnd as [| ? ? Hx Hnd']; inversion Hr as [| ? ? Hxr Hr']; subst.
    destruct IH as (IHnd & IHr); try assumption.
    { intros Hin; apply Hout; right; assumption. }
    assert (x <> v) by (intros ->; apply Hout; left; reflexivity).
    split; constructor; try assumption.
    + intros Hin; apply in_map_iff in Hin as (y & Hy & Hin).
      assert (y <> v) by (intros ->; apply Hout; right; assumption).
      assert (y <> x) by (intros ->; contradiction).
      destruct (Z.gtb_spec x v), (Z.gtb_spec y v); lia.
    + destruct (Z.gtb_spec x v); lia.
Qed.

(** The invariant of a sequence of passes of the inner loop: each pass
    takes one axis out, the drop array keeps its length, distinct axes
    below [R] stay distinct and below [R] less the number of passes. *)
Lemma drop_steps_keep (ts : list Z) : forall axes drop axes' drop',
  for_each ts drop_step (axes, drop) = inr (axes', drop') ->
  (length axes' + length ts = length axes)%nat /\
  length drop' = length drop /\
  forall R, NoDup axes -> Forall (fun a => 0 <= a < R) axes ->
            NoDup axes' /\ Forall (fun a => 0 <= a < R - len ts) axes'.
Proof.
  induction ts as [| t ts IH]; intros axes drop axes' drop' H.
  - injection H as <- <-; split; [simpl; lia |]; split; [reflexivity |].
    intros R Hn Hr; split; [assumption |].
    unfold len; simpl; eapply Forall_impl; [| exact Hr]; simpl; intros; lia.
  - cbn [for_each] in H; rewrite drop_step_unfold in H.
    apply bind_inr in H as ((axes1 & drop1) & Hstep & H).
    apply bind_inr in Hstep as (p & _ & Hstep).
    apply bind_inr in Hstep as (v & Hv & Hstep).
    apply bind_inr in Hstep as (deleted & Hdel & Hstep).
    injection Hstep as <- <-.
    destruct (np_delete_inr _ _ _ _ Hv Hdel) as (pre & post & -> & ->).
    destruct (IH _ _ _ _ H) as (Hlen & Hdrop & Hvalid).
    rewrite !decrement_above_length in *.
    rewrite length_app in *; cbn [length] in *.
    split; [lia |]; split; [assumption |].
    intros R Hnd Hr.
    destruct (renumbered_valid v R (pre ++ post)) as (Hnd1 & Hr1).
    + rewrite Forall_forall in Hr; apply Hr, in_elt.
    + apply NoDup_remove_2, Hnd.
    + apply NoDup_remove_1 in Hnd; exact Hnd.
    + apply Forall_app in Hr as (Hpre & Hpost).
      inversion Hpost; subst; apply Forall_app; split; assumption.
    + destruct (Hvalid (R - 1) Hnd1 Hr1) as (Hnd2 & Hr2); split; [assumption |].
      eapply Forall_impl; [| exact Hr2]; unfold len; cbn [length].
      intros a Ha; lia.
Qed.

(** The invariant of the loop over the keys, for a drop array of [n]
    entries. *)
Lemma key_steps_keep (d : list (string * list Z)) (n : nat) :
  forall members acc drop r drop',
  (forall key axes, In (key, axes) members -> dict_getitem d key = inr axes) ->
  length drop = n ->
  for_each (map fst members) (key_step d) (acc, drop) = inr (r, drop') ->
  exists r',
    r = acc ++ r' /\
    Forall2 (fun entry axes' =>
               (length axes' + n = length (snd entry))%nat /\
               forall R, NoDup (snd entry) ->
                         Forall (fun a => 0 <= a < R) (snd entry) ->
                         NoDup axes' /\
                         Forall (fun a => 0 <= a < R - Z.of_nat n) axes')
            members r'.
Proof.
  induction members as [| (key, axes) members IH];
    intros acc drop r drop' Hd Hn H.
  - injection H as <- <-; exists []; rewrite app_nil_r; split; constructor.
  - cbn [map fst for_each] in H.
    apply bind_inr in H as ((acc1 & drop1) & Hstep & H).
    unfold key_step in Hstep.
    rewrite (Hd key axes (or_introl eq_refl)) in Hstep; cbn [bind] in Hstep.
    apply bind_inr in Hstep as ((axes' & drop2) & Hloop & Hstep).
    injection Hstep as <- <-.
    destruct (drop_steps_keep _ _ _ _ _ Hloop) as (Hlen & Hdrop & Hvalid).
    rewrite range_length in Hlen; unfold len in Hvalid.
    rewrite range_length in Hvalid.
    destruct (IH _ _ _ _ (fun k a Hin => Hd k a (or_intror Hin))
                 (eq_trans Hdrop Hn) H) as (r' & -> & Hall).
    exists (axes' :: r'); rewrite <- app_assoc; split; [reflexivity |].
    constructor; [| assumption]; cbn [snd]; rewrite <- Hn.
    split; [assumption | exact Hvalid].
Qed.

(** The three ways out of [_update_aligned_axes]. *)
Lemma update_cases drop d first_key :
  (drop = [] /\ _update_aligned_axes drop d first_key = inr (Some (map snd d))) \/
  (drop <> [] /\ exists e, dict_getitem d first_key = inl e /\
                           _update_aligned_axes drop d first_key = inl e) \/
  (drop <> [] /\ exists first, dict_getitem d first_key = inr first /\
     ((length drop = length first /\
       _update_aligned_axes drop d first_key = inr None) \/
      (length drop <> length first /\
       _update_aligned_axes drop d first_key =
       ('(r, _) <- for_each (map fst d) (key_step d) ([], drop) ;;
        ret (Some r))))).
Proof.
  destruct drop as [| p drop]; [left; split; reflexivity | right].
  unfold _update_aligned_axes, _update_aligned_axes_store.
  assert (E : (len (p :: drop) <=? 0) = false)
    by (apply Z.leb_gt; unfold len; simpl length; lia).
  rewrite E.
  destruct (dict_getitem d first_key) as [e | first];
    [left; split; [discriminate | eauto] | right].
  split; [discriminate |]; exists first; split; [reflexivity |]; cbn [bind].
  destruct (Z.eqb_spec (len (p :: drop)) (len first)) as [Heq | Hne].
  - left; split; [unfold len in Heq; lia | reflexivity].
  - right; split; [unfold len in Hne; lia |].
    destruct (for_each _ _ _) as [e | (r, drop')]; reflexivity.
Qed.

Lemma dict_getitem_inl d key e : dict_getitem d key = inl e -> e = KeyError.
Proof.
  induction d as [| (k, v) d IH]; simpl; [intros H; injection H as <-; reflexivity |].
  destruct (String.eqb k key); [discriminate | exact IH].
Qed.

End update_results.

(** X13.  Every tuple [_update_aligned_axes] returns is its member's tuple
    less one axis per drop position; and when the member's axes were
    distinct and below [R], those returned are distinct and below [R] less
    the number of drop positions.  This holds for every member, also for
    those read with a drop array that earlier members have changed. *)
Theorem update_keeps_tuples_valid
    (drop : list Z) (d : list (string * list Z)) (first_key : string)
    (r : list (list Z)) :
  NoDup (map fst d) ->
  collection._update_aligned_axes drop d first_key = inr (Some r) ->
  Forall2 (fun entry axes' =>
             (length axes' + length drop = length (snd entry))%nat /\
             forall R, NoDup (snd entry) ->
                       Forall (fun a => 0 <= a < R) (snd entry) ->
                       NoDup axes' /\
                       Forall (fun a => 0 <= a < R - len drop) axes')
          d r.
Proof.
  intros Hnd H.
  destruct (update_results.update_cases drop d first_key)
    as [(-> & E) | [(_ & e & _ & E) | (_ & first & _ & [(_ & E) | (_ & E)])]];
    rewrite E in H; try discriminate.
  - injection H as <-; clear E Hnd.
    induction d as [| entry d IH]; constructor; [| exact IH].
    split; [simpl; lia |]; intros R Hn Hr; split; [assumption |].
    eapply Forall_impl; [| exact Hr]; unfold len; simpl; intros; lia.
  - apply bind_inr in H as ((r0 & drop') & Hloop & H); injection H as ->.
    destruct (update_results.key_steps_keep d (length drop) d [] drop r drop')
      as (r' & -> & Hall); try assumption; try reflexivity.
    intros key axes Hin; apply update_facts.dict_getitem_In; assumption.
Qed.

(** X14.  [_update_aligned_axes] returns [None] exactly when there is a
    drop position and there are as many of them as the tuple under
    [first_key] has axes; without drop positions it returns the tuples as
    they are and does not look [first_key] up; with drop positions and no
    entry under [first_key] it raises [KeyError]. *)
Theorem update_outcomes
    (drop : list Z) (d : list (string * list Z)) (first_key : string) :
  (collection._update_aligned_axes drop d first_key = inr None
   <->
   drop <> [] /\
   exists first, collection.dict_getitem d first_key = inr first /\
                 length drop = length first) /\
  (drop = [] ->
   collection._update_aligned_axes drop d first_key = inr (Some (map snd d))) /\
  (drop <> [] -> ~ In first_key (map fst d) ->
   collection._update_aligned_axes drop d first_key = inl KeyError).
Proof.
  destruct (update_results.update_cases drop d first_key)
    as [(-> & E) | [(Hne & e & Hk & E) | (Hne & first & Hk & [(Hl & E) | (Hl & E)])]];
    rewrite E; (split; [split |]).
  - discriminate.
  - intros (H & _); contradiction.
  - split; [reflexivity | intros H; contradiction].
  - discriminate.
  - intros (_ & first & Hf & _); congruence.
  - split; [intros ->; contradiction |].
    intros _ _; rewrite (update_results.dict_getitem_inl _ _ _ Hk); reflexivity.
  - intros _; eauto.
  - reflexivity.
  - split; [intros ->; contradiction |].
    intros _ Hout; exfalso; apply Hout.
    clear E Hl; induction d as [| (k, v) d IH]; [discriminate |].
    simpl in Hk |- *; destruct (String.eqb_spec k first_key); [left; assumption |].
    right; apply IH; [assumption | intros Hin; apply Hout; right; assumption].
  - destruct (for_each _ _ _) as [e | (r, drop')]; discriminate.
  - intros (_ & first' & Hf & Hl'); congruence.
  - split; [intros ->; contradiction |].
    intros _ Hout; exfalso; apply Hout.
    clear E Hl; induction d as [| (k, v) d IH]; [discriminate |].
    simpl in Hk |- *; destruct (String.eqb_spec k first_key); [left; assumption |].
    right; apply IH; [assumption | intros Hin; apply Hout; right; assumption].
Qed.

(** X15.  With a single drop position, and tuples of one length, the
    collection's result lists, member by member, what the function returns
    for that member on its own. *)
Theorem update_single_drop_memberwise
    (p : Z) (d : list (string * list Z)) (first_key : string)
    (r : list (list Z)) :
  NoDup (map fst d) ->
  (forall entry entry', In entry d -> In entry' d ->
                        length (snd entry) = length (snd entry')) ->
  collection._update_aligned_axes [p] d first_key = inr (Some r) ->
  Forall2 (fun entry axes' =>
             collection._update_aligned_axes [p] [entry] (fst entry)
               = inr (Some [axes']))
          d r.
Proof.
  intros Hnd Hsame H.
  destruct (update_results.update_cases [p] d first_key)
    as [(E0 & _) | [(_ & e & _ & E) | (_ & first & Hk & [(_ & E) | (Hl & E)])]];
    try discriminate; rewrite E in H; try discriminate.
  rewrite update_facts.key_steps_single_drop in H
    by (intros; apply update_facts.dict_getitem_In; assumption).
  apply bind_inr in H as ((r0 & drop') & Hr & H); injection H as ->.
  apply bind_inr in Hr as (r' & Hcomp & Hr); injection Hr as <- _.
  cbn [app] in *.
  assert (Hfirst : exists k, In (k, first) d).
  { clear - Hk; induction d as [| (k, v) d IH]; [discriminate |].
    simpl in Hk; destruct (String.eqb k first_key).
    - injection Hk as ->; exists k; left; reflexivity.
    - destruct (IH Hk) as (k' & Hin); exists k'; right; assumption. }
  destruct Hfirst as (kf & Hfirst).
  destruct (comprehension_inr _ _ _ Hcomp) as (Hlen & Hnth).
  apply sanitize_results.Forall2_pointwise;
    [rewrite Hlen, length_map; reflexivity |].
  intros i (key, axes) axes' Hi Hi'.
  destruct (Hnth i axes) as (y & Hy & Hdrop);
    [rewrite nth_error_map, Hi; reflexivity |].
  assert (y = axes') by congruence; subst y.
  cbn [fst]; rewrite update_facts.single_member_refines.
  unfold collection.updateAfterDrop_spec.
  assert (Hne : (len [p] =? len axes) = false).
  { apply Z.eqb_neq; unfold len.
    pose proof (Hsame (key, axes) (kf, first) (nth_error_In _ _ Hi) Hfirst) as Hs.
    cbn [snd] in Hs; cbn [length] in Hl |- *; lia. }
  rewrite Hne; cbn [comprehension length]; rewrite Hdrop; reflexivity.
Qed.

Lemma update_keeps_tuples_valid_witness :
  Forall2 (fun entry axes' =>
             (length axes' + length [0; 2] = length (snd entry))%nat /\
             forall R, NoDup (snd entry) ->
                       Forall (fun a => 0 <= a < R) (snd entry) ->
                       NoDup axes' /\
                       Forall (fun a => 0 <= a < R - len [0; 2]) axes')
          two_aligned [[0; 1]; [1; 0]].
Proof.
  apply (update_keeps_tuples_valid [0; 2] two_aligned "a").
  - repeat constructor; simpl; intuition discriminate.
  - reflexivity.
Defined.

Lemma update_single_drop_memberwise_witness :
  Forall2 (fun entry axes' =>
             collection._update_aligned_axes [1] [entry] (fst entry)
               = inr (Some [axes']))
          two_aligned [[0; 1; 2]; [0; 2; 1]].
Proof.
  apply (update_single_drop_memberwise 1 two_aligned "a").
  - repeat constructor; simpl; intuition discriminate.
  - intros entry entry' [<- | [<- | []]] [<- | [<- | []]]; reflexivity.
  - reflexivity.
Defined.

(** X16.  [_sanitize_aligned_axes] never accepts an empty tuple, nor a
    tuple that holds both ints and tuples, whatever the members are. *)
Theorem sanitize_rejects_empty_and_mixed :
  (forall data,
      is_error (collection._sanitize_aligned_axes data (collection.AxTuple []))) /\
  (forall data items,
      forallb collection.is_int items = false ->
      forallb collection.is_tuple items = false ->
      is_error (collection._sanitize_aligned_axes data (collection.AxTuple items))).
Proof.
  split.
  - intros data.
    destruct (collection._sanitize_aligned_axes data (collection.AxTuple []))
      as [e | result_] eqn:E; [exact I |].
    destruct (sanitize_results.sanitize_inr _ _ _ E)
      as (items & _ & _ & Hspec & Hne & _).
    injection Hspec as <-; contradiction.
  - intros data items Hints Htuples.
    destruct (collection._sanitize_aligned_axes data (collection.AxTuple items))
      as [e | result_] eqn:E; [exact I |].
    destruct (sanitize_results.sanitize_inr _ _ _ E)
      as (items' & k & check & Hspec & _ & _ & Hbranch & _).
    injection Hspec as <-.
    destruct Hbranch as [(H & _) | (_ & H & _)]; congruence.
Qed.

(** X23.  Bounds.  When not every axis is dropped and the first drop
    position lies outside the tuple of the first member of the dict,
    [_update_aligned_axes] raises [IndexError]. *)
Theorem update_drop_position_out_of_range
    (p : Z) (drop : list Z) (key : string) (axes : list Z)
    (rest : list (string * list Z)) (first_key : string) (first : list Z) :
  collection.dict_getitem ((key, axes) :: rest) first_key = inr first ->
  length (p :: drop) <> length first ->
  ~ (- len axes <= p < len axes) ->
  collection._update_aligned_axes (p :: drop) ((key, axes) :: rest) first_key
    = inl IndexError.
Proof.
  intros Hfirst Hlen Hout.
  destruct (update_results.update_cases (p :: drop) ((key, axes) :: rest) first_key)
    as [(E0 & _) | [(_ & e & Hk & _) | (_ & first' & Hk & [(Hl & _) | (_ & E)])]];
    try discriminate; try congruence.
  rewrite E; cbn [map fst for_each collection.key_step collection.dict_getitem].
  rewrite String.eqb_refl; cbn [bind ret length]; unfold range.
  cbn [seq map for_each]; rewrite update_facts.drop_step_unfold.
  change (getitem (p :: drop) (Z.of_nat 0)) with (@inr exn _ p); cbn [bind].
  destruct (getitem axes p) as [e | v] eqn:G.
  - rewrite (getitem_inl _ _ _ G); reflexivity.
  - exfalso; apply Hout; eapply sanitize_tuples.getitem_inr_indexes; eassumption.
Qed.

Lemma update_drop_position_out_of_range_witness :
  collection._update_aligned_axes [4; 0] two_aligned "a" = inl IndexError.
Proof.
  apply (update_drop_position_out_of_range 4 [0] "a" [0; 1; 2; 3]
           [("b"%string, [1; 0; 3; 2])] "a" [0; 1; 2; 3]).
  - reflexivity.
  - discriminate.
  - unfold len; simpl; lia.
Defined.

(* ===================================================================== *)
(** * The units of a sequence                                             *)
(* ===================================================================== *)

Module sequence_units.

Import sequence_plotting.

(** The loop of [_get_all_cube_units] over cubes that have a unit, from
    index [a] on. *)
Lemma units_loop (units : list Unit) (rest : list cube_t) : forall a acc n,
  n = length rest ->
  for_each (combine (map Z.of_nat (seq a (length units + n)))
                    (map (fun u => mkCube (Some u)) units ++ rest))
    (fun sequence_units '(i, cube) =>
       match cube_unit cube with
       | None => raise (ValueError (unit_not_set_message i))
       | Some u => ret (sequence_units ++ [u])
       end)
    acc
  = for_each (combine (map Z.of_nat (seq (a + length units) n)) rest)
      (fun sequence_units '(i, cube) =>
         match cube_unit cube with
         | None => raise (ValueError (unit_not_set_message i))
         | Some u => ret (sequence_units ++ [u])
         end)
      (acc ++ units).
Proof.
  induction units as [| u units IH]; intros a acc n Hn.
  - simpl; rewrite Nat.add_0_r, app_nil_r; reflexivity.
  - cbn [length Nat.add seq map app combine for_each cube_unit bind ret].
    rewrite (IH (S a) (acc ++ [u]) n Hn), <- app_assoc.
    replace (S a + length units)%nat with (a + S (length units))%nat by lia.
    reflexivity.
Qed.

Lemma get_all_set (units : list Unit) :
  _get_all_cube_units (map (fun u => mkCube (Some u)) units) = inr units.
Proof.
  unfold _get_all_cube_units, range.
  pose proof (units_loop units [] 0%nat [] 0%nat eq_refl) as H.
  rewrite app_nil_r, Nat.add_0_r in H.
  rewrite length_map, H; reflexivity.
Qed.

Lemma get_first_unset (units : list Unit) (rest : list cube_t) :
  _get_all_cube_units (map (fun u => mkCube (Some u)) units ++ mkCube None :: rest)
  = inl (ValueError (unit_not_set_message (len units))).
Proof.
  unfold _get_all_cube_units, range.
  rewrite length_app, length_map.
  rewrite (units_loop units (mkCube None :: rest) 0%nat [] _ eq_refl).
  reflexivity.
Qed.

End sequence_units.

(** X17.  [_get_all_cube_units] returns the unit of every cube, in order,
    when every cube has one; otherwise it raises [ValueError] with the
    index of the first cube without a unit, whatever follows that cube. *)
Theorem get_all_cube_units_outcomes :
  (forall units : list Unit,
      sequence_plotting._get_all_cube_units
        (map (fun u => sequence_plotting.mkCube (Some u)) units) = inr units) /\
  (forall (units : list Unit) (rest : list sequence_plotting.cube_t),
      sequence_plotting._get_all_cube_units
        (map (fun u => sequence_plotting.mkCube (Some u)) units
           ++ sequence_plotting.mkCube None :: rest)
      = inl (ValueError (sequence_plotting.unit_not_set_message (len units)))).
Proof.
  split; [exact sequence_units.get_all_set | exact sequence_units.get_first_unset].
Qed.

(** X18.  [_determine_sequence_units] never passes the missing-unit error
    on: when a cube has no unit it returns [(None, None)], dropping a unit
    the caller gave.  When every cube has a unit it returns the units with
    the caller's unit, or with the first cube's when the caller gave none;
    on an empty sequence without a unit it raises [IndexError]. *)
Theorem determine_sequence_units_outcomes :
  (forall (units : list Unit) (rest : list sequence_plotting.cube_t)
          (unit : option Unit),
      sequence_plotting._determine_sequence_units
        (map (fun u => sequence_plotting.mkCube (Some u)) units
           ++ sequence_plotting.mkCube None :: rest) unit
      = inr (None, None)) /\
  (forall (units : list Unit) (u : Unit),
      sequence_plotting._determine_sequence_units
        (map (fun u => sequence_plotting.mkCube (Some u)) units) (Some u)
      = inr (Some units, Some u)) /\
  (forall (u0 : Unit) (units : list Unit),
      sequence_plotting._determine_sequence_units
        (map (fun u => sequence_plotting.mkCube (Some u)) (u0 :: units)) None
      = inr (Some (u0 :: units), Some u0)) /\
  sequence_plotting._determine_sequence_units [] None = inl IndexError.
Proof.
  repeat split.
  - intros units rest unit; unfold sequence_plotting._determine_sequence_units.
    rewrite sequence_units.get_first_unset; reflexivity.
  - intros units u; unfold sequence_plotting._determine_sequence_units.
    rewrite sequence_units.get_all_set; reflexivity.
  - intros u0 units; unfold sequence_plotting._determine_sequence_units.
    rewrite sequence_units.get_all_set; reflexivity.
Qed.

(* ===================================================================== *)
(** * The keywords of the old plot API                                    *)
(* ===================================================================== *)

Module old_api.

Import plotting.

Lemma pop_absent (kwargs : kwargs_t) (key : string) :
  ~ In key (map fst kwargs) -> pop kwargs key = (PyNone, kwargs).
Proof.
  induction kwargs as [| (k, v) kwargs IH]; intros H; simpl; [reflexivity |].
  destruct (String.eqb_spec k key) as [-> | _];
    [exfalso; apply H; left; reflexivity |].
  rewrite IH by (intros Hin; apply H; right; assumption); reflexivity.
Qed.

(** Taking one keyword out does not change what another one holds. *)
Lemma keyword_after_pop (kwargs : kwargs_t) (key other : string) :
  key <> other -> keyword (snd (pop kwargs key)) other = keyword kwargs other.
Proof.
  intros Hne; unfold keyword.
  induction kwargs as [| (k, v) kwargs IH]; simpl; [reflexivity |].
  destruct (String.eqb_spec k key) as [-> | Hk]; simpl.
  - destruct (String.eqb_spec key other); [contradiction |].
    destruct (pop kwargs other); reflexivity.
  - destruct (pop kwargs key) as [x rest] eqn:E; simpl in *.
    destruct (String.eqb_spec k other); [reflexivity |].
    destruct (pop rest other), (pop kwargs other); simpl in IH |- *; exact IH.
Qed.

Lemma filter_absent (kwargs : kwargs_t) (key : string) :
  ~ In key (map fst kwargs) ->
  filter (fun e => negb (String.eqb (fst e) key)) kwargs = kwargs.
Proof.
  induction kwargs as [| (k, v) kwargs IH]; intros H; simpl; [reflexivity |].
  destruct (String.eqb_spec k key) as [-> | _];
    [exfalso; apply H; left; reflexivity |].
  simpl; rewrite IH by (intros Hin; apply H; right; assumption); reflexivity.
Qed.

(** In a dict, whose keys are distinct, taking a keyword out leaves the
    other entries, in order. *)
Lemma pop_filter (kwargs : kwargs_t) (key : string) :
  NoDup (map fst kwargs) ->
  snd (pop kwargs key) = filter (fun e => negb (String.eqb (fst e) key)) kwargs.
Proof.
  induction kwargs as [| (k, v) kwargs IH]; intros Hnd; simpl; [reflexivity |].
  inversion Hnd as [| ? ? Hout Hnd']; subst.
  destruct (String.eqb_spec k key) as [-> | _]; simpl.
  - rewrite filter_absent by assumption; reflexivity.
  - destruct (pop kwargs key) as [x rest] eqn:E; simpl in *.
    rewrite <- IH by assumption; reflexivity.
Qed.

Lemma filter_keys_NoDup (f : string * pyobj -> bool) (kwargs : kwargs_t) :
  NoDup (map fst kwargs) -> NoDup (map fst (filter f kwargs)).
Proof.
  induction kwargs as [| e kwargs IH]; intros Hnd; simpl; [constructor |].
  inversion Hnd as [| ? ? Hout Hnd']; subst.
  destruct (f e); [| apply IH; assumption].
  simpl; constructor; [| apply IH; assumption].
  intros Hin; apply Hout.
  apply in_map_iff in Hin as (e' & <- & Hin); apply filter_In in Hin as (Hin & _).
  apply in_map; assumption.
Qed.

Lemma filter_filter {A} (f g : A -> bool) (l : list A) :
  filter f (filter g l) = filter (fun x => g x && f x) l.
Proof.
  induction l as [| x l IH]; simpl; [reflexivity |].
  destruct (g x); simpl; [destruct (f x); rewrite IH; reflexivity | exact IH].
Qed.

(** The five [pop]s at the head of [_support_101_plot_API]. *)
Lemma five_pops (kwargs : kwargs_t)
      v1 kw1 v2 kw2 v3 kw3 v4 kw4 v5 kw5 :
  pop kwargs "image_axes" = (v1, kw1) ->
  pop kw1 "axis_ranges" = (v2, kw2) ->
  pop kw2 "unit_x_axis" = (v3, kw3) ->
  pop kw3 "unit_y_axis" = (v4, kw4) ->
  pop kw4 "unit" = (v5, kw5) ->
  v1 = keyword kwargs "image_axes" /\
  v2 = keyword kwargs "axis_ranges" /\
  v3 = keyword kwargs "unit_x_axis" /\
  v4 = keyword kwargs "unit_y_axis" /\
  v5 = keyword kwargs "unit" /\
  (NoDup (map fst kwargs) ->
   kw5 = filter (fun e => negb (is_old_keyword (fst e))) kwargs).
Proof.
  intros E1 E2 E3 E4 E5.
  assert (K1 : kw1 = snd (pop kwargs "image_axes")) by (rewrite E1; reflexivity).
  assert (K2 : kw2 = snd (pop kw1 "axis_ranges")) by (rewrite E2; reflexivity).
  assert (K3 : kw3 = snd (pop kw2 "unit_x_axis")) by (rewrite E3; reflexivity).
  assert (K4 : kw4 = snd (pop kw3 "unit_y_axis")) by (rewrite E4; reflexivity).
  assert (K5 : kw5 = snd (pop kw4 "unit")) by (rewrite E5; reflexivity).
  assert (V1 : v1 = keyword kwargs "image_axes")
    by (unfold keyword; rewrite E1; reflexivity).
  assert (V2 : v2 = keyword kw1 "axis_ranges")
    by (unfold keyword; rewrite E2; reflexivity).
  assert (V3 : v3 = keyword kw2 "unit_x_axis")
    by (unfold keyword; rewrite E3; reflexivity).
  assert (V4 : v4 = keyword kw3 "unit_y_axis")
    by (unfold keyword; rewrite E4; reflexivity).
  assert (V5 : v5 = keyword kw4 "unit")
    by (unfold keyword; rewrite E5; reflexivity).
  repeat split; try assumption.
  - rewrite V2, K1; apply keyword_after_pop; discriminate.
  - rewrite V3, K2, K1, !keyword_after_pop by discriminate; reflexivity.
  - rewrite V4, K3, K2, K1, !keyword_after_pop by discriminate; reflexivity.
  - rewrite V5, K4, K3, K2, K1, !keyword_after_pop by discriminate; reflexivity.
  - intros Hnd.
    assert (F1 : kw1 = filter (fun e => negb (String.eqb (fst e) "image_axes")) kwargs)
      by (rewrite K1; apply pop_filter; assumption).
    assert (N1 : NoDup (map fst kw1)) by (rewrite F1; apply filter_keys_NoDup, Hnd).
    assert (F2 : kw2 = filter (fun e => negb (String.eqb (fst e) "axis_ranges")) kw1)
      by (rewrite K2; apply pop_filter; assumption).
    assert (N2 : NoDup (map fst kw2)) by (rewrite F2; apply filter_keys_NoDup, N1).
    assert (F3 : kw3 = filter (fun e => negb (String.eqb (fst e) "unit_x_axis")) kw2)
      by (rewrite K3; apply pop_filter; assumption).
    assert (N3 : NoDup (map fst kw3)) by (rewrite F3; apply filter_keys_NoDup, N2).
    assert (F4 : kw4 = filter (fun e => negb (String.eqb (fst e) "unit_y_axis")) kw3)
      by (rewrite K4; apply pop_filter; assumption).
    assert (N4 : NoDup (map fst kw4)) by (rewrite F4; apply filter_keys_NoDup, N3).
    rewrite K5, pop_filter, F4, F3, F2, F1, !filter_filter by assumption.
    apply filter_ext; intros (k, v); unfold is_old_keyword, old_keywords.
    cbn [fst existsb].
    destruct (String.eqb k "image_axes"), (String.eqb k "axis_ranges"),
      (String.eqb k "unit_x_axis"), (String.eqb k "unit_y_axis"),
      (String.eqb k "unit"); reflexivity.
Qed.

End old_api.

(** X19.  A call that uses none of the old keywords is left alone:
    [_support_101_plot_API] returns its four arguments and [kwargs] as
    they are, and warns about nothing. *)
Theorem new_api_call_is_left_alone
    (plot_axis_indices axes_coordinates axes_units data_unit : plotting.pyobj)
    (kwargs : plotting.kwargs_t) :
  (forall key, In key plotting.old_keywords -> ~ In key (map fst kwargs)) ->
  plotting._support_101_plot_API
    plot_axis_indices axes_coordinates axes_units data_unit kwargs
  = ([], inr (plot_axis_indices, axes_coordinates, axes_units, data_unit, kwargs)).
Proof.
  intros H; unfold plotting._support_101_plot_API.
  rewrite !old_api.pop_absent by (apply H; simpl; tauto).
  cbn [plotting.is_None negb orb andb].
  destruct (plotting.is_None axes_units); reflexivity.
Qed.

(** X20.  An old keyword set together with its new counterpart makes
    [_support_101_plot_API] raise: [image_axes] with [plot_axis_indices],
    [axis_ranges] with [axes_coordinates], [unit_x_axis] or [unit_y_axis]
    with [axes_units], [unit] with [data_unit]. *)
Theorem old_and_new_keyword_conflict
    (plot_axis_indices axes_coordinates axes_units data_unit : plotting.pyobj)
    (kwargs : plotting.kwargs_t) :
  (plotting.is_None (plotting.keyword kwargs "image_axes") = false /\
   plotting.is_None plot_axis_indices = false) \/
  (plotting.is_None (plotting.keyword kwargs "axis_ranges") = false /\
   plotting.is_None axes_coordinates = false) \/
  ((plotting.is_None (plotting.keyword kwargs "unit_x_axis") = false \/
    plotting.is_None (plotting.keyword kwargs "unit_y_axis") = false) /\
   plotting.is_None axes_units = false) \/
  (plotting.is_None (plotting.keyword kwargs "unit") = false /\
   plotting.is_None data_unit = false) ->
  is_error (snd (plotting._support_101_plot_API
                   plot_axis_indices axes_coordinates axes_units data_unit
                   kwargs)).
Proof.
  intros H; unfold plotting._support_101_plot_API.
  destruct (plotting.pop kwargs "image_axes") as [v1 kw1] eqn:E1.
  destruct (plotting.pop kw1 "axis_ranges") as [v2 kw2] eqn:E2.
  destruct (plotting.pop kw2 "unit_x_axis") as [v3 kw3] eqn:E3.
  destruct (plotting.pop kw3 "unit_y_axis") as [v4 kw4] eqn:E4.
  destruct (plotting.pop kw4 "unit") as [v5 kw5] eqn:E5.
  destruct (old_api.five_pops _ _ _ _ _ _ _ _ _ _ _ E1 E2 E3 E4 E5)
    as (V1 & V2 & V3 & V4 & V5 & _).
  rewrite <- V1, <- V2, <- V3, <- V4, <- V5 in H; clear E1 E2 E3 E4 E5.
  revert H.
  destruct (plotting.is_None v1) eqn:N1;
    [| destruct (plotting.is_None plot_axis_indices) eqn:P];
    cbn [plotting.bindL plotting.retL plotting.raiseL plotting.warn
         plotting._raise_API_error plotting._raise_101_API_deprecation_warning
         negb orb andb snd is_error]; try (intros _; exact I);
  (destruct (plotting.is_None v2) eqn:N2;
    [| destruct (plotting.is_None axes_coordinates) eqn:C];
    cbn [plotting.bindL plotting.retL plotting.raiseL plotting.warn
         plotting._raise_API_error plotting._raise_101_API_deprecation_warning
         negb orb andb snd is_error]; try (intros _; exact I));
  (destruct (plotting.is_None v3) eqn:N3, (plotting.is_None v4) eqn:N4,
     (plotting.is_None axes_units) eqn:U;
    cbn [plotting.bindL plotting.retL plotting.raiseL plotting.warn
         plotting._raise_API_error plotting._raise_101_API_deprecation_warning
         negb orb andb snd is_error]; try (intros _; exact I));
  try (match goal with
       | |- context [plotting.py_len ?x] =>
           destruct (plotting.py_len x) as [e | n];
           cbn [plotting.bindL plotting.retL plotting.raiseL snd is_error];
           try (intros _; exact I);
           destruct (n =? 1); [| destruct (n =? 2)];
           cbn [plotting.bindL plotting.retL plotting.raiseL snd is_error];
           try (intros _; exact I)
       end);
  (destruct (plotting.is_None v5) eqn:N5;
    [| destruct (plotting.is_None data_unit) eqn:D];
    cbn [plotting.bindL plotting.retL plotting.raiseL plotting.warn
         plotting._raise_API_error plotting._raise_101_API_deprecation_warning
         negb orb andb snd is_error]; try (intros _; exact I));
  intros H; exfalso; intuition discriminate.
Qed.

Lemma new_api_call_is_left_alone_witness :
  plotting._support_101_plot_API
    (plotting.PySeq [axis_0; axis_1])
    plotting.PyNone plotting.PyNone plotting.PyNone
    [("alpha"%string, half)]
  = ([], inr (plotting.PySeq [axis_0; axis_1],
              plotting.PyNone, plotting.PyNone, plotting.PyNone,
              [("alpha"%string, half)])).
Proof.
  apply new_api_call_is_left_alone.
  intros key Hold [Hin | []]; subst key.
  simpl in Hold; intuition discriminate.
Defined.

Lemma old_and_new_keyword_conflict_witness :
  is_error (snd (plotting._support_101_plot_API
                   plotting.PyNone plotting.PyNone plotting.PyNone
                   unit_nm
                   [("unit"%string, unit_DN)])).
Proof.
  apply old_and_new_keyword_conflict.
  right; right; right; split; reflexivity.
Defined.

(** X21.  What a call that returns has made of the old keywords, for a
    [kwargs] with distinct keys: the old keywords are gone from [kwargs]
    and nothing else is; [image_axes], [axis_ranges] and [unit], where
    given, are returned as [plot_axis_indices], [axes_coordinates] and
    [data_unit]; [unit_y_axis] alone becomes [[None, unit_y_axis]];
    [unit_x_axis] becomes the axes units itself when there is one plot
    axis and [[unit_x_axis, unit_y_axis]] when there are two. *)
Theorem old_keywords_are_converted
    (plot_axis_indices axes_coordinates axes_units data_unit : plotting.pyobj)
    (kwargs : plotting.kwargs_t) (warnings : list string)
    (plot_axis_indices' axes_coordinates' axes_units' data_unit' : plotting.pyobj)
    (kwargs' : plotting.kwargs_t) :
  NoDup (map fst kwargs) ->
  plotting._support_101_plot_API
    plot_axis_indices axes_coordinates axes_units data_unit kwargs
  = (warnings,
     inr (plot_axis_indices', axes_coordinates', axes_units', data_unit',
          kwargs')) ->
  kwargs' = filter (fun e => negb (plotting.is_old_keyword (fst e))) kwargs /\
  plot_axis_indices'
    = (if plotting.is_None (plotting.keyword kwargs "image_axes")
       then plot_axis_indices else plotting.keyword kwargs "image_axes") /\
  axes_coordinates'
    = (if plotting.is_None (plotting.keyword kwargs "axis_ranges")
       then axes_coordinates else plotting.keyword kwargs "axis_ranges") /\
  data_unit'
    = (if plotting.is_None (plotting.keyword kwargs "unit")
       then data_unit else plotting.keyword kwargs "unit") /\
  (plotting.is_None (plotting.keyword kwargs "unit_x_axis") = true ->
   axes_units'
     = (if plotting.is_None (plotting.keyword kwargs "unit_y_axis")
        then axes_units
        else plotting.PySeq [plotting.PyNone;
                             plotting.keyword kwargs "unit_y_axis"])) /\
  (plotting.is_None (plotting.keyword kwargs "unit_x_axis") = false ->
   (plotting.py_len plot_axis_indices' = inr 1 /\
    axes_units' = plotting.keyword kwargs "unit_x_axis") \/
   (plotting.py_len plot_axis_indices' = inr 2 /\
    axes_units' = plotting.PySeq [plotting.keyword kwargs "unit_x_axis";
                                  plotting.keyword kwargs "unit_y_axis"])).
Proof.
  intros Hnd H; unfold plotting._support_101_plot_API in H.
  destruct (plotting.pop kwargs "image_axes") as [v1 kw1] eqn:E1.
  destruct (plotting.pop kw1 "axis_ranges") as [v2 kw2] eqn:E2.
  destruct (plotting.pop kw2 "unit_x_axis") as [v3 kw3] eqn:E3.
  destruct (plotting.pop kw3 "unit_y_axis") as [v4 kw4] eqn:E4.
  destruct (plotting.pop kw4 "unit") as [v5 kw5] eqn:E5.
  destruct (old_api.five_pops _ _ _ _ _ _ _ _ _ _ _ E1 E2 E3 E4 E5)
    as (V1 & V2 & V3 & V4 & V5 & Hkw).
  rewrite <- V1, <- V2, <- V3, <- V4, <- V5, <- (Hkw Hnd).
  clear E1 E2 E3 E4 E5 V1 V2 V3 V4 V5 Hkw Hnd.
  destruct (plotting.is_None v1) eqn:N1;
    [| destruct (plotting.is_None plot_axis_indices) eqn:P];
    cbn [plotting.bindL plotting.retL plotting.raiseL plotting.warn
         plotting._raise_API_error plotting._raise_101_API_deprecation_warning
         negb orb andb] in H; try discriminate H;
  (destruct (plotting.is_None v2) eqn:N2;
    [| destruct (plotting.is_None axes_coordinates) eqn:C];
    cbn [plotting.bindL plotting.retL plotting.raiseL plotting.warn
         plotting._raise_API_error plotting._raise_101_API_deprecation_warning
         negb orb andb] in H; try discriminate H);
  (destruct (plotting.is_None v3) eqn:N3, (plotting.is_None v4) eqn:N4,
     (plotting.is_None axes_units) eqn:U;
    cbn [plotting.bindL plotting.retL plotting.raiseL plotting.warn
         plotting._raise_API_error plotting._raise_101_API_deprecation_warning
         negb orb andb] in H; try discriminate H);
  try (match type of H with
       | context [plotting.py_len ?x] =>
           destruct (plotting.py_len x) as [e | n] eqn:L;
           cbn [plotting.bindL plotting.retL plotting.raiseL] in H;
           try discriminate H;
           destruct (Z.eqb_spec n 1) as [-> | L1];
           [| destruct (Z.eqb_spec n 2) as [-> | L2]];
           cbn [plotting.bindL plotting.retL plotting.raiseL] in H;
           try discriminate H
       end);
  (destruct (plotting.is_None v5) eqn:N5;
    [| destruct (plotting.is_None data_unit) eqn:D];
    cbn [plotting.bindL plotting.retL plotting.raiseL plotting.warn
         plotting._raise_API_error plotting._raise_101_API_deprecation_warning
         negb orb andb] in H; try discriminate H);
  injection H as _ <- <- <- <- <-;
  repeat split; try reflexivity; try discriminate; intros _; auto;
  (right; split; [assumption |]; destruct v4; try discriminate; reflexivity).
Qed.

(** X22.  [unit_x_axis] needs the plot axes.  When [unit_x_axis] is set,
    [axes_units] is not, and neither [image_axes] nor [axis_ranges] is
    used, the function takes the length of [plot_axis_indices]: left at
    [None] it raises [TypeError]; given with a length other than one or
    two, zero included, it raises the image-axes [ValueError]. *)
Theorem unit_x_axis_needs_plot_axis_indices
    (plot_axis_indices axes_coordinates axes_units data_unit : plotting.pyobj)
    (kwargs : plotting.kwargs_t) :
  plotting.is_None (plotting.keyword kwargs "unit_x_axis") = false ->
  plotting.is_None axes_units = true ->
  plotting.is_None (plotting.keyword kwargs "image_axes") = true ->
  plotting.is_None (plotting.keyword kwargs "axis_ranges") = true ->
  (plot_axis_indices = plotting.PyNone ->
   snd (plotting._support_101_plot_API
          plot_axis_indices axes_coordinates axes_units data_unit kwargs)
   = inl (TypeError (plotting.no_len_message "NoneType"))) /\
  (forall items,
      plot_axis_indices = plotting.PySeq items ->
      len items <> 1 -> len items <> 2 ->
      snd (plotting._support_101_plot_API
             plot_axis_indices axes_coordinates axes_units data_unit kwargs)
      = inl (ValueError plotting.image_axes_length_message)).
Proof.
  intros Hx Hu Hi Hr; unfold plotting._support_101_plot_API.
  destruct (plotting.pop kwargs "image_axes") as [v1 kw1] eqn:E1.
  destruct (plotting.pop kw1 "axis_ranges") as [v2 kw2] eqn:E2.
  destruct (plotting.pop kw2 "unit_x_axis") as [v3 kw3] eqn:E3.
  destruct (plotting.pop kw3 "unit_y_axis") as [v4 kw4] eqn:E4.
  destruct (plotting.pop kw4 "unit") as [v5 kw5] eqn:E5.
  destruct (old_api.five_pops _ _ _ _ _ _ _ _ _ _ _ E1 E2 E3 E4 E5)
    as (V1 & V2 & V3 & V4 & V5 & _).
  rewrite <- V1 in Hi; rewrite <- V2 in Hr; rewrite <- V3 in Hx.
  rewrite Hi, Hr, Hx, Hu.
  cbn [plotting.bindL plotting.retL plotting.raiseL plotting.warn
       plotting._raise_API_error plotting._raise_101_API_deprecation_warning
       negb orb andb].
  split.
  - intros ->; reflexivity.
  - intros items -> H1 H2; cbn [plotting.py_len ret plotting.bindL].
    destruct (Z.eqb_spec (len items) 1); [contradiction |].
    destruct (Z.eqb_spec (len items) 2); [contradiction |]; reflexivity.
Qed.

Lemma old_keywords_are_converted_witness :
  [("alpha"%string, half)]
  = filter (fun e => negb (plotting.is_old_keyword (fst e))) old_style_kwargs /\
  plotting.PySeq [axis_0; axis_1]
  = (if plotting.is_None (plotting.keyword old_style_kwargs "image_axes")
     then plotting.PyNone else plotting.keyword old_style_kwargs "image_axes") /\
  plotting.PyNone
  = (if plotting.is_None (plotting.keyword old_style_kwargs "axis_ranges")
     then plotting.PyNone else plotting.keyword old_style_kwargs "axis_ranges") /\
  plotting.PyNone
  = (if plotting.is_None (plotting.keyword old_style_kwargs "unit")
     then plotting.PyNone else plotting.keyword old_style_kwargs "unit") /\
  (plotting.is_None (plotting.keyword old_style_kwargs "unit_x_axis") = true ->
   plotting.PySeq [unit_nm; plotting.PyNone]
   = (if plotting.is_None (plotting.keyword old_style_kwargs "unit_y_axis")
      then plotting.PyNone
      else plotting.PySeq [plotting.PyNone;
                           plotting.keyword old_style_kwargs "unit_y_axis"])) /\
  (plotting.is_None (plotting.keyword old_style_kwargs "unit_x_axis") = false ->
   (plotting.py_len (plotting.PySeq [axis_0; axis_1])
      = inr 1 /\
    plotting.PySeq [unit_nm; plotting.PyNone]
    = plotting.keyword old_style_kwargs "unit_x_axis") \/
   (plotting.py_len (plotting.PySeq [axis_0; axis_1])
      = inr 2 /\
    plotting.PySeq [unit_nm; plotting.PyNone]
    = plotting.PySeq [plotting.keyword old_style_kwargs "unit_x_axis";
                      plotting.keyword old_style_kwargs "unit_y_axis"])).
Proof.
  apply (old_keywords_are_converted
           plotting.PyNone plotting.PyNone plotting.PyNone plotting.PyNone
           old_style_kwargs
           [plotting.deprecation_message "image_axes" "plot_axis_indices";
            plotting.deprecation_message "unit_x_axis and unit_y_axis" "axes_units"]).
  - repeat constructor; simpl; intuition discriminate.
  - reflexivity.
Defined.

Lemma unit_x_axis_needs_plot_axis_indices_witness :
  (plotting.PyNone = plotting.PyNone ->
   snd (plotting._support_101_plot_API
          plotting.PyNone plotting.PyNone plotting.PyNone plotting.PyNone
          [("unit_x_axis"%string, unit_nm)])
   = inl (TypeError (plotting.no_len_message "NoneType"))) /\
  (forall items,
      plotting.PyNone = plotting.PySeq items ->
      len items <> 1 -> len items <> 2 ->
      snd (plotting._support_101_plot_API
             plotting.PyNone plotting.PyNone plotting.PyNone plotting.PyNone
             [("unit_x_axis"%string, unit_nm)])
      = inl (ValueError plotting.image_axes_length_message)).
Proof.
  apply unit_x_axis_needs_plot_axis_indices; reflexivity.
Defined.
